(** * DCF_Models: forward DCF valuation, sensitivity sweeps and reverse DCF

    A shallow embedding of [DCF_Models.py].  Numbers are IEEE binary64 values
    (Rocq's primitive floats), Python exceptions are the [Raise] branch of an
    error monad, numpy arrays and Python lists are lists, and keyword
    dictionaries are finite maps from strings to dynamically typed values.

    Arithmetic on numpy scalars does not raise: a division by zero gives an
    infinity or a NaN.  The two operations of the module that Python itself
    carries out on its own floats and can raise, the power of line 67 and the
    division inside [np.arange], are modelled with their exceptions.  The
    percent strings of the result tables are kept as the numbers they
    format.

    The constructor of [MA_Valuation_Model.py] and its two methods that are
    plain Python arithmetic, [dcf_valuation] and [synergy_value], are
    embedded the same way; there a division by zero raises. *)

From Stdlib Require Import ZArith Floats Lia.
From stdpp Require Import base option list gmap strings.

Set Warnings "-inexact-float".
Local Open Scope Z_scope.

(** ** Exceptions and the error monad *)

Inductive exn : Type :=
| IndexError
| ValueError
| TypeError
| KeyError
| ZeroDivisionError
| OverflowError.

Inductive result (A : Type) : Type :=
| Ok (a : A)
| Raise (e : exn).
Arguments Ok {A} a.
Arguments Raise {A} e.

#[global] Instance result_ret : MRet result := fun _ a => Ok a.
#[global] Instance result_bind : MBind result := fun _ _ f m =>
  match m with
  | Ok a => f a
  | Raise e => Raise e
  end.

Definition is_ok {A} (r : result A) : bool :=
  match r with Ok _ => true | Raise _ => false end.

(** A [for] loop over the items [xs] that threads the loop state [s] and stops
    at the first exception. *)
Fixpoint for_each {A S : Type} (xs : list A) (body : A -> S -> result S) (s : S)
  : result S :=
  match xs with
  | [] => Ok s
  | x :: xs' => s' ← body x s; for_each xs' body s'
  end.

(** A list comprehension [[f x for x in xs]] whose element expression may
    raise. *)
Fixpoint comprehension {A B : Type} (f : A -> result B) (xs : list A)
  : result (list B) :=
  match xs with
  | [] => Ok []
  | x :: xs' => y ← f x; ys ← comprehension f xs'; Ok (y :: ys)
  end.

(** ** Python and numpy primitives used by the module *)

(** [range(lo, hi)] *)
Definition py_range (lo hi : Z) : list Z :=
  map (fun i => lo + Z.of_nat i) (seq 0 (Z.to_nat (hi - lo))).

Definition py_len {A} (l : list A) : Z := Z.of_nat (length l).

(** Index normalisation shared by list and array subscripts: a negative index
    counts from the end, anything still out of range is an [IndexError]. *)
Definition norm_index (n k : Z) : result nat :=
  let k' := if k <? 0 then k + n else k in
  if (k' <? 0) || (n <=? k') then Raise IndexError else Ok (Z.to_nat k').

(** [l[k]] *)
Definition py_getitem {A} (l : list A) (k : Z) : result A :=
  i ← norm_index (py_len l) k;
  match l !! i with
  | Some x => Ok x
  | None => Raise IndexError
  end.

(** [a[k] = v] on a one-dimensional array *)
Definition np_setitem {A} (a : list A) (k : Z) (v : A) : result (list A) :=
  i ← norm_index (py_len a) k;
  Ok (<[i := v]> a).

(** [np.zeros(n)] *)
Definition np_zeros (n : Z) : result (list float) :=
  if n <? 0 then Raise ValueError else Ok (replicate (Z.to_nat n) 0%float).

(** [np.diff(a)]: first differences, one element shorter than [a]. *)
Fixpoint np_diff (a : list float) : list float :=
  match a with
  | x :: (y :: _) as tl => (y - x)%float :: np_diff tl
  | _ => []
  end.

(** numpy's pairwise summation of a contiguous block of doubles.  Fewer than
    eight elements are added in index order from [0.0].  Up to 128 elements
    are added into eight interleaved partial sums, which are then combined as
    a balanced tree before the remaining elements are added one by one.
    Longer blocks are split near the middle, at a multiple of eight. *)
Definition combine8 (r : list float) : float :=
  match r with
  | [r0; r1; r2; r3; r4; r5; r6; r7] =>
      (((r0 + r1) + (r2 + r3)) + ((r4 + r5) + (r6 + r7)))%float
  | _ => 0%float
  end.

Fixpoint accumulate8 (blocks : nat) (r a : list float)
  : list float * list float :=
  match blocks with
  | O => (r, a)
  | S b => accumulate8 b (zip_with PrimFloat.add r (take 8 a)) (drop 8 a)
  end.

Fixpoint pairwise_sum (fuel : nat) (a : list float) : float :=
  let n := length a in
  if (n <? 8)%nat then foldl PrimFloat.add 0%float a
  else if (n <=? 128)%nat then
    let '(r, rest) := accumulate8 (n / 8 - 1) (take 8 a) (drop 8 a) in
    foldl PrimFloat.add (combine8 r) rest
  else
    match fuel with
    | O => 0%float
    | S fuel' =>
        let n2 := (n / 2 - (n / 2) mod 8)%nat in
        (pairwise_sum fuel' (take n2 a) + pairwise_sum fuel' (drop n2 a))%float
    end.

(** [np.sum(a)] on a one-dimensional float array: the add reduction starts
    from [0.0] and adds the pairwise sum of the elements. *)
Definition np_sum (a : list float) : float :=
  (0 + pairwise_sum (length a) a)%float.

(** Elementwise binary operation on two arrays of the same shape. *)
Definition np_zip (op : float -> float -> float) (a b : list float)
  : list float :=
  zip_with op a b.

(** ** The forward DCF model *)

Record dcf_args : Type := DcfArgs {
  revenue_growth_rates : list float;
  ebit_margins : list float;
  tax_rate : float;
  nwc_percent : float;
  capex_percent : float;
  discount_rate : float;
  terminal_growth_rate : float;
  initial_revenue : float;
  years : Z
}.

(** The columns of the summary data frame. *)
Record dcf_summary : Type := DcfSummary {
  Revenue : list float;
  EBIT : list float;
  NOPAT : list float;
  NWC_Change : list float;
  CAPEX : list float;
  FCF : list float;
  PV_of_FCF : list float
}.

Record dcf_result : Type := DcfResult {
  enterprise_value : float;
  terminal_value : float;
  summary : dcf_summary
}.

Section Forward.

(** [x ** k] on Python floats with an integer exponent.  It is the C
    library's [pow] behind Python's own checks (a zero base with a negative
    exponent is a [ZeroDivisionError], an overflow an [OverflowError]); the
    model is parametric in it. *)
Variable float_pow : float -> Z -> result float.

Local Open Scope float_scope.

(** Lines 38-41: the revenue projection loop. *)
Definition project_revenues (a : dcf_args) (revenues : list float)
  : result (list float) :=
  g0 ← py_getitem (revenue_growth_rates a) 0;
  revenues ← np_setitem revenues 0 (initial_revenue a * (1 + g0));
  for_each (py_range 1 (years a)) (fun i revenues =>
    prev ← py_getitem revenues (i - 1)%Z;
    g ← py_getitem (revenue_growth_rates a)
          (Z.min i (py_len (revenue_growth_rates a) - 1));
    np_setitem revenues i (prev * (1 + g))) revenues.

(** Lines 43-45: the EBIT loop. *)
Definition project_ebit (a : dcf_args) (revenues ebit : list float)
  : result (list float) :=
  for_each (py_range 0 (years a)) (fun i ebit =>
    r ← py_getitem revenues i;
    m ← py_getitem (ebit_margins a)
          (Z.min i (py_len (ebit_margins a) - 1));
    np_setitem ebit i (r * m)) ebit.

(** Lines 50-53: the net-working-capital level series. *)
Definition project_nwc (a : dcf_args) (revenues nwc : list float)
  : result (list float) :=
  nwc ← np_setitem nwc 0 (initial_revenue a * nwc_percent a);
  for_each (py_range 0 (years a)) (fun i nwc =>
    r ← py_getitem revenues i;
    np_setitem nwc (i + 1)%Z (r * nwc_percent a)) nwc.

(** The arrays lines 30-60 build. *)
Record projection : Type := Projection {
  p_revenues : list float;
  p_ebit : list float;
  p_nopat : list float;
  p_nwc : list float;
  p_nwc_changes : list float;
  p_capex : list float;
  p_fcf : list float
}.

(** Lines 30-60: the projection of revenues down to free cash flows. *)
Definition project (a : dcf_args) : result projection :=
  revenues ← np_zeros (years a);
  ebit ← np_zeros (years a);
  _ ← np_zeros (years a);
  nwc ← np_zeros (years a + 1)%Z;
  _ ← np_zeros (years a);
  _ ← np_zeros (years a);
  revenues ← project_revenues a revenues;
  ebit ← project_ebit a revenues ebit;
  let nopat := map (fun e => e * (1 - tax_rate a)) ebit in
  nwc ← project_nwc a revenues nwc;
  let nwc_changes := np_diff nwc in
  let capex := map (fun r => r * capex_percent a) revenues in
  let fcf :=
    np_zip PrimFloat.sub (np_zip PrimFloat.sub nopat nwc_changes) capex in
  Ok (Projection revenues ebit nopat nwc nwc_changes capex fcf).

(** The values lines 62-72 compute. *)
Record valuation : Type := Valuation {
  v_terminal_fcf : float;
  v_denominator : float;
  v_terminal_value : float;
  v_discount_factors : list float;
  v_pv_fcf : list float;
  v_pv_terminal_value : float;
  v_enterprise_value : float
}.

(** Lines 62-72: terminal value, discounting and enterprise value. *)
Definition value (a : dcf_args) (fcf : list float) : result valuation :=
  fcf_last ← py_getitem fcf (-1)%Z;
  let terminal_fcf := fcf_last * (1 + terminal_growth_rate a) in
  let denominator := discount_rate a - terminal_growth_rate a in
  let terminal_value := terminal_fcf / denominator in
  discount_factors ←
    comprehension (fun i => float_pow (1 + discount_rate a) (- i)%Z)
                  (py_range 1 (years a + 1));
  let pv_fcf := np_zip PrimFloat.mul fcf discount_factors in
  df_last ← py_getitem discount_factors (-1)%Z;
  let pv_terminal_value := terminal_value * df_last in
  let enterprise_value := np_sum pv_fcf + pv_terminal_value in
  Ok (Valuation terminal_fcf denominator terminal_value discount_factors
        pv_fcf pv_terminal_value enterprise_value).

(** Lines 74-89: the returned dictionary. *)
Definition dcf_return (p : projection) (v : valuation) : dcf_result :=
  DcfResult (v_enterprise_value v) (v_terminal_value v)
    (DcfSummary (p_revenues p) (p_ebit p) (p_nopat p) (p_nwc_changes p)
       (p_capex p) (p_fcf p) (v_pv_fcf v)).

Definition calculate_dcf (a : dcf_args) : result dcf_result :=
  p ← project a;
  v ← value a (p_fcf p);
  Ok (dcf_return p v).

End Forward.

(** ** The reverse DCF grid search *)

(** Conversion of a Python int to a binary64 value, rounding to nearest even. *)
Definition float_of_Z (n : Z) : float :=
  SF2Prim (binary_normalize prec emax n 0 false).

(** Python's int-to-float conversion in mixed arithmetic: an int too large for
    a double is an [OverflowError]. *)
Definition int_to_float (n : Z) : result float :=
  let x := float_of_Z n in
  if is_infinity x then Raise OverflowError else Ok x.

(** The ceiling of a double as an integer; an infinity and a NaN have none. *)
Definition float_ceil (x : float) : option Z :=
  match Prim2SF x with
  | S754_zero _ => Some 0
  | S754_finite s m e =>
      Some (if 0 <=? e then (if s then - (Zpos m * 2 ^ e) else Zpos m * 2 ^ e)
            else if s then - (Zpos m / 2 ^ (- e))
            else - ((- Zpos m) / 2 ^ (- e)))
  | _ => None
  end.

(** numpy's length computation for [arange]: the ceiling of a double as a
    signed 64-bit size.  A NaN, an infinity and a ceiling outside
    [-2 ** 63, 2 ** 63] all surface from [np.arange] as a [ValueError]
    (the overflow of the helper is reported as
    [ValueError: Maximum allowed size exceeded]).  The bound [2 ** 63]
    itself passes the helper's comparison, which is made on doubles, and its
    conversion to a 64-bit integer gives the smallest integer, so the array
    is empty. *)
Definition float_ceil_intp (x : float) : result Z :=
  match float_ceil x with
  | None => Raise ValueError
  | Some c =>
      if (c <? - 2 ^ 63) || (2 ^ 63 <? c) then Raise ValueError
      else if c =? 2 ^ 63 then Ok (- 2 ^ 63)
      else Ok c
  end.

(** The number of values of [np.arange(start, stop, step)] on Python floats:
    [ceil((stop - start) / step)].  A zero step is a [ZeroDivisionError] of
    the float division; a quotient that underflowed to zero counts as one
    value when it is positive and none when it is negative. *)
Definition arange_length (start stop step : float) : result Z :=
  if (step =? 0)%float then Raise ZeroDivisionError
  else
    let delta := (stop - start)%float in
    let value := (delta / step)%float in
    len ← float_ceil_intp value;
    match Prim2SF value with
    | S754_zero s =>
        if negb (delta =? 0)%float then Ok (if s then 0 else 1) else Ok len
    | _ => Ok len
    end.

(** [np.arange(start, stop, step)] on floats: the first value is [start], the
    second [start + step], and the rest are filled as [start + i * delta]
    with [delta] the difference of the first two. *)
Definition np_arange (start stop step : float) : result (list float) :=
  len ← arange_length start stop step;
  let next := (start + step)%float in
  let delta := (next - start)%float in
  Ok (map (fun i : nat =>
             match i with
             | O => start
             | S O => next
             | _ => (start + float_of_Z (Z.of_nat i) * delta)%float
             end)
          (seq 0 (Z.to_nat len))).

(** Dynamically typed values found in the keyword dictionaries and in the
    perturbation lists: Python floats, ints, lists of floats and tuples of
    floats. *)
Inductive pyval : Type :=
| VFloat (x : float)
| VInt (n : Z)
| VList (l : list float)
| VTuple (l : list float).

Record reverse_args : Type := ReverseArgs {
  current_price : float;
  shares_outstanding : float;
  net_debt : float;
  r_initial_revenue : float;
  r_ebit_margins : list float;
  r_tax_rate : float;
  r_nwc_percent : float;
  r_capex_percent : float;
  r_discount_rate : float;
  r_terminal_growth_rate : float;
  r_years : pyval;
  iteration_range : list float
}.

(** [a, b, c = t] *)
Definition unpack3 (t : list float) : result (float * float * float) :=
  match t with
  | [a; b; c] => Ok (a, b, c)
  | _ => Raise ValueError
  end.

(** [[x] * n]: a non-positive count gives the empty list, a count that is not
    an int is a [TypeError]. *)
Definition py_repeat1 (x : float) (n : pyval) : result (list float) :=
  match n with
  | VInt k => Ok (replicate (Z.to_nat k) x)
  | _ => Raise TypeError
  end.

(** [np.zeros(years)] and its siblings need an int. *)
Definition int_arg (v : pyval) : result Z :=
  match v with
  | VInt k => Ok k
  | _ => Raise TypeError
  end.

Section Reverse.

Variable float_pow : float -> Z -> result float.

Local Open Scope float_scope.

Definition target_ev (q : reverse_args) : float :=
  let market_cap := current_price q * shares_outstanding q in
  market_cap + net_debt q.

(** Lines 210-221: the inputs built for one candidate growth rate. *)
Definition candidate_inputs (q : reverse_args) (growth : float)
  : result dcf_args :=
  growth_array ← py_repeat1 growth (r_years q);
  years ← int_arg (r_years q);
  Ok (DcfArgs growth_array (r_ebit_margins q) (r_tax_rate q)
        (r_nwc_percent q) (r_capex_percent q) (r_discount_rate q)
        (r_terminal_growth_rate q) (r_initial_revenue q) years).

(** Lines 223-224: [abs(calculated_ev - target_ev)] for one candidate. *)
Definition candidate_difference (q : reverse_args) (growth : float)
  : result float :=
  inputs ← candidate_inputs q growth;
  r ← calculate_dcf float_pow inputs;
  Ok (abs (enterprise_value r - target_ev q)).

(** Lines 209-228: one iteration on the state
    [(closest_growth, min_difference)]. *)
Definition scan_step (q : reverse_args) (growth : float)
           (st : option float * float) : result (option float * float) :=
  difference ← candidate_difference q growth;
  if difference <? st.2 then Ok (Some growth, difference) else Ok st.

Definition growth_grid (q : reverse_args) : result (list float) :=
  '(min_growth, max_growth, step) ← unpack3 (iteration_range q);
  np_arange min_growth max_growth step.

(** [None] is Python's [None]. *)
Definition reverse_dcf (q : reverse_args) : result (option float) :=
  growth_rates ← growth_grid q;
  st ← for_each growth_rates (scan_step q) (None, infinity);
  Ok st.1.

End Reverse.

(** ** Keyword dictionaries and dynamically typed arithmetic *)

(** [d[k]] on a dictionary *)
Definition dict_getitem {V} (d : gmap string V) (k : string) : result V :=
  match d !! k with
  | Some v => Ok v
  | None => Raise KeyError
  end.

(** A float operand; a Python int is promoted to a double. *)
Definition as_float (v : pyval) : result float :=
  match v with
  | VFloat x => Ok x
  | VInt n => int_to_float n
  | _ => Raise TypeError
  end.

(** [1 + p] *)
Definition py_add_one (p : pyval) : result pyval :=
  match p with
  | VFloat x => Ok (VFloat (1 + x)%float)
  | VInt n => Ok (VInt (1 + n))
  | _ => Raise TypeError
  end.

(** [x * w] for a float [x] *)
Definition float_mul_py (x : float) (w : pyval) : result float :=
  y ← as_float w; Ok (x * y)%float.

(** [v * w]: numbers multiply, a sequence times an int is repeated, a sequence
    times a float is a [TypeError]. *)
Definition py_mul (v w : pyval) : result pyval :=
  match v, w with
  | VFloat x, _ => y ← float_mul_py x w; Ok (VFloat y)
  | VInt n, VInt m => Ok (VInt (n * m))
  | VInt n, VFloat y => x ← int_to_float n; Ok (VFloat (x * y)%float)
  | VList l, VInt n | VInt n, VList l =>
      Ok (VList (concat (replicate (Z.to_nat n) l)))
  | VTuple l, VInt n | VInt n, VTuple l =>
      Ok (VTuple (concat (replicate (Z.to_nat n) l)))
  | _, _ => Raise TypeError
  end.

(** A percent format specification applies to numbers only. *)
Definition py_format_percent (v : pyval) : result unit :=
  match v with
  | VFloat _ | VInt _ => Ok ()
  | _ => Raise TypeError
  end.

(** ** Arguments within the model

    The functions of the module take dynamically typed arguments.  The model
    follows a call whose series are lists or tuples of floats (the functions
    only index a series and take its length) and whose scalars are floats or
    ints.  An int scalar meets other ints in Python before it meets a
    float: [1 - tax_rate], [discount_rate - terminal_growth_rate] and the
    like are exact int arithmetic, converted to a double afterwards.  For
    ints of magnitude at most [2 ** 53] each such result is the double that
    the same operation gives on the converted ints, so the int is converted
    where it is bound.  A call with a wider int, or with a sequence where a
    scalar is expected (which numpy broadcasts), is left to a parameter of
    the model. *)
Definition exact_int (bound n : Z) : bool := Z.abs n <=? bound.

Definition as_scalar (bound : Z) (v : pyval) : option float :=
  match v with
  | VFloat x => Some x
  | VInt n =>
      if exact_int bound n then
        match int_to_float n with Ok x => Some x | Raise _ => None end
      else None
  | _ => None
  end.

Definition as_series (v : pyval) : option (list float) :=
  match v with
  | VList l | VTuple l => Some l
  | _ => None
  end.

(** Keyword binding of a call that unpacks the dictionary [kw]: an
    unexpected or a missing name is a [TypeError]. *)
Definition keywords_ok (params : list string) (kw : gmap string pyval) : bool :=
  bool_decide (map_Forall (fun k _ => k ∈ params) kw).

Definition required (kw : gmap string pyval) (k : string) : result pyval :=
  match kw !! k with
  | Some v => Ok v
  | None => Raise TypeError
  end.

Definition dcf_params : list string :=
  ["revenue_growth_rates"; "ebit_margins"; "tax_rate"; "nwc_percent";
   "capex_percent"; "discount_rate"; "terminal_growth_rate";
   "initial_revenue"; "years"].

(** The arguments [calculate_dcf] runs with when it is called on the
    dictionary [kw].  An unexpected or a missing keyword is a [TypeError] of
    the call, and a horizon [years] that is not an int (default 5) is the
    [TypeError] of [np.zeros(years)], the first statement.  The result is
    [None] when another argument is outside the model. *)
Definition typed_dcf_args (g m tax nwc capex d tg rev : pyval) (years : Z)
  : option dcf_args :=
  g ← as_series g;
  m ← as_series m;
  tax ← as_scalar (2 ^ 53) tax;
  nwc ← as_scalar (2 ^ 53) nwc;
  capex ← as_scalar (2 ^ 53) capex;
  d ← as_scalar (2 ^ 53) d;
  tg ← as_scalar (2 ^ 53) tg;
  rev ← as_scalar (2 ^ 53) rev;
  Some (DcfArgs g m tax nwc capex d tg rev years).

Definition bind_dcf_args (kw : gmap string pyval)
  : result (option dcf_args) :=
  if negb (keywords_ok dcf_params kw) then Raise TypeError
  else
    g ← required kw "revenue_growth_rates";
    m ← required kw "ebit_margins";
    tax ← required kw "tax_rate";
    nwc ← required kw "nwc_percent";
    capex ← required kw "capex_percent";
    d ← required kw "discount_rate";
    tg ← required kw "terminal_growth_rate";
    rev ← required kw "initial_revenue";
    years ← int_arg (default (VInt 5) (kw !! "years"));
    Ok (typed_dcf_args g m tax nwc capex d tg rev years).

Definition reverse_params : list string :=
  ["current_price"; "shares_outstanding"; "net_debt"; "initial_revenue";
   "ebit_margins"; "tax_rate"; "nwc_percent"; "capex_percent";
   "discount_rate"; "terminal_growth_rate"; "years"; "iteration_range"].

(** The arguments [reverse_dcf] runs with when it is called on the
    dictionary [kw]; [years] stays dynamically typed because it is first
    used inside the scan, and the search range is a tuple or a list of
    floats (default [(0, 0.5, 0.001)]).  The product
    [current_price * shares_outstanding] is exact int arithmetic when both
    are ints, so these two are followed up to [2 ** 26] in magnitude, where
    the product and its sum with [net_debt] are exact in doubles as well. *)
Definition typed_reverse_args
           (price shares debt rev m tax nwc capex d tg years rng : pyval)
  : option reverse_args :=
  price ← as_scalar (2 ^ 26) price;
  shares ← as_scalar (2 ^ 26) shares;
  debt ← as_scalar (2 ^ 53) debt;
  rev ← as_scalar (2 ^ 53) rev;
  m ← as_series m;
  tax ← as_scalar (2 ^ 53) tax;
  nwc ← as_scalar (2 ^ 53) nwc;
  capex ← as_scalar (2 ^ 53) capex;
  d ← as_scalar (2 ^ 53) d;
  tg ← as_scalar (2 ^ 53) tg;
  rng ← as_series rng;
  Some (ReverseArgs price shares debt rev m tax nwc capex d tg years rng).

Definition bind_reverse_args (kw : gmap string pyval)
  : result (option reverse_args) :=
  if negb (keywords_ok reverse_params kw) then Raise TypeError
  else
    price ← required kw "current_price";
    shares ← required kw "shares_outstanding";
    debt ← required kw "net_debt";
    rev ← required kw "initial_revenue";
    m ← required kw "ebit_margins";
    tax ← required kw "tax_rate";
    nwc ← required kw "nwc_percent";
    capex ← required kw "capex_percent";
    d ← required kw "discount_rate";
    tg ← required kw "terminal_growth_rate";
    let years := default (VInt 5) (kw !! "years") in
    let rng :=
      default (VTuple [0; 0.5; 0.001]%float) (kw !! "iteration_range") in
    Ok (typed_reverse_args price shares debt rev m tax nwc capex d tg years
          rng).

(** ** Sensitivity sweeps *)

(** One row of a sensitivity table; the percent strings of the source are kept
    as the numbers they format. *)
Record sens_row : Type := SensRow {
  change_in_input : pyval;
  row_enterprise_value : float;
  value_change : float
}.

Record rev_row : Type := RevRow {
  rev_change_in_input : pyval;
  implied_growth : float;
  growth_delta : float
}.

(** Formatting or subtracting [None] is a [TypeError]. *)
Definition not_none (o : option float) : result float :=
  match o with
  | Some x => Ok x
  | None => Raise TypeError
  end.

Section Sweeps.

Variable float_pow : float -> Z -> result float.

(** What the two functions do on a dictionary with an argument outside the
    model. *)
Variable untyped_dcf : gmap string pyval -> result dcf_result.
Variable untyped_reverse_dcf : gmap string pyval -> result (option float).

Local Open Scope float_scope.

Definition call_calculate_dcf (kw : gmap string pyval) : result dcf_result :=
  a ← bind_dcf_args kw;
  match a with
  | Some a => calculate_dcf float_pow a
  | None => untyped_dcf kw
  end.

Definition call_reverse_dcf (kw : gmap string pyval) : result (option float) :=
  q ← bind_reverse_args kw;
  match q with
  | Some q => reverse_dcf float_pow q
  | None => untyped_reverse_dcf kw
  end.

(** Lines 124-129: the perturbed value of the swept entry. *)
Definition modified_value (base_var_value pct_change : pyval) : result pyval :=
  match base_var_value with
  | VList l =>
      l' ← comprehension
             (fun x => w ← py_add_one pct_change; float_mul_py x w) l;
      Ok (VList l')
  | _ => w ← py_add_one pct_change; py_mul base_var_value w
  end.

(** Lines 131-133: the copy of the base dictionary with one entry replaced. *)
Definition modified_inputs (base_inputs : gmap string pyval) (var : string)
           (v : pyval) : gmap string pyval :=
  <[var := v]> base_inputs.

(** Lines 123-143: the body of the inner loop. *)
Definition sensitivity_row (base_inputs : gmap string pyval)
           (base_value : float) (var : string) (base_var_value : pyval)
           (pct_change : pyval) : result sens_row :=
  v ← modified_value base_var_value pct_change;
  r ← call_calculate_dcf (modified_inputs base_inputs var v);
  let new_value := enterprise_value r in
  let pct_change_in_value := (new_value - base_value) / base_value in
  _ ← py_format_percent pct_change;
  Ok (SensRow pct_change new_value pct_change_in_value).

Definition sensitivity_analysis (base_inputs : gmap string pyval)
           (variables : list string) (ranges : gmap string (list pyval))
  : result (gmap string (list sens_row)) :=
  base ← call_calculate_dcf base_inputs;
  let base_value := enterprise_value base in
  for_each variables (fun var results =>
    base_var_value ← dict_getitem base_inputs var;
    rng ← dict_getitem ranges var;
    var_results ←
      comprehension
        (sensitivity_row base_inputs base_value var base_var_value) rng;
    Ok (<[var := var_results]> results)) ∅.

(** Lines 252-262: the body of the inner loop of the reverse sweep. *)
Definition reverse_sensitivity_row (base_inputs : gmap string pyval)
           (base_growth : option float) (var : string)
           (base_var_value : pyval) (pct_change : pyval) : result rev_row :=
  w ← py_add_one pct_change;
  v ← py_mul base_var_value w;
  implied ← call_reverse_dcf (modified_inputs base_inputs var v);
  _ ← py_format_percent pct_change;
  g ← not_none implied;
  b ← not_none base_growth;
  Ok (RevRow pct_change g (g - b)).

Definition reverse_dcf_sensitivity (base_inputs : gmap string pyval)
           (variables : list string) (ranges : gmap string (list pyval))
  : result (gmap string (list rev_row)) :=
  base_growth ← call_reverse_dcf base_inputs;
  for_each variables (fun var results =>
    base_var_value ← dict_getitem base_inputs var;
    rng ← dict_getitem ranges var;
    var_results ←
      comprehension
        (reverse_sensitivity_row base_inputs base_growth var base_var_value)
        rng;
    Ok (<[var := var_results]> results)) ∅.

End Sweeps.

(** ** An executable power function for concrete runs *)

Fixpoint float_pow_nat (x : float) (n : nat) : float :=
  match n with
  | O => 1%float
  | S n' => (x * float_pow_nat x n')%float
  end.

(** Python's checks around [pow], with the power itself computed by repeated
    multiplication and one division; it is exact when the base is a power of
    two, as in the concrete runs below. *)
Definition float_pow_model (x : float) (k : Z) : result float :=
  if k =? 0 then Ok 1%float
  else if is_nan x then Ok nan
  else if (x =? 0)%float && (k <? 0) then Raise ZeroDivisionError
  else
    let p := float_pow_nat x (Z.abs_nat k) in
    let r := if k <? 0 then (1 / p)%float else p in
    if is_infinity r && negb (is_infinity x) then Raise OverflowError
    else Ok r.

(** The concrete runs stay within the model, where the behaviour outside it
    is never consulted; for them it is fixed to an exception that no run
    below ends in. *)
Definition untyped_dcf_model (kw : gmap string pyval) : result dcf_result :=
  Raise OverflowError.

Definition untyped_reverse_dcf_model (kw : gmap string pyval)
  : result (option float) :=
  Raise OverflowError.

(** The reference inputs of the module's usage section. *)
Definition model_inputs : gmap string pyval :=
  list_to_map
    [("revenue_growth_rates", VList [0.15; 0.12; 0.10; 0.08; 0.06]%float);
     ("ebit_margins", VList [0.25; 0.26; 0.27; 0.27; 0.28]%float);
     ("tax_rate", VFloat 0.25); ("nwc_percent", VFloat 0.12);
     ("capex_percent", VFloat 0.08); ("discount_rate", VFloat 0.10);
     ("terminal_growth_rate", VFloat 0.02); ("initial_revenue", VInt 1000000)].

(** ** The reference equations of specification section 4.1 *)

(** [clamp(i) = min(i, len - 1)] *)
Definition clamp {A} (l : list A) (i : nat) : nat := Nat.min i (length l - 1).

(** The first [n] values of a series given by its index. *)
Definition tabulate {A} (f : nat -> A) (n : nat) : list A := map f (seq 0 n).

Section Reference.

Variable a : dcf_args.

Local Open Scope float_scope.

Definition growth_at (i : nat) : float :=
  nth (clamp (revenue_growth_rates a) i) (revenue_growth_rates a) 0.

Definition margin_at (i : nat) : float :=
  nth (clamp (ebit_margins a) i) (ebit_margins a) 0.

Fixpoint ref_revenue (i : nat) : float :=
  match i with
  | O => initial_revenue a * (1 + growth_at 0)
  | S j => ref_revenue j * (1 + growth_at (S j))
  end.

Definition ref_ebit (i : nat) : float := ref_revenue i * margin_at i.

Definition ref_nopat (i : nat) : float := ref_ebit i * (1 - tax_rate a).

Definition ref_nwc_level (i : nat) : float :=
  match i with
  | O => initial_revenue a * nwc_percent a
  | S j => ref_revenue j * nwc_percent a
  end.

Definition ref_nwc_change (i : nat) : float :=
  ref_nwc_level (S i) - ref_nwc_level i.

Definition ref_capex (i : nat) : float := ref_revenue i * capex_percent a.

Definition ref_fcf (i : nat) : float :=
  ref_nopat i - ref_nwc_change i - ref_capex i.

(** The reference series, tabulated over the forecast years. *)
Definition ref_projection : projection :=
  let n := Z.to_nat (years a) in
  Projection (tabulate ref_revenue n) (tabulate ref_ebit n)
    (tabulate ref_nopat n) (tabulate ref_nwc_level (S n))
    (tabulate ref_nwc_change n) (tabulate ref_capex n)
    (tabulate ref_fcf n).

(** Section 4.2 on the free cash flows [fcf], with [pw i] standing for
    [(1 + discount_rate) ** -i]. *)
Definition ref_valuation (pw : Z -> float) (fcf : nat -> float) : valuation :=
  let n := Z.to_nat (years a) in
  let terminal_fcf := fcf (n - 1)%nat * (1 + terminal_growth_rate a) in
  let denominator := discount_rate a - terminal_growth_rate a in
  let terminal_value := terminal_fcf / denominator in
  let discount_factors := tabulate (fun i => pw (Z.of_nat i + 1)%Z) n in
  let pv_fcf := tabulate (fun i => fcf i * pw (Z.of_nat i + 1)%Z) n in
  let pv_terminal_value := terminal_value * pw (years a) in
  Valuation terminal_fcf denominator terminal_value discount_factors pv_fcf
    pv_terminal_value (np_sum pv_fcf + pv_terminal_value).

End Reference.

(** The swept entry as section 4.3 words it for a perturbation [p]: a scalar
    becomes the scalar times [1 + p], a sequence, list or tuple, has every
    element multiplied by [1 + p]. *)
Definition spec_factor (pct : pyval) : result float :=
  match pct with
  | VFloat p => Ok (1 + p)%float
  | VInt n => int_to_float (1 + n)
  | _ => Raise TypeError
  end.

Definition spec_scaled (v pct : pyval) : result pyval :=
  match v with
  | VFloat x => f ← spec_factor pct; Ok (VFloat (x * f)%float)
  | VInt n =>
      match pct with
      | VInt m => Ok (VInt (n * (1 + m)))
      | _ =>
          f ← spec_factor pct; x ← int_to_float n; Ok (VFloat (x * f)%float)
      end
  | VList l =>
      l' ← comprehension (fun x => f ← spec_factor pct; Ok (x * f)%float) l;
      Ok (VList l')
  | VTuple l =>
      l' ← comprehension (fun x => f ← spec_factor pct; Ok (x * f)%float) l;
      Ok (VTuple l')
  end.

(** The value of a computation that returned, [d] otherwise. *)
Definition from_ok {A} (d : A) (r : result A) : A :=
  match r with
  | Ok a => a
  | Raise _ => d
  end.

(** ** Concrete inputs

    All rates below are dyadic fractions, so every operation on them is exact
    in binary64. *)

(** A two-year projection at a 100% discount rate. *)
Definition ex_valid : dcf_args :=
  DcfArgs [0.5; 0.25]%float [0.5]%float 0.25 0.125 0.125 1 0.5 1024 2.

(** Eight forecast years whose free cash flows are the margins
    [2 ** 53, 1, 1, 1, 0, 0, 0, 0], undiscounted and without terminal
    value. *)
Definition ex_eight_years : dcf_args :=
  DcfArgs [0]%float [9007199254740992; 1; 1; 1; 0; 0; 0; 0]%float
    0 0 0 0 (-1) 1 8.

(** Discount rate equal to the terminal growth rate. *)
Definition ex_equal_rates : dcf_args :=
  DcfArgs [0]%float [1]%float 0 0 0 1 1 1 1.

(** A discount rate of -100%, above a terminal growth rate of -200%. *)
Definition ex_zero_base : dcf_args :=
  DcfArgs [0]%float [1]%float 0 0 0 (-1) (-2) 1 1.

(** A tax rate that is not a number. *)
Definition ex_nan_tax : dcf_args :=
  DcfArgs [0]%float [1]%float nan 0 0 1 0 1 1.

(** Inputs without a single forecast year. *)
Definition ex_no_years : dcf_args :=
  DcfArgs [0]%float [1]%float 0 0 0 1 0 1 0.

(** A reverse query scanning the growth rates 0, 0.25, 0.5 and 0.75. *)
Definition ex_query : reverse_args :=
  ReverseArgs 3 100 0 1024 [0.5]%float 0.25 0.125 0.125 1 0.5 (VInt 2)
    [0; 1; 0.25]%float.

(** A reverse query whose revenue overflows for every candidate. *)
Definition ex_query_overflow : reverse_args :=
  ReverseArgs 3 100 0 0x1p1023 [0.5]%float 0.25 0.125 0.125 1 0.5 (VInt 2)
    [1; 3; 1]%float.

(** A reverse query with a discount rate of -100%, above its terminal growth
    rate of -200%. *)
Definition ex_query_zero_base : reverse_args :=
  ReverseArgs 3 100 0 1024 [0.5]%float 0.25 0.125 0.125 (-1) (-2) (VInt 2)
    [0; 1; 0.25]%float.

(** A reverse query with a far target over the search range
    [(0.1, 0.4, 0.1)], whose quotient [(0.4 - 0.1) / 0.1] is just above 3. *)
Definition ex_query_closed : reverse_args :=
  ReverseArgs 1024 1024 0 1024 [0.5]%float 0.25 0.125 0.125 1 0.5 (VInt 2)
    [0.1; 0.4; 0.1]%float.

(** A reverse query with [min_growth >= max_growth]. *)
Definition ex_query_empty : reverse_args :=
  ReverseArgs 3 100 0 1024 [0.5]%float 0.25 0.125 0.125 1 0.5 (VInt 2)
    [0.5; 0; 0.25]%float.

(** Keyword dictionaries for the sweeps. *)
Definition ex_base_inputs : gmap string pyval :=
  list_to_map
    [("revenue_growth_rates", VList [0.5; 0.25]%float);
     ("ebit_margins", VList [0.5]%float);
     ("tax_rate", VFloat 0.25); ("nwc_percent", VFloat 0.125);
     ("capex_percent", VFloat 0.125); ("discount_rate", VFloat 1);
     ("terminal_growth_rate", VFloat 0.5); ("initial_revenue", VInt 1024);
     ("years", VInt 2)].

(** The base dictionary with the margins as a tuple. *)
Definition ex_tuple_inputs : gmap string pyval :=
  <["ebit_margins" := VTuple [0.5]%float]> ex_base_inputs.

Definition ex_reverse_inputs : gmap string pyval :=
  list_to_map
    [("current_price", VInt 3); ("shares_outstanding", VInt 100);
     ("net_debt", VInt 0); ("initial_revenue", VInt 1024);
     ("ebit_margins", VList [0.5]%float);
     ("tax_rate", VFloat 0.25); ("nwc_percent", VFloat 0.125);
     ("capex_percent", VFloat 0.125); ("discount_rate", VFloat 1);
     ("terminal_growth_rate", VFloat 0.5); ("years", VInt 2);
     ("iteration_range", VTuple [0; 1; 0.25]%float)].

(** The discount factors of the concrete inputs: [2 ** -i], read off the
    executable power function. *)
Definition ex_pw (i : Z) : float := from_ok 0%float (float_pow_model 2 (- i)).

(** A result to fall back on where a computation did not return. *)
Definition no_result : dcf_result :=
  DcfResult 0 0 (DcfSummary [] [] [] [] [] [] []).

(** The evaluations of the four candidates of [ex_query]. *)
Definition ex_query_results : list dcf_result :=
  map (fun g => from_ok no_result
                  (inputs ← candidate_inputs ex_query g;
                   calculate_dcf float_pow_model inputs))
      [0; 0.25; 0.5; 0.75]%float.

(** ** Predicates used in the statements

    What a scan state [(closest_growth, min_difference)] says about the
    differences [ds] of the candidates [grid] scanned so far: either no
    difference was below infinity and the state is the initial one, or the
    state holds a candidate with no strictly smaller difference anywhere
    and no difference as small before it. *)
Definition scanned (grid ds : list float) (st : option float * float) : Prop :=
  (st = (None, infinity) /\
   forall j dj, ds !! j = Some dj -> (dj <? infinity)%float = false) \/
  (exists (k : nat) (g dk : float),
      grid !! k = Some g /\ ds !! k = Some dk /\ st = (Some g, dk) /\
      (dk <? infinity)%float = true /\
      (forall j dj, ds !! j = Some dj -> (dj <? dk)%float = false) /\
      (forall j dj, (j < k)%nat -> ds !! j = Some dj ->
                    (dj <=? dk)%float = false)).

(** What a binding of the [calculate_dcf] keywords within the model amounts
    to. *)
Definition bound_to (kw : gmap string pyval) (a : dcf_args) : Prop :=
  keywords_ok dcf_params kw = true /\
  (exists v, kw !! "revenue_growth_rates" = Some v /\
             as_series v = Some (revenue_growth_rates a)) /\
  (exists v, kw !! "ebit_margins" = Some v /\
             as_series v = Some (ebit_margins a)) /\
  (exists v, kw !! "tax_rate" = Some v /\
             as_scalar (2 ^ 53) v = Some (tax_rate a)) /\
  (exists v, kw !! "nwc_percent" = Some v /\
             as_scalar (2 ^ 53) v = Some (nwc_percent a)) /\
  (exists v, kw !! "capex_percent" = Some v /\
             as_scalar (2 ^ 53) v = Some (capex_percent a)) /\
  (exists v, kw !! "discount_rate" = Some v /\
             as_scalar (2 ^ 53) v = Some (discount_rate a)) /\
  (exists v, kw !! "terminal_growth_rate" = Some v /\
             as_scalar (2 ^ 53) v = Some (terminal_growth_rate a)) /\
  (exists v, kw !! "initial_revenue" = Some v /\
             as_scalar (2 ^ 53) v = Some (initial_revenue a)) /\
  int_arg (default (VInt 5) (kw !! "years")) = Ok (years a).

(** ** Further definitions

    The table of one swept variable, inputs with other series, and
    further concrete inputs. *)

(** [calculate_dcf]'s inputs with other growth and margin series. *)
Definition with_series (a : dcf_args) (g m : list float) : dcf_args :=
  DcfArgs g m (tax_rate a) (nwc_percent a) (capex_percent a)
    (discount_rate a) (terminal_growth_rate a) (initial_revenue a) (years a).

Section Tables.

Variable float_pow : float -> Z -> result float.
Variable untyped_dcf : gmap string pyval -> result dcf_result.
Variable untyped_reverse_dcf : gmap string pyval -> result (option float).

(** Lines 120-143: the table of one swept variable. *)
Definition sensitivity_table (base_inputs : gmap string pyval)
           (base_value : float) (ranges : gmap string (list pyval))
           (var : string) : result (list sens_row) :=
  base_var_value ← dict_getitem base_inputs var;
  rng ← dict_getitem ranges var;
  comprehension
    (sensitivity_row float_pow untyped_dcf base_inputs base_value var
      base_var_value) rng.

(** Lines 249-262: the table of one swept variable of the reverse sweep. *)
Definition reverse_sensitivity_table (base_inputs : gmap string pyval)
           (base_growth : option float) (ranges : gmap string (list pyval))
           (var : string) : result (list rev_row) :=
  base_var_value ← dict_getitem base_inputs var;
  rng ← dict_getitem ranges var;
  comprehension
    (reverse_sensitivity_row float_pow untyped_reverse_dcf base_inputs
      base_growth var
       base_var_value) rng.

End Tables.

(** A base dictionary with no revenue at all: every cash flow and the
    enterprise value are zero. *)
Definition ex_zero_inputs : gmap string pyval :=
  <["initial_revenue" := VInt 0]> ex_base_inputs.

(** A reverse query without a forecast year. *)
Definition ex_query_no_years : reverse_args :=
  ReverseArgs 3 100 0 1024 [0.5]%float 0.25 0.125 0.125 1 0.5 (VInt 0)
    [0; 1; 0.25]%float.

(** The differences of the two candidates of [ex_query_overflow]. *)
Definition ex_overflow_differences : list float :=
  map (fun g => from_ok 0%float
                  (candidate_difference float_pow_model ex_query_overflow g))
      [1; 2]%float.

(** ** The M&A valuation model

    The model of [MA_Valuation_Model.py] covers the constructor and the two
    methods that are plain Python arithmetic, [dcf_valuation] and
    [synergy_value].  The rates [wacc], [growth_rate] and [tax_rate] are
    floats, as in every call and default of the module, and the forecast
    horizon is an int; the entries of the dictionaries are dynamically
    typed. *)

Record ma_model : Type := MAModel {
  target : gmap string pyval;
  comps : list (gmap string pyval);
  synergies : gmap string pyval
}.

(** Lines 5-16: [synergies or {}] replaces [None] by the empty dictionary. *)
Definition MAValuationModel (target_financials : gmap string pyval)
           (comparable_companies : list (gmap string pyval))
           (synergies : option (gmap string pyval)) : ma_model :=
  MAModel target_financials comparable_companies (default ∅ synergies).

(** The dictionary returned by [dcf_valuation]. *)
Record ma_dcf : Type := MADcf {
  ma_enterprise_value : float;
  ma_equity_value : float
}.

(** [x / y] on Python floats: a zero divisor is a [ZeroDivisionError]. *)
Definition py_truediv (x y : float) : result float :=
  if is_zero y then Raise ZeroDivisionError else Ok (x / y)%float.

(** [v + w]: numbers add, with an int promoted to a double next to a float;
    two lists or two tuples are concatenated. *)
Definition py_add (v w : pyval) : result pyval :=
  match v, w with
  | VInt n, VInt m => Ok (VInt (n + m))
  | VFloat x, VFloat y => Ok (VFloat (x + y)%float)
  | VInt n, VFloat y => x ← int_to_float n; Ok (VFloat (x + y)%float)
  | VFloat x, VInt m => y ← int_to_float m; Ok (VFloat (x + y)%float)
  | VList l, VList l' => Ok (VList (l ++ l'))
  | VTuple l, VTuple l' => Ok (VTuple (l ++ l'))
  | _, _ => Raise TypeError
  end.

(** [d.get(k, 0)] *)
Definition dict_get (d : gmap string pyval) (k : string) : pyval :=
  default (VInt 0) (d !! k).

(** [enumerate(l)] *)
Definition py_enumerate {A} (l : list A) : list (Z * A) :=
  zip (map Z.of_nat (seq 0 (length l))) l.

Section MA.

Variable float_pow : float -> Z -> result float.

(** The builtin [sum] on a non-empty list of floats; its rounding depends on
    the interpreter (compensated summation since Python 3.12), it never
    raises. *)
Variable py_sum : list float -> float.

Local Open Scope float_scope.

(** Lines 24-26: one pass of the projection loop on the state
    [(fcf, projected_fcf)]; the first pass promotes an int [fcf]. *)
Definition grow_fcf (growth_rate : float) (st : pyval * list float)
  : result (pyval * list float) :=
  x ← as_float st.1;
  let fcf := x * (1 + growth_rate) in
  Ok (VFloat fcf, st.2 ++ [fcf]).

(** Lines 18-38. *)
Definition dcf_valuation (self : ma_model) (wacc growth_rate : float)
           (forecast_years : Z) : result ma_dcf :=
  fcf ← dict_getitem (target self) "fcf";
  st ← for_each (py_range 0 forecast_years)
         (fun _ => grow_fcf growth_rate) (fcf, []);
  let projected_fcf := st.2 in
  last_fcf ← py_getitem projected_fcf (-1);
  terminal_value ←
    py_truediv (last_fcf * (1 + growth_rate)) (wacc - growth_rate);
  terms ← comprehension
            (fun '(i, cf) =>
               p ← float_pow (1 + wacc) (i + 1)%Z; py_truediv cf p)
            (py_enumerate projected_fcf);
  let pv_fcf := py_sum terms in
  p ← float_pow (1 + wacc) forecast_years;
  pv_terminal ← py_truediv terminal_value p;
  let enterprise_value := pv_fcf + pv_terminal in
  net_debt ← dict_getitem (target self) "net_debt";
  net_debt ← as_float net_debt;
  Ok (MADcf enterprise_value (enterprise_value - net_debt)).

End MA.

(** Lines 74-92: the value is the int [0] without synergies and a float
    otherwise. *)
Definition synergy_value (self : ma_model) (tax_rate wacc : float)
  : result pyval :=
  if bool_decide (synergies self = ∅) then Ok (VInt 0)
  else
    let annual_cost_savings := dict_get (synergies self) "cost_savings" in
    let annual_revenue_synergies :=
      dict_get (synergies self) "revenue_synergies" in
    let implementation_costs :=
      dict_get (synergies self) "implementation_costs" in
    s ← py_add annual_cost_savings annual_revenue_synergies;
    s ← as_float s;
    let after_tax_synergies := (s * (1 - tax_rate))%float in
    pv_synergies ← py_truediv after_tax_synergies wacc;
    c ← as_float implementation_costs;
    Ok (VFloat (pv_synergies - c)%float).

(** The cash flow of forecast year [i + 1]: the base cash flow compounded by
    repeated multiplication. *)
Fixpoint compound (x growth_rate : float) (i : nat) : float :=
  match i with
  | O => (x * (1 + growth_rate))%float
  | S i' => (compound x growth_rate i' * (1 + growth_rate))%float
  end.

(** The example data of the module. *)
Definition target_data : gmap string pyval :=
  list_to_map
    [("fcf", VInt 100); ("ebitda", VInt 120); ("earnings", VInt 80);
     ("revenue", VInt 500); ("net_debt", VInt 200)].

Definition synergies_data : gmap string pyval :=
  list_to_map
    [("cost_savings", VInt 20); ("revenue_synergies", VInt 10);
     ("implementation_costs", VInt 50)].

(** A left-to-right sum from [0.0], for concrete runs. *)
Definition py_sum_model (l : list float) : float :=
  foldl PrimFloat.add 0%float l.

(** A reverse query with a zero step. *)
Definition ex_query_zero_step : reverse_args :=
  ReverseArgs 3 100 0 1024 [0.5]%float 0.25 0.125 0.125 1 0.5 (VInt 2)
    [0; 1; 0]%float.

(** A target with dyadic figures, so that a run at dyadic rates is exact. *)
Definition ex_target : gmap string pyval :=
  list_to_map [("fcf", VInt 64); ("net_debt", VFloat 8)].

(** Two forecast years with series of three entries. *)
Definition ex_long_series : dcf_args :=
  DcfArgs [0.5; 0.25; 4]%float [0.5; 0.25; 8]%float 0.25 0.125 0.125 1 0.5
    1024 2.

(** The reverse dictionary with [min_growth >= max_growth]. *)
Definition ex_reverse_inputs_empty : gmap string pyval :=
  <["iteration_range" := VTuple [0.5; 0; 0.25]%float]> ex_reverse_inputs.

(** * Proofs *)

(** ** The error monad and the primitives *)

Lemma bind_Ok {A B} (f : A -> result B) (x : A) : (Ok x ≫= f) = f x.
Proof. reflexivity. Qed.

Lemma bind_Raise {A B} (f : A -> result B) (e : exn) :
  (Raise e ≫= f) = Raise e.
Proof. reflexivity. Qed.

Lemma norm_index_nat (n : Z) (i : nat) :
  Z.of_nat i < n -> norm_index n (Z.of_nat i) = Ok i.
Proof.
  intros Hi. unfold norm_index.
  destruct (Z.ltb_spec (Z.of_nat i) 0); [lia|].
  destruct (Z.ltb_spec (Z.of_nat i) 0); [lia|].
  destruct (Z.leb_spec n (Z.of_nat i)); [lia|].
  simpl. by rewrite Nat2Z.id.
Qed.

Lemma py_getitem_nat {A} (l : list A) (i : nat) (x : A) :
  l !! i = Some x -> py_getitem l (Z.of_nat i) = Ok x.
Proof.
  intros Hx. unfold py_getitem, py_len.
  rewrite norm_index_nat.
  - simpl. by rewrite Hx.
  - apply lookup_lt_Some in Hx. lia.
Qed.

Lemma np_setitem_nat {A} (l : list A) (i : nat) (v : A) :
  (i < length l)%nat -> np_setitem l (Z.of_nat i) v = Ok (<[i := v]> l).
Proof.
  intros Hi. unfold np_setitem, py_len.
  rewrite norm_index_nat by lia. reflexivity.
Qed.

(** The last element through the index [-1]. *)
Lemma py_getitem_last {A} (l : list A) (x : A) :
  py_getitem (l ++ [x]) (-1) = Ok x.
Proof.
  unfold py_getitem, py_len, norm_index. rewrite length_app. simpl.
  replace (-1 + Z.of_nat (length l + 1)) with (Z.of_nat (length l)) by lia.
  destruct (Z.ltb_spec (Z.of_nat (length l)) 0); [lia|].
  destruct (Z.leb_spec (Z.of_nat (length l + 1)) (Z.of_nat (length l))); [lia|].
  simpl. rewrite Nat2Z.id.
  by rewrite lookup_app_r, Nat.sub_diag by lia.
Qed.

Lemma py_getitem_empty {A} (k : Z) : py_getitem (@nil A) k = Raise IndexError.
Proof.
  unfold py_getitem, py_len, norm_index. simpl. rewrite Z.add_0_r.
  destruct (k <? 0) eqn:E; rewrite ?E; [reflexivity|].
  apply Z.ltb_ge in E. change (length (@nil A)) with O.
  destruct (Z.leb_spec (Z.of_nat 0) k); [reflexivity|lia].
Qed.

(** ** Facts on binary64 comparison *)

Ltac sf_compare_cases :=
  repeat match goal with
  | |- context [Z.compare ?a ?b] => destruct (Z.compare_spec a b); subst
  | H : context [Z.compare ?a ?b] |- _ => destruct (Z.compare_spec a b); subst
  | |- context [PosDef.Pos.compare_cont Eq ?a ?b] =>
      change (PosDef.Pos.compare_cont Eq a b) with (Pos.compare a b);
      destruct (Pos.compare_spec a b); subst
  | H : context [PosDef.Pos.compare_cont Eq ?a ?b] |- _ =>
      change (PosDef.Pos.compare_cont Eq a b) with (Pos.compare a b) in H;
      destruct (Pos.compare_spec a b); subst
  end;
  simpl in *; try congruence; try lia.

Lemma SFltb_irrefl (x : spec_float) : SFltb x x = false.
Proof.
  unfold SFltb. destruct x as [s|s| |s m e]; try destruct s; simpl;
    try reflexivity; sf_compare_cases.
Qed.

Lemma SFltb_trans (x y z : spec_float) :
  SFltb x y = true -> SFltb y z = true -> SFltb x z = true.
Proof.
  unfold SFltb.
  destruct x as [sx|sx| |sx mx ex], y as [sy|sy| |sy my ey],
    z as [sz|sz| |sz mz ez];
    try destruct sx; try destruct sy; try destruct sz; simpl;
    try congruence; sf_compare_cases.
Qed.

Lemma SFleb_ltb_trans (x y z : spec_float) :
  SFleb x y = true -> SFltb y z = true -> SFltb x z = true.
Proof.
  unfold SFltb, SFleb.
  destruct x as [sx|sx| |sx mx ex], y as [sy|sy| |sy my ey],
    z as [sz|sz| |sz mz ez];
    try destruct sx; try destruct sy; try destruct sz; simpl;
    try congruence; sf_compare_cases.
Qed.

Lemma ltb_irrefl (x : float) : (x <? x)%float = false.
Proof. rewrite FloatAxioms.ltb_spec. apply SFltb_irrefl. Qed.

Lemma ltb_trans (x y z : float) :
  (x <? y)%float = true -> (y <? z)%float = true -> (x <? z)%float = true.
Proof. rewrite !FloatAxioms.ltb_spec. apply SFltb_trans. Qed.

Lemma leb_ltb_trans (x y z : float) :
  (x <=? y)%float = true -> (y <? z)%float = true -> (x <? z)%float = true.
Proof.
  rewrite !FloatAxioms.ltb_spec, FloatAxioms.leb_spec. apply SFleb_ltb_trans.
Qed.

(** ** Digits and shifts of the binary64 specification *)

Lemma digits2_pos_bounds (p : positive) :
  2 ^ (Zpos (digits2_pos p) - 1) <= Zpos p < 2 ^ Zpos (digits2_pos p).
Proof.
  induction p as [p IH|p IH|]; cbn [digits2_pos].
  - rewrite Pos2Z.inj_succ.
    replace (Z.succ (Zpos (digits2_pos p)) - 1) with (Zpos (digits2_pos p))
      by lia.
    rewrite Z.pow_succ_r by lia.
    replace (Zpos (digits2_pos p))
      with (Z.succ (Zpos (digits2_pos p) - 1)) at 1 by lia.
    rewrite Z.pow_succ_r by lia. lia.
  - rewrite Pos2Z.inj_succ.
    replace (Z.succ (Zpos (digits2_pos p)) - 1) with (Zpos (digits2_pos p))
      by lia.
    rewrite Z.pow_succ_r by lia.
    replace (Zpos (digits2_pos p))
      with (Z.succ (Zpos (digits2_pos p) - 1)) at 1 by lia.
    rewrite Z.pow_succ_r by lia. lia.
  - simpl. lia.
Qed.

Lemma Zdigits2_bounds (z : Z) :
  0 < z -> 0 < Zdigits2 z /\ 2 ^ (Zdigits2 z - 1) <= z < 2 ^ Zdigits2 z.
Proof.
  destruct z as [|p|p]; try lia. intros _. cbn [Zdigits2].
  split; [lia|apply digits2_pos_bounds].
Qed.

Lemma Zdigits2_unique (z d : Z) :
  2 ^ (d - 1) <= z < 2 ^ d -> 0 < z -> 0 < d -> Zdigits2 z = d.
Proof.
  intros Hd Hz Hd0. destruct (Zdigits2_bounds z Hz) as [HD HB].
  destruct (Z.lt_trichotomy (Zdigits2 z) d) as [Hlt|[Heq|Hgt]]; [|exact Heq|].
  - assert (2 ^ Zdigits2 z <= 2 ^ (d - 1)) by (apply Z.pow_le_mono_r; lia). lia.
  - assert (2 ^ d <= 2 ^ (Zdigits2 z - 1)) by (apply Z.pow_le_mono_r; lia). lia.
Qed.

Lemma Zdigits2_mul_pow2 (z k : Z) :
  0 < z -> 0 <= k -> Zdigits2 (z * 2 ^ k) = Zdigits2 z + k.
Proof.
  intros Hz Hk. destruct (Zdigits2_bounds z Hz) as [HD HB].
  assert (0 < 2 ^ k) by (apply Z.pow_pos_nonneg; lia).
  apply Zdigits2_unique; try nia.
  replace (Zdigits2 z + k - 1) with ((Zdigits2 z - 1) + k) by lia.
  rewrite !Z.pow_add_r by lia. nia.
Qed.

Lemma shr_1_m (mrs : shr_record) :
  0 <= shr_m mrs -> shr_m (shr_1 mrs) = shr_m mrs / 2.
Proof.
  destruct mrs as [m r s]. cbn [shr_m]. intros Hm.
  destruct m as [|[p|p|]|p]; cbn [shr_1 shr_m]; try lia;
    Z.to_euclidean_division_equations; lia.
Qed.

Lemma iter_pos_shr_m (p : positive) :
  forall mrs, 0 <= shr_m mrs ->
    shr_m (SpecFloat.iter_pos shr_1 p mrs) = shr_m mrs / 2 ^ Zpos p.
Proof.
  assert (Hdiv : forall a b, 0 <= a -> 0 < b -> 0 <= a / b)
    by (intros; apply Z.div_pos; lia).
  assert (Hpow : forall q, 0 < 2 ^ Zpos q)
    by (intros; apply Z.pow_pos_nonneg; lia).
  induction p as [p IH|p IH|]; intros mrs Hm; cbn [SpecFloat.iter_pos].
  - rewrite IH, IH, shr_1_m; try done.
    + rewrite !Z.div_div by (try apply Hpow; lia). f_equal.
      replace (Zpos p~1) with (Zpos p + Zpos p + 1) by lia.
      rewrite !Z.pow_add_r by lia. change (2 ^ 1) with 2. lia.
    + rewrite shr_1_m by done. apply Hdiv; lia.
    + rewrite IH by (rewrite shr_1_m by done; apply Hdiv; lia).
      apply Hdiv; [|apply Hpow]. rewrite shr_1_m by done. apply Hdiv; lia.
  - rewrite IH, IH; try done.
    + rewrite Z.div_div by (try apply Hpow; lia). f_equal.
      replace (Zpos p~0) with (Zpos p + Zpos p) by lia.
      rewrite Z.pow_add_r by lia. lia.
    + rewrite IH by done. apply Hdiv; [done|apply Hpow].
  - rewrite shr_1_m by done. reflexivity.
Qed.

Lemma shr_1_even (z : Z) :
  0 < z ->
  shr_1 {| shr_m := 2 * z; shr_r := false; shr_s := false |}
  = {| shr_m := z; shr_r := false; shr_s := false |}.
Proof. destruct z; try lia. reflexivity. Qed.

Lemma iter_pos_shr_exact (p : positive) :
  forall z, 0 < z ->
    SpecFloat.iter_pos shr_1 p
      {| shr_m := z * 2 ^ Zpos p; shr_r := false; shr_s := false |}
    = {| shr_m := z; shr_r := false; shr_s := false |}.
Proof.
  assert (Hpow : forall q, 0 < 2 ^ Zpos q)
    by (intros; apply Z.pow_pos_nonneg; lia).
  induction p as [p IH|p IH|]; intros z Hz; cbn [SpecFloat.iter_pos].
  - replace (z * 2 ^ Zpos p~1) with (2 * (z * 2 ^ Zpos p * 2 ^ Zpos p)).
    2:{ replace (Zpos p~1) with (Zpos p + Zpos p + 1) by lia.
        rewrite !Z.pow_add_r by lia. change (2 ^ 1) with 2. lia. }
    rewrite shr_1_even by (pose proof (Hpow p); nia).
    rewrite IH by (pose proof (Hpow p); nia). apply IH, Hz.
  - replace (z * 2 ^ Zpos p~0) with (z * 2 ^ Zpos p * 2 ^ Zpos p).
    2:{ replace (Zpos p~0) with (Zpos p + Zpos p) by lia.
        rewrite Z.pow_add_r by lia. lia. }
    rewrite IH by (pose proof (Hpow p); nia). apply IH, Hz.
  - change (2 ^ 1) with 2. rewrite Z.mul_comm. apply shr_1_even, Hz.
Qed.

(** ** Valid binary64 values *)

Lemma valid_finite (s : bool) (m : positive) (e : Z) :
  valid_binary (S754_finite s m e) = true ->
  Z.max (Zpos (digits2_pos m) + e - 53) (-1074) = e /\ e <= 971.
Proof.
  unfold SpecFloat.valid_binary, bounded, canonical_mantissa, fexp,
    SpecFloat.emin, prec, emax.
  intros H. apply andb_prop in H as [H1 H2].
  apply Z.eqb_eq in H1. apply Z.leb_le in H2. lia.
Qed.

Lemma fexp_eq (x : Z) : fexp prec emax x = Z.max (x - 53) (-1074).
Proof. reflexivity. Qed.

(** Multiplication by [1.0] is exact. *)
Lemma SF64mul_one (x : spec_float) :
  valid_binary x = true ->
  SF64mul x (S754_finite false 4503599627370496 (-52)) = x.
Proof.
  intros Hv.
  destruct x as [s|s| |s m e]; try (destruct s; reflexivity); try reflexivity.
  apply valid_finite in Hv as [Hc He].
  unfold SF64mul, SFmul, binary_round_aux, shr_fexp.
  rewrite Pos2Z.inj_mul. change (Zpos 4503599627370496) with (2 ^ 52).
  rewrite Zdigits2_mul_pow2 by lia. rewrite fexp_eq. cbn [Zdigits2].
  replace (Z.max (Zpos (digits2_pos m) + 52 + (e + -52) - 53) (-1074)
           - (e + -52)) with 52 by lia.
  cbn [shr shr_record_of_loc].
  rewrite (iter_pos_shr_exact 52 (Zpos m)) by lia.
  cbn [shr_m loc_of_shr_record round_nearest_even Zdigits2].
  rewrite fexp_eq.
  replace (Z.max (Zpos (digits2_pos m) + (e + -52 + 52) - 53) (-1074)
           - (e + -52 + 52)) with 0 by lia.
  cbn [shr shr_record_of_loc shr_m].
  replace (e + -52 + 52) with e by lia.
  unfold emax, prec.
  destruct (Z.leb_spec e (1024 - 53)); [|lia].
  by destruct s.
Qed.

Lemma mul_one (x : float) : (x * 1)%float = x.
Proof.
  apply Prim2SF_inj. rewrite mul_spec.
  change (Prim2SF 1) with (S754_finite false 4503599627370496 (-52)).
  apply SF64mul_one, Prim2SF_valid.
Qed.

(** ** Classification of binary64 values *)

Lemma is_nan_spec (x : float) :
  is_nan x = match Prim2SF x with S754_nan => true | _ => false end.
Proof.
  unfold is_nan. rewrite FloatAxioms.eqb_spec. unfold SFeqb.
  destruct (Prim2SF x) as [s|s| |s m e]; try destruct s; try reflexivity.
  all: cbn [SFcompare]; rewrite Z.compare_refl;
    change (PosDef.Pos.compare_cont Eq m m) with (Pos.compare m m);
    by rewrite Pos.compare_refl.
Qed.

Lemma is_infinity_spec (x : float) :
  is_infinity x = match Prim2SF x with S754_infinity _ => true | _ => false end.
Proof.
  unfold is_infinity. rewrite FloatAxioms.eqb_spec, abs_spec.
  change (Prim2SF infinity) with (S754_infinity false).
  destruct (Prim2SF x) as [s|s| |s m e]; try destruct s; reflexivity.
Qed.

Lemma is_zero_spec (x : float) :
  is_zero x = match Prim2SF x with S754_zero _ => true | _ => false end.
Proof.
  unfold is_zero. rewrite FloatAxioms.eqb_spec.
  change (Prim2SF zero) with (S754_zero false).
  destruct (Prim2SF x) as [s|s| |s m e]; try destruct s; reflexivity.
Qed.

Lemma finite_nonzero (x : float) :
  is_finite x = true -> is_zero x = false ->
  exists s m e, Prim2SF x = S754_finite s m e.
Proof.
  unfold is_finite. rewrite is_nan_spec, is_infinity_spec, is_zero_spec.
  destruct (Prim2SF x) as [s|s| |s m e]; simpl; try discriminate.
  intros _ _. by exists s, m, e.
Qed.

(** A finite non-zero value has a zero relative change to itself. *)
Lemma relative_change_self (x : float) :
  is_finite x = true -> is_zero x = false ->
  is_zero ((x - x) / x) = true.
Proof.
  intros Hf Hz. destruct (finite_nonzero x Hf Hz) as (s & m & e & Hx).
  rewrite is_zero_spec, div_spec, sub_spec, Hx.
  unfold SF64sub, SFsub. rewrite Z.sub_diag. reflexivity.
Qed.

(** Equal operands have a zero or undefined difference, and a quotient by
    it is never finite. *)
Lemma SFsub_equal (x y : spec_float) :
  SFeqb x y = true ->
  match SF64sub x y with S754_zero _ | S754_nan => True | _ => False end.
Proof.
  unfold SFeqb, SF64sub, SFsub.
  destruct x as [sx|sx| |sx mx ex], y as [sy|sy| |sy my ey];
    try destruct sx; try destruct sy; simpl; try discriminate; try done.
  all: destruct (Z.compare_spec ex ey); try discriminate; subst;
    change (PosDef.Pos.compare_cont Eq mx my) with (Pos.compare mx my);
    destruct (Pos.compare_spec mx my); try discriminate; subst;
    intros _; rewrite Z.sub_diag; exact I.
Qed.

Lemma div_by_equal_difference (num d tg : float) :
  (d =? tg)%float = true -> is_finite (num / (d - tg)) = false.
Proof.
  rewrite FloatAxioms.eqb_spec. intros Heq. apply SFsub_equal in Heq.
  unfold is_finite. rewrite is_nan_spec, is_infinity_spec, div_spec, sub_spec.
  destruct (SF64sub (Prim2SF d) (Prim2SF tg)) as [s|s| |s m e]; try done;
    destruct (Prim2SF num) as [s'|s'| |s' m' e']; reflexivity.
Qed.

(** ** Rounding never turns a non-zero integer into zero *)

Definition SFnumber_nonzero (x : spec_float) : Prop :=
  match x with
  | S754_finite _ _ _ | S754_infinity _ => True
  | _ => False
  end.

Lemma shr_record_of_loc_m (m : Z) (l : location) :
  shr_m (shr_record_of_loc m l) = m.
Proof. by destruct l as [|[]]. Qed.

Lemma shr_fexp_pos (m e : Z) (l : location) :
  0 < m -> -1074 <= e ->
  0 < shr_m (shr_fexp prec emax m e l).1 /\
  -1074 <= (shr_fexp prec emax m e l).2.
Proof.
  intros Hm He. unfold shr_fexp, shr. rewrite fexp_eq.
  destruct (Zdigits2_bounds m Hm) as [HD HB].
  destruct (Z.max (Zdigits2 m + e - 53) (-1074) - e) as [|p|p] eqn:Hn;
    cbn [fst snd]; rewrite ?shr_record_of_loc_m; try (split; lia).
  rewrite iter_pos_shr_m by (rewrite shr_record_of_loc_m; lia).
  rewrite shr_record_of_loc_m. split; [|lia].
  apply Z.div_str_pos. split; [apply Z.pow_pos_nonneg; lia|].
  transitivity (2 ^ (Zdigits2 m - 1)); [|lia].
  apply Z.pow_le_mono_r; lia.
Qed.

Lemma round_nearest_even_pos (m : Z) (l : location) :
  0 < m -> 0 < round_nearest_even m l.
Proof.
  intros Hm. destruct l as [|[]]; cbn [round_nearest_even]; try lia.
  destruct (Z.even m); lia.
Qed.

Lemma binary_round_aux_nonzero (s : bool) (m e : Z) (l : location) :
  0 < m -> -1074 <= e -> SFnumber_nonzero (binary_round_aux prec emax s m e l).
Proof.
  intros Hm He. unfold binary_round_aux.
  destruct (shr_fexp_pos m e l Hm He) as [H1 H2].
  destruct (shr_fexp prec emax m e l) as [mrs' e']. cbn [fst snd] in H1, H2.
  pose proof (round_nearest_even_pos _ (loc_of_shr_record mrs') H1) as Hr.
  destruct (shr_fexp_pos _ e' loc_Exact Hr H2) as [H3 _].
  destruct (shr_fexp prec emax _ e' loc_Exact) as [mrs'' e''].
  cbn [fst] in H3. destruct (shr_m mrs''); try lia.
  by destruct (_ <=? _).
Qed.

Lemma Pos_iter_xO (m d : positive) :
  Zpos (Pos.iter xO m d) = Zpos m * 2 ^ Zpos d.
Proof.
  induction d as [|d IH] using Pos.peano_ind.
  - simpl. lia.
  - rewrite Pos.iter_succ, Pos2Z.inj_xO, IH, Pos2Z.inj_succ.
    rewrite Z.pow_succ_r by lia. lia.
Qed.

Lemma shl_align_value (m : positive) (e e' : Z) :
  e' <= e -> Zpos (shl_align m e e').1 = Zpos m * 2 ^ (e - e').
Proof.
  intros He. unfold shl_align.
  destruct (e' - e) as [|d|d] eqn:Hd; cbn [fst]; try lia.
  - replace (e - e') with 0 by lia. lia.
  - rewrite Pos_iter_xO. f_equal. f_equal. lia.
Qed.

Lemma shl_align_exponent (m : positive) (e e' : Z) :
  -1074 <= e -> -1074 <= e' -> -1074 <= (shl_align m e e').2.
Proof.
  intros He He'. unfold shl_align. by destruct (e' - e).
Qed.

Lemma binary_normalize_nonzero (z e : Z) :
  z <> 0 -> -1074 <= e ->
  SFnumber_nonzero (binary_normalize prec emax z e false).
Proof.
  intros Hz He.
  assert (Hround : forall s m,
    SFnumber_nonzero (binary_round prec emax s m e)).
  { intros s m. unfold binary_round.
    pose proof (shl_align_exponent m e
                  (fexp prec emax (Zpos (digits2_pos m) + e)) He) as Ha.
    destruct (shl_align m e _) as [mz ez]. cbn [snd] in Ha.
    apply binary_round_aux_nonzero; [lia|]. apply Ha.
    rewrite fexp_eq. lia. }
  destruct z; [done| |]; apply Hround.
Qed.

(** A strictly larger value minus a smaller one is a non-zero number. *)
Lemma SFsub_lt_nonzero (x y : spec_float) :
  valid_binary x = true -> valid_binary y = true ->
  SFltb y x = true -> SFnumber_nonzero (SF64sub x y).
Proof.
  intros Hx Hy. unfold SFltb, SF64sub, SFsub.
  destruct x as [sx|sx| |sx mx ex], y as [sy|sy| |sy my ey];
    try destruct sx; try destruct sy; cbn [SFcompare];
    try discriminate; try done.
  all: apply valid_finite in Hx as [Hcx Hex];
    apply valid_finite in Hy as [Hcy Hey]; intros Hlt;
    (apply binary_normalize_nonzero; [|lia]);
    rewrite !shl_align_value by lia; cbn [cond_Zopp];
    assert (0 < 2 ^ (ex - Z.min ex ey)) by (apply Z.pow_pos_nonneg; lia);
    assert (0 < 2 ^ (ey - Z.min ex ey)) by (apply Z.pow_pos_nonneg; lia);
    try nia.
  all: intros Heq;
    assert (Hm : Zpos mx * 2 ^ (ex - Z.min ex ey)
                 = Zpos my * 2 ^ (ey - Z.min ex ey)) by lia;
    clear Heq;
    destruct (Z.compare_spec ey ex) as [He|He|He]; try discriminate.
  all: try (subst ey; rewrite Z.min_id, Z.sub_diag in Hm;
            change (PosDef.Pos.compare_cont Eq my mx)
              with (Pos.compare my mx) in Hlt;
            assert (mx = my) by lia; subst my;
            rewrite Pos.compare_refl in Hlt; discriminate).
  all: exfalso.
  all: try (rewrite Z.min_r, Z.sub_diag in Hm by lia;
            pose proof (Zdigits2_mul_pow2 (Zpos mx) (ex - ey)) as HD;
            rewrite Hm in HD; cbn [Zdigits2] in HD;
            change (2 ^ 0) with 1 in HD; rewrite Z.mul_1_r in HD;
            cbn [Zdigits2] in HD; lia).
  all: try (rewrite Z.min_l, Z.sub_diag in Hm by lia;
            pose proof (Zdigits2_mul_pow2 (Zpos my) (ey - ex)) as HD;
            rewrite <- Hm in HD; cbn [Zdigits2] in HD;
            change (2 ^ 0) with 1 in HD; rewrite Z.mul_1_r in HD;
            cbn [Zdigits2] in HD; lia).
Qed.

Lemma sub_lt_nonzero (x y : float) :
  (y <? x)%float = true ->
  is_zero (x - y) = false /\ is_nan (x - y) = false.
Proof.
  rewrite FloatAxioms.ltb_spec. intros Hlt.
  apply SFsub_lt_nonzero in Hlt; try apply Prim2SF_valid.
  rewrite is_zero_spec, is_nan_spec, sub_spec.
  by destruct (SF64sub _ _).
Qed.

(** ** Sums never produce a negative zero from a positive one *)

Lemma SFadd_not_negzero (x y : spec_float) :
  valid_binary x = true -> valid_binary y = true ->
  x <> S754_zero true -> SF64add x y <> S754_zero true.
Proof.
  intros Hx Hy Hnz. unfold SF64add, SFadd.
  destruct x as [sx|sx| |sx mx ex], y as [sy|sy| |sy my ey];
    try destruct sx; try destruct sy; try done.
  all: apply valid_finite in Hx as [Hcx Hex];
    apply valid_finite in Hy as [Hcy Hey];
    match goal with
    | |- binary_normalize _ _ ?z ?e _ <> _ =>
        destruct (decide (z = 0)) as [->|Hz];
        [done|pose proof (binary_normalize_nonzero z e Hz ltac:(lia)) as Hn;
              by destruct (binary_normalize _ _ z e false)]
    end.
Qed.

Lemma add_not_negzero (x y : float) :
  Prim2SF x <> S754_zero true -> Prim2SF (x + y) <> S754_zero true.
Proof.
  intros Hx. rewrite add_spec.
  apply SFadd_not_negzero; [apply Prim2SF_valid..|exact Hx].
Qed.

Lemma foldl_add_not_negzero (l : list float) (acc : float) :
  Prim2SF acc <> S754_zero true ->
  Prim2SF (foldl PrimFloat.add acc l) <> S754_zero true.
Proof.
  revert acc. induction l as [|x l IH]; intros acc Hacc; [exact Hacc|].
  cbn [foldl]. by apply IH, add_not_negzero.
Qed.

Lemma add_zero_l (x : float) :
  Prim2SF x <> S754_zero true -> (0 + x)%float = x.
Proof.
  intros Hx. apply Prim2SF_inj. rewrite add_spec.
  change (Prim2SF 0) with (S754_zero false).
  destruct (Prim2SF x) as [[]| | |]; done.
Qed.


(** ** Tabulated series *)

Lemma length_tabulate {A} (f : nat -> A) (n : nat) : length (tabulate f n) = n.
Proof. unfold tabulate. by rewrite length_map, length_seq. Qed.

Lemma tabulate_S {A} (f : nat -> A) (n : nat) :
  tabulate f (S n) = tabulate f n ++ [f n].
Proof. unfold tabulate. by rewrite seq_S, map_app. Qed.

Lemma lookup_tabulate {A} (f : nat -> A) (n i : nat) :
  (i < n)%nat -> tabulate f n !! i = Some (f i).
Proof.
  induction n as [|n IH]; [lia|]. intros Hi. rewrite tabulate_S.
  destruct (decide (i = n)) as [->|Hne].
  - rewrite lookup_app_r by (rewrite length_tabulate; lia).
    by rewrite length_tabulate, Nat.sub_diag.
  - rewrite lookup_app_l by (rewrite length_tabulate; lia). apply IH. lia.
Qed.

Lemma map_tabulate {A B} (g : A -> B) (f : nat -> A) (n : nat) :
  map g (tabulate f n) = tabulate (fun i => g (f i)) n.
Proof. unfold tabulate. by rewrite map_map. Qed.

Lemma zip_with_tabulate {A B C} (op : A -> B -> C) (f : nat -> A)
      (g : nat -> B) (n : nat) :
  zip_with op (tabulate f n) (tabulate g n)
  = tabulate (fun i => op (f i) (g i)) n.
Proof.
  induction n as [|n IH]; [reflexivity|].
  rewrite !tabulate_S, zip_with_app by (by rewrite !length_tabulate).
  by rewrite IH.
Qed.

Lemma np_diff_snoc (l : list float) (x y : float) :
  np_diff (l ++ [x; y]) = np_diff (l ++ [x]) ++ [(y - x)%float].
Proof.
  induction l as [|z l IH]; [reflexivity|].
  destruct l as [|w l]; [reflexivity|].
  change (np_diff ((z :: w :: l) ++ [x; y]))
    with ((w - z)%float :: np_diff ((w :: l) ++ [x; y])).
  rewrite IH. reflexivity.
Qed.

Lemma np_diff_tabulate (f : nat -> float) (n : nat) :
  np_diff (tabulate f (S n)) = tabulate (fun i => (f (S i) - f i)%float) n.
Proof.
  induction n as [|n IH]; [reflexivity|].
  rewrite (tabulate_S f (S n)), (tabulate_S f n), <- app_assoc.
  change ([f n] ++ [f (S n)]) with [f n; f (S n)].
  rewrite np_diff_snoc, <- (tabulate_S f n), IH.
  symmetry. apply (tabulate_S (fun i => (f (S i) - f i)%float)).
Qed.

Lemma insert_tabulate_boundary {A} (f : nat -> A) (k : nat) (x : A)
      (tl : list A) :
  <[k := f k]> (tabulate f k ++ x :: tl) = tabulate f (S k) ++ tl.
Proof.
  rewrite insert_app_r_alt by (rewrite length_tabulate; lia).
  rewrite length_tabulate, Nat.sub_diag, tabulate_S, <- app_assoc. reflexivity.
Qed.

(** ** Array-filling loops *)

(** A loop whose iteration for position [k] finds the positions below [k]
    filled with the series [f] and fills position [k]. *)
Lemma for_each_fill (g : nat -> Z) (f : nat -> float)
      (body : Z -> list float -> result (list float)) (m : nat) :
  forall (j : nat) (tl : list float),
    length tl = m ->
    (forall (k : nat) (x : float) (tl' : list float),
        (j <= k < j + m)%nat -> length tl' = (j + m - k - 1)%nat ->
        body (g k) (tabulate f k ++ x :: tl') = Ok (tabulate f (S k) ++ tl')) ->
    for_each (map g (seq j m)) body (tabulate f j ++ tl)
    = Ok (tabulate f (j + m)).
Proof.
  induction m as [|m IH]; intros j tl Hlen Hbody.
  - destruct tl; [|done]. simpl. by rewrite app_nil_r, Nat.add_0_r.
  - destruct tl as [|x tl]; [done|]. cbn [seq map for_each].
    rewrite Hbody by (simpl in *; lia). rewrite bind_Ok.
    rewrite IH.
    + f_equal. f_equal. lia.
    + simpl in Hlen. lia.
    + intros k y tl' Hk Hl. apply Hbody; lia.
Qed.

Lemma map_seq_reindex {A} (h g : nat -> A) (j m : nat) :
  (forall i, g (j + i)%nat = h i) ->
  forall s, map h (seq s m) = map g (seq (j + s) m).
Proof.
  intros Hg. induction m as [|m IH]; intros s; [reflexivity|].
  cbn [seq map]. rewrite Hg. f_equal.
  rewrite IH. by rewrite Nat.add_succ_r.
Qed.

Lemma py_range_positions (g : nat -> Z) (j : nat) (lo hi : Z) :
  (forall i, g (j + i)%nat = lo + Z.of_nat i) ->
  py_range lo hi = map g (seq j (Z.to_nat (hi - lo))).
Proof.
  intros Hg. unfold py_range.
  rewrite (map_seq_reindex _ g j) by done. by rewrite Nat.add_0_r.
Qed.

(** ** C1: the projection loops compute the reference series *)

Section Projection_proofs.

Variable a : dcf_args.
Let n := Z.to_nat (years a).

Hypothesis Hyears : 1 <= years a.

Lemma clamped_getitem (l : list float) (k : nat) :
  l <> [] ->
  py_getitem l (Z.min (Z.of_nat k) (py_len l - 1))
  = Ok (nth (clamp l k) l 0%float).
Proof.
  intros Hne. unfold py_len, clamp.
  assert (0 < length l)%nat by (destruct l; [done|simpl; lia]).
  replace (Z.min (Z.of_nat k) (Z.of_nat (length l) - 1))
    with (Z.of_nat (Nat.min k (length l - 1))) by lia.
  apply py_getitem_nat.
  destruct (lookup_lt_is_Some_2 l (Nat.min k (length l - 1))) as [x Hx];
    [lia|].
  rewrite Hx. f_equal. rewrite nth_lookup, Hx. reflexivity.
Qed.

Lemma np_zeros_years : np_zeros (years a) = Ok (replicate n 0%float).
Proof.
  unfold np_zeros. destruct (Z.ltb_spec (years a) 0); [lia|reflexivity].
Qed.

Lemma project_revenues_series :
  revenue_growth_rates a <> [] ->
  project_revenues a (replicate n 0%float) = Ok (tabulate (ref_revenue a) n).
Proof.
  intros Hg. unfold project_revenues.
  assert (H0 : py_getitem (revenue_growth_rates a) 0 = Ok (growth_at a 0)).
  { pose proof (clamped_getitem (revenue_growth_rates a) 0 Hg) as H0.
    change (Z.of_nat 0) with 0 in H0. rewrite Z.min_l in H0; [exact H0|].
    unfold py_len. destruct (revenue_growth_rates a); [done|simpl; lia]. }
  rewrite H0, bind_Ok.
  assert (Hn : n = S (n - 1)) by (unfold n; lia).
  rewrite Hn at 1. cbn [replicate].
  rewrite (np_setitem_nat _ 0) by (simpl; lia). rewrite bind_Ok.
  cbn [insert list_insert].
  rewrite (py_range_positions Z.of_nat 1) by (intros; lia).
  replace (Z.to_nat (years a - 1)) with (n - 1)%nat by (unfold n; lia).
  change (?x :: replicate (n - 1) 0%float)
    with (tabulate (ref_revenue a) 1 ++ replicate (n - 1) 0%float).
  rewrite (for_each_fill Z.of_nat (ref_revenue a)).
  - f_equal. f_equal. lia.
  - by rewrite length_replicate.
  - intros k x tl Hk Hl. destruct k as [|k]; [lia|].
    replace (Z.of_nat (S k) - 1) with (Z.of_nat k) by lia.
    rewrite (py_getitem_nat _ k (ref_revenue a k)).
    2:{ rewrite lookup_app_l by (rewrite length_tabulate; lia).
        apply lookup_tabulate. lia. }
    rewrite bind_Ok, (clamped_getitem _ (S k) Hg), bind_Ok.
    rewrite np_setitem_nat.
    2:{ rewrite length_app, length_tabulate. simpl. lia. }
    f_equal. apply (insert_tabulate_boundary (ref_revenue a) (S k)).
Qed.

Lemma project_ebit_series :
  ebit_margins a <> [] ->
  project_ebit a (tabulate (ref_revenue a) n) (replicate n 0%float)
  = Ok (tabulate (ref_ebit a) n).
Proof.
  intros Hm. unfold project_ebit.
  rewrite (py_range_positions Z.of_nat 0) by (intros; lia).
  replace (Z.to_nat (years a - 0)) with n by (unfold n; lia).
  change (replicate n 0%float)
    with (tabulate (ref_ebit a) 0 ++ replicate n 0%float).
  rewrite (for_each_fill Z.of_nat (ref_ebit a)).
  - reflexivity.
  - by rewrite length_replicate.
  - intros k x tl Hk Hl.
    rewrite (py_getitem_nat _ k (ref_revenue a k))
      by (apply lookup_tabulate; lia).
    rewrite bind_Ok, (clamped_getitem _ k Hm), bind_Ok.
    rewrite np_setitem_nat.
    2:{ rewrite length_app, length_tabulate. simpl. lia. }
    f_equal. apply (insert_tabulate_boundary (ref_ebit a) k).
Qed.

Lemma project_nwc_series :
  project_nwc a (tabulate (ref_revenue a) n) (replicate (S n) 0%float)
  = Ok (tabulate (ref_nwc_level a) (S n)).
Proof.
  unfold project_nwc. cbn [replicate].
  rewrite (np_setitem_nat _ 0) by (simpl; lia). rewrite bind_Ok.
  cbn [insert list_insert].
  rewrite (py_range_positions (fun k => Z.of_nat k - 1) 1) by (intros; lia).
  replace (Z.to_nat (years a - 0)) with n by (unfold n; lia).
  change (?x :: replicate n 0%float)
    with (tabulate (ref_nwc_level a) 1 ++ replicate n 0%float).
  rewrite (for_each_fill (fun k => Z.of_nat k - 1) (ref_nwc_level a)).
  - reflexivity.
  - by rewrite length_replicate.
  - intros k x tl Hk Hl. destruct k as [|k]; [lia|].
    replace (Z.of_nat (S k) - 1) with (Z.of_nat k) by lia.
    rewrite (py_getitem_nat _ k (ref_revenue a k))
      by (apply lookup_tabulate; lia).
    rewrite bind_Ok.
    replace (Z.of_nat k + 1) with (Z.of_nat (S k)) by lia.
    rewrite np_setitem_nat.
    2:{ rewrite length_app, length_tabulate. simpl. lia. }
    f_equal. apply (insert_tabulate_boundary (ref_nwc_level a) (S k)).
Qed.

(** The whole projection phase, as one equation. *)
Lemma project_series :
  revenue_growth_rates a <> [] -> ebit_margins a <> [] ->
  project a = Ok (ref_projection a).
Proof.
  intros Hg Hm. unfold project, ref_projection. fold n.
  rewrite np_zeros_years, !bind_Ok.
  assert (Hz : np_zeros (years a + 1) = Ok (replicate (S n) 0%float)).
  { unfold np_zeros. destruct (Z.ltb_spec (years a + 1) 0); [lia|].
    f_equal. f_equal. unfold n. lia. }
  rewrite Hz, !bind_Ok.
  rewrite (project_revenues_series Hg), bind_Ok.
  rewrite (project_ebit_series Hm), bind_Ok.
  rewrite project_nwc_series, bind_Ok.
  unfold np_zip.
  rewrite np_diff_tabulate, !map_tabulate, !zip_with_tabulate.
  reflexivity.
Qed.

End Projection_proofs.

(** C1: with at least one forecast year and non-empty growth and margin
    series, the projection returns arrays of length [years] that are the
    reference series of section 4.1: revenue compounds the clamped growth
    rate, EBIT applies the clamped margin, NOPAT removes tax, the working
    capital change is the first difference of the [years + 1] levels, capex is
    a share of revenue and free cash flow is NOPAT less the working capital
    change less capex.  These arrays are the columns of the summary whenever
    [calculate_dcf] returns. *)
Theorem C1_project_reference (a : dcf_args) :
  1 <= years a -> revenue_growth_rates a <> [] -> ebit_margins a <> [] ->
  exists p : projection,
    project a = Ok p /\
    let n := Z.to_nat (years a) in
    Forall (fun col => length col = n)
      [p_revenues p; p_ebit p; p_nopat p; p_nwc_changes p; p_capex p;
       p_fcf p] /\
    p_revenues p = tabulate (ref_revenue a) n /\
    p_ebit p = tabulate (ref_ebit a) n /\
    p_nopat p = tabulate (ref_nopat a) n /\
    p_nwc p = tabulate (ref_nwc_level a) (S n) /\
    p_nwc_changes p = tabulate (ref_nwc_change a) n /\
    p_capex p = tabulate (ref_capex a) n /\
    p_fcf p = tabulate (ref_fcf a) n /\
    forall (float_pow : float -> Z -> result float) (r : dcf_result),
      calculate_dcf float_pow a = Ok r ->
      Revenue (summary r) = p_revenues p /\ EBIT (summary r) = p_ebit p /\
      NOPAT (summary r) = p_nopat p /\
      NWC_Change (summary r) = p_nwc_changes p /\
      CAPEX (summary r) = p_capex p /\ FCF (summary r) = p_fcf p.
Proof.
  intros Hy Hg Hm. exists (ref_projection a).
  split; [apply (project_series a Hy Hg Hm)|].
  split; [repeat constructor; apply length_tabulate|].
  do 7 (split; [reflexivity|]).
  intros float_pow r. unfold calculate_dcf.
  rewrite (project_series a Hy Hg Hm), bind_Ok.
  destruct (value float_pow a _) as [v|e]; [|discriminate].
  rewrite bind_Ok. intros [= <-]. repeat split.
Qed.

(** ** C2: terminal value, discounting and enterprise value *)

Lemma pairwise_sum_short (fuel : nat) (l : list float) :
  (length l < 8)%nat -> pairwise_sum fuel l = foldl PrimFloat.add 0%float l.
Proof.
  intros Hl. apply Nat.ltb_lt in Hl. destruct fuel; cbn [pairwise_sum];
    by rewrite Hl.
Qed.

(** A sum of fewer than eight terms is taken in index order. *)
Lemma np_sum_short (l : list float) :
  (length l < 8)%nat -> np_sum l = foldl PrimFloat.add 0%float l.
Proof.
  intros Hl. unfold np_sum. rewrite pairwise_sum_short by exact Hl.
  apply add_zero_l, foldl_add_not_negzero. done.
Qed.

Lemma comprehension_map_seq {A B} (f : A -> result B) (g : nat -> A)
      (h : nat -> B) (m : nat) :
  forall s,
    (forall i, (s <= i < s + m)%nat -> f (g i) = Ok (h i)) ->
    comprehension f (map g (seq s m)) = Ok (map h (seq s m)).
Proof.
  induction m as [|m IH]; intros s Hf; [reflexivity|].
  cbn [seq map comprehension].
  rewrite Hf by lia. rewrite bind_Ok, IH by (intros; apply Hf; lia).
  reflexivity.
Qed.

Lemma py_getitem_tabulate_last {A} (f : nat -> A) (n : nat) :
  py_getitem (tabulate f (S n)) (-1) = Ok (f n).
Proof. rewrite tabulate_S. apply py_getitem_last. Qed.

Section Valuation_proofs.

Variable float_pow : float -> Z -> result float.
Variable a : dcf_args.
Variable pw : Z -> float.
Let n := Z.to_nat (years a).

Hypothesis Hyears : 1 <= years a.
Hypothesis Hpow : forall i : Z, 1 <= i <= years a ->
  float_pow (1 + discount_rate a)%float (- i) = Ok (pw i).

Local Open Scope float_scope.

Lemma discount_factors_series :
  comprehension (fun i => float_pow (1 + discount_rate a) (- i)%Z)
    (py_range 1 (years a + 1))
  = Ok (tabulate (fun i => pw (Z.of_nat i + 1)) n).
Proof.
  unfold py_range, tabulate.
  replace (Z.to_nat (years a + 1 - 1)) with n by (unfold n; lia).
  apply comprehension_map_seq. intros i Hi.
  rewrite Hpow by (unfold n in Hi; lia). f_equal. f_equal. lia.
Qed.

Lemma value_series (fcf : nat -> float) :
  value float_pow a (tabulate fcf n) = Ok (ref_valuation a pw fcf).
Proof.
  unfold value, ref_valuation. fold n. rewrite discount_factors_series.
  assert (Hlast : forall f : nat -> float,
             py_getitem (tabulate f n) (-1) = Ok (f (n - 1)%nat)).
  { intros f. replace n with (S (n - 1)) at 1 by (unfold n; lia).
    apply py_getitem_tabulate_last. }
  rewrite Hlast, !bind_Ok. cbn beta. rewrite Hlast, bind_Ok.
  unfold np_zip. rewrite zip_with_tabulate. cbn zeta.
  replace (Z.of_nat (n - 1) + 1)%Z with (years a) by (unfold n; lia).
  reflexivity.
Qed.

(** The whole of [calculate_dcf], as one equation. *)
Lemma calculate_dcf_series :
  revenue_growth_rates a <> [] -> ebit_margins a <> [] ->
  calculate_dcf float_pow a
  = Ok (dcf_return (ref_projection a) (ref_valuation a pw (ref_fcf a))).
Proof.
  intros Hg Hm. unfold calculate_dcf.
  rewrite (project_series a Hyears Hg Hm), bind_Ok.
  change (p_fcf (ref_projection a)) with (tabulate (ref_fcf a) n).
  rewrite value_series. reflexivity.
Qed.

End Valuation_proofs.

(** C2 (as the code has it): for inputs with at least one forecast year and
    non-empty series on which the power [(1 + discount_rate) ** -i] returns a
    value [pw i] for every [i = 1..years], [calculate_dcf] returns; its
    terminal value is [fcf[years-1] * (1 + terminal_growth_rate) /
    (discount_rate - terminal_growth_rate)], the discount factor of year [i]
    is [pw (i + 1)], each present value is the cash flow times its factor,
    the terminal value is discounted with the last factor, and the
    enterprise value is [np.sum] of the present values plus the discounted
    terminal value; below eight forecast years that sum runs left to right
    over the year index. *)
Theorem C2_value_equations (float_pow : float -> Z -> result float)
        (a : dcf_args) (pw : Z -> float) :
  1 <= years a -> revenue_growth_rates a <> [] -> ebit_margins a <> [] ->
  (forall i : Z, 1 <= i <= years a ->
     float_pow (1 + discount_rate a)%float (- i) = Ok (pw i)) ->
  exists (p : projection) (v : valuation),
    project a = Ok p /\ value float_pow a (p_fcf p) = Ok v /\
    calculate_dcf float_pow a = Ok (dcf_return p v) /\
    let n := Z.to_nat (years a) in
    let fcf := ref_fcf a in
    p_fcf p = tabulate fcf n /\
    v_terminal_value v
    = (fcf (n - 1)%nat * (1 + terminal_growth_rate a)
       / (discount_rate a - terminal_growth_rate a))%float /\
    v_discount_factors v = tabulate (fun i => pw (Z.of_nat i + 1)) n /\
    v_pv_fcf v
    = tabulate (fun i => PrimFloat.mul (fcf i) (pw (Z.of_nat i + 1))) n /\
    v_pv_terminal_value v = (v_terminal_value v * pw (years a))%float /\
    v_enterprise_value v
    = (np_sum (v_pv_fcf v) + v_pv_terminal_value v)%float /\
    (years a < 8 ->
     np_sum (v_pv_fcf v) = foldl PrimFloat.add 0%float (v_pv_fcf v)).
Proof.
  intros Hy Hg Hm Hpow.
  exists (ref_projection a), (ref_valuation a pw (ref_fcf a)).
  split; [apply (project_series a Hy Hg Hm)|].
  split; [apply (value_series float_pow a pw Hy Hpow)|].
  split; [apply (calculate_dcf_series float_pow a pw Hy Hpow Hg Hm)|].
  unfold ref_projection, ref_valuation.
  cbn [p_fcf v_terminal_value v_discount_factors v_pv_fcf
       v_pv_terminal_value v_enterprise_value].
  do 6 (split; [reflexivity|]).
  intros H8. apply np_sum_short. rewrite length_tabulate. lia.
Qed.

(** ** C3: no guard on the terminal-value denominator *)

(** C3 (as the code has it): [calculate_dcf] has no check of the discount rate
    against the terminal growth rate and never raises on their account.
    Whenever the projection and the discount factors are defined it returns,
    whatever the order of the two rates, with the terminal value [fcf[years-1]
    * (1 + terminal_growth_rate) / (discount_rate - terminal_growth_rate)];
    when the two rates are equal the division is carried out and its result is
    an infinity or a NaN. *)
Theorem C3_no_divergence_guard (float_pow : float -> Z -> result float)
        (a : dcf_args) (pw : Z -> float) :
  1 <= years a -> revenue_growth_rates a <> [] -> ebit_margins a <> [] ->
  (forall i : Z, 1 <= i <= years a ->
     float_pow (1 + discount_rate a)%float (- i) = Ok (pw i)) ->
  exists r : dcf_result,
    calculate_dcf float_pow a = Ok r /\
    terminal_value r
    = (ref_fcf a (Z.to_nat (years a) - 1) * (1 + terminal_growth_rate a)
       / (discount_rate a - terminal_growth_rate a))%float /\
    ((discount_rate a =? terminal_growth_rate a)%float = true ->
     is_finite (terminal_value r) = false).
Proof.
  intros Hy Hg Hm Hpow. eexists.
  split; [apply (calculate_dcf_series float_pow a pw Hy Hpow Hg Hm)|].
  cbn [dcf_return terminal_value ref_valuation v_terminal_value].
  split; [reflexivity|].
  intros Heq. by apply div_by_equal_difference.
Qed.

(** ** C5: an empty candidate grid *)

(** C5 (as the code has it): when the candidate grid is empty, [reverse_dcf]
    raises nothing and returns [None]. *)
Theorem C5_empty_grid_returns_None (float_pow : float -> Z -> result float)
        (q : reverse_args) :
  growth_grid q = Ok [] -> reverse_dcf float_pow q = Ok None.
Proof.
  intros Hgrid. unfold reverse_dcf. rewrite Hgrid. reflexivity.
Qed.

(** ** C6: invalid inputs *)

Lemma np_zeros_negative (n : Z) : n < 0 -> np_zeros n = Raise ValueError.
Proof.
  intros Hn. unfold np_zeros. destruct (Z.ltb_spec n 0); [reflexivity|lia].
Qed.

Lemma np_zeros_nonneg (n : Z) :
  0 <= n -> np_zeros n = Ok (replicate (Z.to_nat n) 0%float).
Proof.
  intros Hn. unfold np_zeros. destruct (Z.ltb_spec n 0); [lia|reflexivity].
Qed.

Lemma project_negative_years (a : dcf_args) :
  years a < 0 -> project a = Raise ValueError.
Proof.
  intros Hy. unfold project. by rewrite np_zeros_negative.
Qed.

Lemma project_empty_growth (a : dcf_args) :
  0 <= years a -> revenue_growth_rates a = [] -> project a = Raise IndexError.
Proof.
  intros Hy Hg. unfold project.
  rewrite !np_zeros_nonneg, !bind_Ok by lia.
  unfold project_revenues. rewrite Hg, py_getitem_empty. reflexivity.
Qed.

Lemma project_zero_years (a : dcf_args) :
  years a = 0 -> project a = Raise IndexError.
Proof.
  intros Hy. destruct (revenue_growth_rates a) as [|g gs] eqn:Hg.
  - apply project_empty_growth; [lia|exact Hg].
  - unfold project. rewrite !np_zeros_nonneg, !bind_Ok by lia.
    unfold project_revenues. rewrite Hy, Hg. reflexivity.
Qed.

Lemma project_empty_margins (a : dcf_args) :
  1 <= years a -> revenue_growth_rates a <> [] -> ebit_margins a = [] ->
  project a = Raise IndexError.
Proof.
  intros Hy Hg Hm. unfold project.
  rewrite !np_zeros_nonneg, !bind_Ok by lia.
  rewrite (project_revenues_series a Hy Hg), bind_Ok.
  unfold project_ebit, py_range.
  replace (Z.to_nat (years a - 0)) with (S (Z.to_nat (years a) - 1)) by lia.
  cbn [seq map for_each].
  rewrite (py_getitem_nat _ 0 (ref_revenue a 0))
    by (apply lookup_tabulate; lia).
  rewrite bind_Ok, Hm, py_getitem_empty. reflexivity.
Qed.

(** C6 (as the code has it): [calculate_dcf] has no input validation. With
    fewer than one forecast year or an empty growth or margin series it does
    fail, with the exception of the array operation that trips first: a
    [ValueError] for a negative number of years and an [IndexError]
    otherwise. *)
Theorem C6_invalid_shape_raises (float_pow : float -> Z -> result float)
        (a : dcf_args) :
  years a < 1 \/ revenue_growth_rates a = [] \/ ebit_margins a = [] ->
  calculate_dcf float_pow a
  = Raise (if years a <? 0 then ValueError else IndexError).
Proof.
  intros H. unfold calculate_dcf.
  destruct (Z.ltb_spec (years a) 0) as [Hneg|Hnn].
  { by rewrite project_negative_years. }
  destruct (decide (years a = 0)) as [H0|H0].
  { by rewrite project_zero_years. }
  destruct (decide (revenue_growth_rates a = [])) as [Hg|Hg].
  { by rewrite project_empty_growth. }
  destruct H as [H|[H|H]]; [lia|done|].
  rewrite project_empty_margins by (done || lia). reflexivity.
Qed.

(** ** C4: the grid scan keeps the first minimum *)

Lemma for_each_app {A S} (body : A -> S -> result S) (xs ys : list A) (s : S) :
  for_each (xs ++ ys) body s = (s' ← for_each xs body s; for_each ys body s').
Proof.
  revert s. induction xs as [|x xs IH]; intros s; [reflexivity|].
  cbn [app for_each]. destruct (body x s) as [s'|e]; [|reflexivity].
  rewrite !bind_Ok. apply IH.
Qed.

Section Scan.

Variable float_pow : float -> Z -> result float.
Variable q : reverse_args.

Lemma not_ltb_below (dj d m : float) :
  (dj <? m)%float = false -> (d <? m)%float = true ->
  (dj <? d)%float = false /\ (dj <=? d)%float = false.
Proof.
  intros Hj Hd. split.
  - destruct (dj <? d)%float eqn:E; [|reflexivity].
    by rewrite (ltb_trans _ _ _ E Hd) in Hj.
  - destruct (dj <=? d)%float eqn:E; [|reflexivity].
    by rewrite (leb_ltb_trans _ _ _ E Hd) in Hj.
Qed.

Lemma scan_invariant (grid ds : list float) :
  Forall2 (fun g d => candidate_difference float_pow q g = Ok d) grid ds ->
  exists st,
    for_each grid (scan_step float_pow q) (None, infinity) = Ok st /\
    scanned grid ds st.
Proof.
  unfold scanned. revert ds.
  induction grid as [|g grid IH] using rev_ind; intros ds HF.
  { apply Forall2_nil_inv_l in HF as ->. exists (None, infinity).
    split; [reflexivity|]. left. split; [reflexivity|]. intros j dj Hj.
    by rewrite lookup_nil in Hj. }
  apply Forall2_app_inv_l in HF as (ds1 & ds2 & HF1 & HF2 & ->).
  apply Forall2_cons_inv_l in HF2 as (d & ds2' & Hd & HF2 & ->).
  apply Forall2_nil_inv_l in HF2 as ->.
  destruct (IH ds1 HF1) as (st & Hst & Hinv).
  pose proof (Forall2_length _ _ _ HF1) as Hlen.
  rewrite for_each_app, Hst, bind_Ok. cbn [for_each].
  unfold scan_step at 1. rewrite Hd, bind_Ok.
  assert (Hsnoc : forall j dj, (ds1 ++ [d]) !! j = Some dj ->
            ds1 !! j = Some dj \/ (j = length ds1 /\ dj = d)).
  { intros j dj Hj. apply lookup_app_Some in Hj as [Hj|[Hge Hj]];
      [by left|right].
    destruct (j - length ds1)%nat as [|i] eqn:Hi; [|done].
    simpl in Hj. split; [lia|congruence]. }
  destruct (d <? st.2)%float eqn:Hlt; rewrite bind_Ok.
  - (* a strict improvement: the new candidate becomes the answer *)
    eexists. split; [reflexivity|]. right.
    exists (length grid), g, d.
    assert (Hinf : (d <? infinity)%float = true).
    { destruct Hinv as [[-> _]|(k & g' & dk & _ & _ & -> & Hk & _)];
        [exact Hlt|]. exact (ltb_trans _ _ _ Hlt Hk). }
    assert (Hold : forall j dj, ds1 !! j = Some dj ->
              (dj <? d)%float = false /\ (dj <=? d)%float = false).
    { intros j dj Hj.
      destruct Hinv as [[-> Hall]|(k & g' & dk & _ & _ & -> & _ & Hall & _)].
      - apply (not_ltb_below dj d infinity); [by eapply Hall|exact Hlt].
      - apply (not_ltb_below dj d dk); [by eapply Hall|exact Hlt]. }
    split; [by rewrite lookup_app_r, Nat.sub_diag by lia|].
    split; [by rewrite lookup_app_r, Hlen, Nat.sub_diag by lia|].
    split; [reflexivity|]. split; [exact Hinf|]. split.
    + intros j dj Hj. apply Hsnoc in Hj as [Hj|[_ ->]].
      * by apply (Hold j).
      * apply ltb_irrefl.
    + intros j dj Hjk Hj. apply Hsnoc in Hj as [Hj|[-> _]]; [|lia].
      by apply (Hold j).
  - (* no improvement: the state is kept *)
    exists st. split; [reflexivity|].
    destruct Hinv
      as [[-> Hall]|(k & g' & dk & Hg & Hk & -> & Hfin & Hall & Hfirst)].
    + left. split; [reflexivity|]. intros j dj Hj.
      apply Hsnoc in Hj as [Hj|[_ ->]]; [by eapply Hall|exact Hlt].
    + right. exists k, g', dk.
      split; [by apply lookup_app_l_Some|].
      split; [by apply lookup_app_l_Some|].
      split; [reflexivity|]. split; [exact Hfin|]. split.
      * intros j dj Hj. apply Hsnoc in Hj as [Hj|[_ ->]];
          [by eapply Hall|exact Hlt].
      * intros j dj Hjk Hj. apply Hsnoc in Hj as [Hj|[-> _]].
        -- by eapply Hfirst.
        -- apply lookup_lt_Some in Hk. lia.
Qed.

End Scan.

Lemma Forall2_map_r {A B C} (P : A -> C -> Prop) (f : B -> C)
      (l : list A) (k : list B) :
  Forall2 (fun x y => P x (f y)) l k -> Forall2 P l (map f k).
Proof. induction 1; constructor; done. Qed.

Lemma lookup_map_Some {A B} (f : A -> B) (l : list A) (i : nat) (y : B) :
  map f l !! i = Some y -> exists x, l !! i = Some x /\ y = f x.
Proof.
  revert i. induction l as [|x l IH]; intros [|i] H; try done.
  - exists x. split; [reflexivity|]. simpl in H. congruence.
  - apply IH, H.
Qed.

Lemma lookup_map {A B} (f : A -> B) (l : list A) (i : nat) (x : A) :
  l !! i = Some x -> map f l !! i = Some (f x).
Proof.
  revert i. induction l as [|z l IH]; intros [|i] H; try done.
  - simpl in *. congruence.
  - apply IH, H.
Qed.

(** The candidate grid is [np.arange] on the search range, with
    [arange_length] points. *)
Lemma growth_grid_shape (q : reverse_args) (grid : list float) :
  growth_grid q = Ok grid ->
  exists (mn mx st : float) (c : Z),
    iteration_range q = [mn; mx; st] /\
    arange_length mn mx st = Ok c /\
    grid = tabulate (fun i : nat =>
                       match i with
                       | O => mn
                       | S O => (mn + st)%float
                       | _ => (mn + float_of_Z (Z.of_nat i)
                                    * (mn + st - mn))%float
                       end) (Z.to_nat c).
Proof.
  unfold growth_grid, unpack3.
  destruct (iteration_range q) as [|mn [|mx [|st [|]]]]; try discriminate.
  rewrite bind_Ok. unfold np_arange.
  destruct (arange_length mn mx st) as [c|e] eqn:Hc;
    [|rewrite bind_Raise; discriminate].
  rewrite bind_Ok. intros [= <-]. by exists mn, mx, st, c.
Qed.

(** C4 (as the code has it): when every candidate of the grid evaluates and at
    least one absolute difference to [target_ev = current_price *
    shares_outstanding + net_debt] is below infinity, [reverse_dcf] returns a
    grid candidate such that no candidate has a strictly smaller difference
    and no earlier candidate has a difference as small: the first minimum in
    scan order. The grid is the one [np.arange] computes in binary64: its
    points are [min_growth], [min_growth + step] and, from the third on,
    [min_growth + i * ((min_growth + step) - min_growth)], and there are
    [arange_length] of them, the ceiling of the rounded quotient
    [(max_growth - min_growth) / step]; nothing keeps the last point below
    [max_growth]. *)
Theorem C4_first_minimum (float_pow : float -> Z -> result float)
        (q : reverse_args) (grid : list float) (rs : list dcf_result) :
  let diff (r : dcf_result) : float :=
    abs (enterprise_value r
         - (current_price q * shares_outstanding q + net_debt q))%float in
  growth_grid q = Ok grid ->
  Forall2 (fun g r =>
             (inputs ← candidate_inputs q g; calculate_dcf float_pow inputs)
             = Ok r) grid rs ->
  Exists (fun r => (diff r <? infinity)%float = true) rs ->
  (exists (mn mx st : float) (c : Z),
      iteration_range q = [mn; mx; st] /\
      arange_length mn mx st = Ok c /\
      grid = tabulate (fun i : nat =>
                         match i with
                         | O => mn
                         | S O => (mn + st)%float
                         | _ => (mn + float_of_Z (Z.of_nat i)
                                      * (mn + st - mn))%float
                         end) (Z.to_nat c)) /\
  exists (k : nat) (g : float) (rk : dcf_result),
    grid !! k = Some g /\ rs !! k = Some rk /\
    reverse_dcf float_pow q = Ok (Some g) /\
    (forall j rj, rs !! j = Some rj -> (diff rj <? diff rk)%float = false) /\
    (forall j rj, (j < k)%nat -> rs !! j = Some rj ->
                  (diff rj <=? diff rk)%float = false).
Proof.
  intros diff Hgrid HF Hex. split; [exact (growth_grid_shape q grid Hgrid)|].
  assert (HF' : Forall2 (fun g d => candidate_difference float_pow q g = Ok d)
                  grid (map diff rs)).
  { apply Forall2_map_r. eapply Forall2_impl; [exact HF|].
    intros g r. unfold candidate_difference.
    destruct (candidate_inputs q g) as [inputs|e];
      [|rewrite bind_Raise; discriminate].
    rewrite !bind_Ok. intros ->. reflexivity. }
  destruct (scan_invariant float_pow q grid (map diff rs) HF')
    as (st & Hst & [[-> Hall]|(k & g & dk & Hg & Hk & -> & _ & Hmin & Hfirst)]).
  - exfalso. apply Exists_exists in Hex as (r & Hr & Hlt).
    apply list_elem_of_lookup in Hr as [j Hj].
    rewrite (Hall j (diff r)) in Hlt; [discriminate|].
    by apply lookup_map.
  - apply lookup_map_Some in Hk as (rk & Hrk & ->).
    exists k, g, rk. split; [exact Hg|]. split; [exact Hrk|]. split.
    + unfold reverse_dcf. rewrite Hgrid, bind_Ok, Hst. reflexivity.
    + split.
      * intros j rj Hj. apply (Hmin j). by apply lookup_map.
      * intros j rj Hjk Hj. apply (Hfirst j); [exact Hjk|]. by apply lookup_map.
Qed.

(** ** C10: the terminal-value denominator of a candidate evaluation *)

Lemma py_getitem_raises {A} (l : list A) (k : Z) (e : exn) :
  py_getitem l k = Raise e -> e = IndexError.
Proof.
  unfold py_getitem, norm_index.
  destruct (_ || _); [rewrite bind_Raise; congruence|].
  rewrite bind_Ok. destruct (l !! _); congruence.
Qed.

Lemma comprehension_raises {A B} (f : A -> result B) (l : list A) (e : exn) :
  comprehension f l = Raise e -> exists x, x ∈ l /\ f x = Raise e.
Proof.
  induction l as [|x l IH]; [discriminate|]. cbn [comprehension].
  destruct (f x) as [y|e'] eqn:Hx.
  - rewrite bind_Ok. destruct (comprehension f l) as [ys|e'']; [discriminate|].
    rewrite bind_Raise. intros [= ->].
    destruct (IH eq_refl) as (z & Hz & Hfz). exists z. split; [|exact Hfz].
    by apply list_elem_of_further.
  - rewrite bind_Raise. intros [= ->]. exists x. split; [|exact Hx].
    apply list_elem_of_here.
Qed.

Lemma elem_of_py_range (lo hi i : Z) : i ∈ py_range lo hi -> lo <= i < hi.
Proof.
  unfold py_range. intros Hi. apply list_elem_of_In, in_map_iff in Hi.
  destruct Hi as (k & <- & Hk). apply in_seq in Hk. lia.
Qed.

(** C10 (as the code has it): a candidate growth rate [g] enters the inputs of
    its evaluation only as the flat growth series; the discount and terminal
    growth rates are the query's. The terminal value of the evaluation is a
    division by [discount_rate - terminal_growth_rate], which does not mention
    [g], and when the discount rate is above the terminal growth rate that
    denominator is neither zero nor a NaN, whatever [g] is. An exception of
    the valuation phase is then an [IndexError] or comes from the power that
    computes a discount factor, never from the terminal-value division. *)
Theorem C10_candidate_denominator (float_pow : float -> Z -> result float)
        (q : reverse_args) (y : Z) (g : float) :
  r_years q = VInt y ->
  (r_terminal_growth_rate q <? r_discount_rate q)%float = true ->
  exists a : dcf_args,
    candidate_inputs q g = Ok a /\
    revenue_growth_rates a = replicate (Z.to_nat y) g /\
    discount_rate a = r_discount_rate q /\
    terminal_growth_rate a = r_terminal_growth_rate q /\
    is_zero (r_discount_rate q - r_terminal_growth_rate q) = false /\
    is_nan (r_discount_rate q - r_terminal_growth_rate q) = false /\
    forall fcf : list float,
      match value float_pow a fcf with
      | Ok v =>
          v_denominator v
          = (r_discount_rate q - r_terminal_growth_rate q)%float /\
          v_terminal_value v = (v_terminal_fcf v / v_denominator v)%float
      | Raise e =>
          e = IndexError \/
          exists i : Z, 1 <= i <= y /\
            float_pow (1 + r_discount_rate q)%float (- i) = Raise e
      end.
Proof.
  intros Hyq Hlt.
  exists (DcfArgs (replicate (Z.to_nat y) g) (r_ebit_margins q)
            (r_tax_rate q) (r_nwc_percent q) (r_capex_percent q)
            (r_discount_rate q) (r_terminal_growth_rate q)
            (r_initial_revenue q) y).
  split; [unfold candidate_inputs; by rewrite Hyq|].
  do 3 (split; [reflexivity|]).
  destruct (sub_lt_nonzero _ _ Hlt) as [Hz Hn].
  do 2 (split; [assumption|]).
  intros fcf. unfold value.
  cbn [discount_rate terminal_growth_rate years].
  destruct (py_getitem fcf (-1)) as [fcf_last|e] eqn:Hlast.
  2:{ rewrite bind_Raise. left. by eapply py_getitem_raises. }
  rewrite bind_Ok.
  destruct (comprehension _ (py_range 1 (y + 1))) as [dfs|e] eqn:Hdfs.
  2:{ rewrite bind_Raise. right.
      apply comprehension_raises in Hdfs as (i & Hi & Hpow).
      apply elem_of_py_range in Hi. exists i. split; [lia|exact Hpow]. }
  rewrite bind_Ok.
  destruct (py_getitem dfs (-1)) as [df_last|e] eqn:Hdf.
  2:{ rewrite bind_Raise. left. by eapply py_getitem_raises. }
  rewrite bind_Ok. cbn [v_denominator v_terminal_value v_terminal_fcf].
  split; reflexivity.
Qed.

(** ** C8: the modified inputs of a sensitivity run *)

Lemma comprehension_total {A B} (f : A -> result B) (h : A -> B) (l : list A) :
  (forall x, f x = Ok (h x)) -> comprehension f l = Ok (map h l).
Proof.
  intros Hf. induction l as [|x l IH]; [reflexivity|].
  cbn [comprehension map]. by rewrite Hf, bind_Ok, IH.
Qed.

Lemma comprehension_ext {A B} (f g : A -> result B) (l : list A) :
  (forall x, f x = g x) -> comprehension f l = comprehension g l.
Proof.
  intros Hfg. induction l as [|x l IH]; [reflexivity|].
  cbn [comprehension]. by rewrite Hfg, IH.
Qed.

(** The scaled element of a list entry, as the code and as the spec have
    it. *)
Lemma scaled_element (pct : pyval) (x : float) :
  (w ← py_add_one pct; float_mul_py x w)
  = (f ← spec_factor pct; Ok (x * f)%float).
Proof. by destruct pct. Qed.

(** On every entry that is not a tuple the code scales as the spec says. *)
Lemma modified_value_scaled (v pct : pyval) :
  match v with
  | VTuple _ => True
  | _ => modified_value v pct = spec_scaled v pct
  end.
Proof.
  destruct v as [x|n|l|l]; [| | |exact I].
  - destruct pct as [p|m|l|l]; try reflexivity.
    cbn [modified_value py_add_one spec_scaled spec_factor].
    rewrite bind_Ok. cbn [py_mul]. unfold float_mul_py. cbn [as_float].
    by destruct (int_to_float (1 + m)).
  - by destruct pct.
  - cbn [modified_value spec_scaled].
    by rewrite (comprehension_ext _ _ l (scaled_element pct)).
Qed.

(** C8 (as the code has it): for a perturbation [p], the dictionary handed to
    [calculate_dcf] is the base dictionary with the entry [var] replaced and
    every other entry as in the base.  The new entry is the base entry times
    [1 + p] for a scalar and the base series with every element times
    [1 + p] for a list.  A tuple is not scaled: it is multiplied as a
    whole, which raises a [TypeError] for a float [p] and repeats the tuple
    for an int [p]. *)
Theorem C8_modified_inputs_frame (float_pow : float -> Z -> result float)
        (untyped_dcf : gmap string pyval -> result dcf_result)
        (base_inputs : gmap string pyval) (base_value : float) (var : string)
        (v pct : pyval) :
  match v with
  | VTuple l =>
      modified_value v pct
      = match pct with
        | VInt m => Ok (VTuple (concat (replicate (Z.to_nat (1 + m)) l)))
        | _ => Raise TypeError
        end
  | _ => modified_value v pct = spec_scaled v pct
  end /\
  sensitivity_row float_pow untyped_dcf base_inputs base_value var v pct
  = (v' ← modified_value v pct;
     r ← call_calculate_dcf float_pow untyped_dcf
           (modified_inputs base_inputs var v');
     _ ← py_format_percent pct;
     Ok (SensRow pct (enterprise_value r)
           ((enterprise_value r - base_value) / base_value)%float)) /\
  forall v' : pyval,
    modified_inputs base_inputs var v' !! var = Some v' /\
    (forall k : string, k <> var ->
       modified_inputs base_inputs var v' !! k = base_inputs !! k) /\
    delete var (modified_inputs base_inputs var v') = delete var base_inputs.
Proof.
  split.
  { pose proof (modified_value_scaled v pct) as H.
    destruct v as [x|n|l|l]; try exact H. by destruct pct. }
  split; [reflexivity|].
  intros v'. unfold modified_inputs. split; [apply lookup_insert_eq|].
  split; [intros k Hk; by apply lookup_insert_ne|].
  apply delete_insert_eq.
Qed.

(** ** C9: sequence entries in the reverse sweep *)

(** The reverse sweep multiplies the swept entry as a whole: a list entry
    with a float perturbation has no product. *)
Lemma reverse_row_list_raises (float_pow : float -> Z -> result float)
      (untyped_reverse_dcf : gmap string pyval -> result (option float))
      (base_inputs : gmap string pyval) (base_growth : option float)
      (var : string) (l : list float) (p : float) :
  reverse_sensitivity_row float_pow untyped_reverse_dcf base_inputs
    base_growth var (VList l) (VFloat p) = Raise TypeError.
Proof. reflexivity. Qed.

(** With an int perturbation the list is repeated, not scaled. *)
Lemma reverse_row_list_repeats (l : list float) (n : Z) :
  (w ← py_add_one (VInt n); py_mul (VList l) w)
  = Ok (VList (concat (replicate (Z.to_nat (1 + n)) l))).
Proof. reflexivity. Qed.

(** C9: the reverse sweep does not scale a sequence entry.  Sweeping
    [ebit_margins] by +50% in [reverse_dcf_sensitivity] raises a [TypeError],
    while the forward sweep on the same series scales every margin and
    returns. *)
Theorem C9_reverse_sweep_sequence_raises :
  reverse_dcf_sensitivity float_pow_model untyped_reverse_dcf_model
    ex_reverse_inputs ["ebit_margins"]
    {["ebit_margins" := [VFloat 0.5]]} = Raise TypeError /\
  modified_value (VList [0.5]%float) (VFloat 0.5) = Ok (VList [0.75]%float) /\
  is_ok (sensitivity_analysis float_pow_model untyped_dcf_model
           ex_base_inputs ["ebit_margins"]
           {["ebit_margins" := [VFloat 0.5]]}) = true.
Proof. repeat split; vm_compute; reflexivity. Qed.

(** ** C7: the identity perturbation *)

Lemma bind_Ok_inv {A B} (m : result A) (f : A -> result B) (b : B) :
  (m ≫= f) = Ok b -> exists a, m = Ok a /\ f a = Ok b.
Proof. destruct m as [a|e]; [by exists a|discriminate]. Qed.

Lemma keywords_ok_insert (params : list string) (kw : gmap string pyval)
      (var : string) (v v' : pyval) :
  kw !! var = Some v -> keywords_ok params kw = true ->
  keywords_ok params (<[var := v']> kw) = true.
Proof.
  unfold keywords_ok. rewrite !bool_decide_eq_true. intros Hv Hall.
  apply map_Forall_insert_2; [|exact Hall]. exact (Hall var v Hv).
Qed.

(** [v * 1] is [v] for every value: a float is multiplied by one, an int too,
    and a sequence is repeated once. *)
Lemma py_mul_one (v : pyval) : py_mul v (VInt 1) = Ok v.
Proof.
  destruct v as [x|n|l|l]; cbn [py_mul].
  - change (float_mul_py x (VInt 1)) with (Ok (x * 1)%float).
    by rewrite bind_Ok, mul_one.
  - by rewrite Z.mul_1_r.
  - change (Z.to_nat 1) with 1%nat. cbn [replicate concat].
    by rewrite app_nil_r.
  - change (Z.to_nat 1) with 1%nat. cbn [replicate concat].
    by rewrite app_nil_r.
Qed.

(** A zero perturbation gives back the entry itself when the zero is an int,
    and also when it is a float and the entry is a float or a list. *)
Lemma modified_value_same (v pct : pyval) :
  pct = VInt 0 \/
  pct = VFloat 0 /\
    match v with VFloat _ | VList _ => True | _ => False end ->
  modified_value v pct = Ok v.
Proof.
  assert (Hone : forall (w : pyval) (x : float),
            w = VInt 0 \/ w = VFloat 0 ->
            (w' ← py_add_one w; float_mul_py x w') = Ok x).
  { intros w x [-> | ->]; cbn [py_add_one]; rewrite bind_Ok.
    - change (float_mul_py x (VInt (1 + 0))) with (Ok (x * 1)%float).
      by rewrite mul_one.
    - change (float_mul_py x (VFloat (1 + 0))) with (Ok (x * 1)%float).
      by rewrite mul_one. }
  assert (Hlist : forall l : list float,
            pct = VInt 0 \/ pct = VFloat 0 ->
            modified_value (VList l) pct = Ok (VList l)).
  { intros l Hp. cbn [modified_value].
    rewrite (comprehension_total _ (fun x => x))
      by (intros x; by apply Hone).
    by rewrite map_id. }
  intros [->|[-> Hv]].
  - destruct v as [x|n|l|l]; [| |by apply Hlist; left|];
      exact (py_mul_one _).
  - destruct v as [x|n|l|l]; try done; [|by apply Hlist; right].
    cbn [modified_value py_add_one]. rewrite bind_Ok. cbn [py_mul].
    change (float_mul_py x (VFloat (1 + 0))) with (Ok (x * 1)%float).
    by rewrite bind_Ok, mul_one.
Qed.

Lemma required_Ok (kw : gmap string pyval) (k : string) (v : pyval) :
  required kw k = Ok v <-> kw !! k = Some v.
Proof.
  unfold required. destruct (kw !! k); split; intros H; by simplify_eq.
Qed.

Lemma bind_dcf_args_bound (kw : gmap string pyval) (a : dcf_args) :
  bind_dcf_args kw = Ok (Some a) <-> bound_to kw a.
Proof.
  unfold bind_dcf_args, bound_to. split.
  - destruct (keywords_ok dcf_params kw); [|discriminate]. cbn [negb].
    intros H.
    repeat (apply bind_Ok_inv in H as (? & ?%required_Ok & H)).
    apply bind_Ok_inv in H as (y & Hy & H). injection H as H.
    unfold typed_dcf_args in H. simplify_option_eq. naive_solver.
  - intros (-> & (v1 & H1 & C1) & (v2 & H2 & C2) & (v3 & H3 & C3)
            & (v4 & H4 & C4) & (v5 & H5 & C5) & (v6 & H6 & C6)
            & (v7 & H7 & C7) & (v8 & H8 & C8) & Hy).
    cbn [negb]. unfold required.
    rewrite H1, H2, H3, H4, H5, H6, H7, H8, !bind_Ok, Hy, !bind_Ok.
    unfold typed_dcf_args. rewrite C1, C2, C3, C4, C5, C6, C7, C8.
    by destruct a.
Qed.

Lemma insert_converted {T} (conv : pyval -> option T) (kw : gmap string pyval)
      (var k : string) (v v' : pyval) (t : T) :
  kw !! var = Some v -> conv v' = conv v ->
  (exists v0, kw !! k = Some v0 /\ conv v0 = Some t) ->
  exists v0, <[var := v']> kw !! k = Some v0 /\ conv v0 = Some t.
Proof.
  intros Hv Hc (v0 & Hk & Ht). destruct (decide (k = var)) as [->|Hne].
  - exists v'. rewrite lookup_insert_eq. split; [done|].
    rewrite Hc. congruence.
  - exists v0. by rewrite lookup_insert_ne.
Qed.

(** Replacing an entry other than [years] by one that is bound to the same
    argument leaves the bound arguments unchanged. *)
Lemma bind_dcf_args_insert (kw : gmap string pyval) (a : dcf_args)
      (var : string) (v v' : pyval) :
  bind_dcf_args kw = Ok (Some a) -> kw !! var = Some v -> var <> "years" ->
  as_series v' = as_series v ->
  as_scalar (2 ^ 53) v' = as_scalar (2 ^ 53) v ->
  bind_dcf_args (<[var := v']> kw) = Ok (Some a).
Proof.
  rewrite !bind_dcf_args_bound. unfold bound_to.
  intros (Hk & H1 & H2 & H3 & H4 & H5 & H6 & H7 & H8 & Hy) Hv Hne Hl Hf.
  split; [by eapply keywords_ok_insert|].
  repeat (split; [by eapply insert_converted|]).
  by rewrite lookup_insert_ne.
Qed.

(** In a dictionary within the model, an int entry other than [years] is a
    scalar argument, bound to the float it converts to. *)
Lemma bound_int_entry (kw : gmap string pyval) (a : dcf_args)
      (var : string) (n : Z) :
  bind_dcf_args kw = Ok (Some a) -> kw !! var = Some (VInt n) ->
  var <> "years" ->
  exists x : float,
    int_to_float n = Ok x /\ as_scalar (2 ^ 53) (VInt n) = Some x.
Proof.
  rewrite bind_dcf_args_bound. unfold bound_to.
  intros (Hk & (v1 & H1 & C1) & (v2 & H2 & C2) & (v3 & H3 & C3)
          & (v4 & H4 & C4) & (v5 & H5 & C5) & (v6 & H6 & C6)
          & (v7 & H7 & C7) & (v8 & H8 & C8) & Hy) Hv Hne.
  unfold keywords_ok in Hk. rewrite bool_decide_eq_true in Hk.
  pose proof (Hk var _ Hv) as Hin. cbn beta in Hin.
  unfold dcf_params in Hin.
  assert (Hconv : forall x, as_scalar (2 ^ 53) (VInt n) = Some x ->
            exists x : float,
              int_to_float n = Ok x /\ as_scalar (2 ^ 53) (VInt n) = Some x).
  { intros x Hx. exists x. split; [|exact Hx]. cbn [as_scalar] in Hx.
    destruct (exact_int _ n); [|discriminate].
    by destruct (int_to_float n) as [y|e]; simplify_eq. }
  repeat (apply elem_of_cons in Hin as [->|Hin];
          [simplify_eq; first [discriminate | by eapply Hconv | done]|]).
  by apply elem_of_nil in Hin.
Qed.

(** C7 (as the code has it): for a base dictionary on which [calculate_dcf]
    returns a finite, non-zero enterprise value, the sweep row of a zero
    perturbation returns, reproduces the base enterprise value and reports a
    zero value change, and it is the one row of the table
    [sensitivity_analysis] returns for that entry, when the zero is the int
    [0], whatever the entry, and when it is the float [0.0] and the entry is
    a float, a list, or an int other than [years] in a dictionary within
    the model.  A tuple, and [years], times the float [1.0] are left out:
    both raise. *)
Theorem C7_zero_perturbation (float_pow : float -> Z -> result float)
        (untyped_dcf : gmap string pyval -> result dcf_result)
        (base_inputs : gmap string pyval) (r : dcf_result) (var : string)
        (v pct : pyval) :
  call_calculate_dcf float_pow untyped_dcf base_inputs = Ok r ->
  is_finite (enterprise_value r) = true ->
  is_zero (enterprise_value r) = false ->
  base_inputs !! var = Some v ->
  pct = VInt 0 \/
  pct = VFloat 0 /\
    match v with
    | VFloat _ | VList _ => True
    | VInt _ =>
        var <> "years" /\
        exists a : dcf_args, bind_dcf_args base_inputs = Ok (Some a)
    | VTuple _ => False
    end ->
  exists row : sens_row,
    sensitivity_row float_pow untyped_dcf base_inputs (enterprise_value r)
      var v pct = Ok row /\
    row_enterprise_value row = enterprise_value r /\
    is_zero (value_change row) = true /\
    sensitivity_analysis float_pow untyped_dcf base_inputs [var]
      {[var := [pct]]} = Ok {[var := [row]]}.
Proof.
  intros Hbase Hfin Hnz Hv Hpct.
  assert (Hmod : exists v',
            modified_value v pct = Ok v' /\
            call_calculate_dcf float_pow untyped_dcf
              (modified_inputs base_inputs var v') = Ok r).
  { unfold modified_inputs.
    assert (Hsame : modified_value v pct = Ok v ->
              exists v', modified_value v pct = Ok v' /\
                call_calculate_dcf float_pow untyped_dcf
                  (<[var := v']> base_inputs) = Ok r).
    { intros H. exists v. split; [exact H|]. by rewrite insert_id. }
    destruct Hpct as [->|[-> Hkind]];
      [apply Hsame, modified_value_same; by left|].
    destruct v as [x|n|l|l]; [| |..]; try done;
      try (apply Hsame, modified_value_same; by right).
    destruct Hkind as (Hne & a & Hbind).
    destruct (bound_int_entry _ _ _ _ Hbind Hv Hne) as (x & Hx & Hs).
    exists (VFloat x). split.
    - cbn [modified_value py_add_one]. rewrite bind_Ok. cbn [py_mul].
      rewrite Hx, bind_Ok. change (1 + 0)%float with 1%float.
      by rewrite mul_one.
    - unfold call_calculate_dcf in *.
      rewrite (bind_dcf_args_insert _ a var (VInt n) (VFloat x) Hbind Hv Hne);
        [|reflexivity|by rewrite Hs].
      by rewrite Hbind in Hbase. }
  destruct Hmod as (v' & Hv' & Hsame).
  assert (Hfmt : py_format_percent pct = Ok ()).
  { destruct Hpct as [->|[-> _]]; reflexivity. }
  assert (Hrow : sensitivity_row float_pow untyped_dcf base_inputs
                   (enterprise_value r) var v pct
                 = Ok (SensRow pct (enterprise_value r)
                         ((enterprise_value r - enterprise_value r)
                          / enterprise_value r)%float)).
  { unfold sensitivity_row. rewrite Hv', bind_Ok, Hsame, bind_Ok, Hfmt.
    reflexivity. }
  eexists. split; [exact Hrow|].
  cbn [row_enterprise_value value_change]. split; [reflexivity|].
  split; [by apply relative_change_self|].
  unfold sensitivity_analysis. rewrite Hbase, bind_Ok. cbn [for_each].
  unfold dict_getitem. rewrite Hv, bind_Ok, lookup_singleton_eq, bind_Ok.
  cbn [comprehension]. rewrite Hrow, !bind_Ok. reflexivity.
Qed.

(** ** Concrete runs *)

(** The reference scenario of the usage section: first-year revenue and
    EBIT. *)
Lemma reference_scenario_first_year :
  exists r : dcf_result,
    call_calculate_dcf float_pow_model untyped_dcf_model model_inputs = Ok r /\
    Revenue (summary r) !! 0%nat = Some 1150000%float /\
    EBIT (summary r) !! 0%nat = Some 287500%float.
Proof. eexists. repeat split; vm_compute; reflexivity. Qed.

(** Grids of [np.arange].  With dyadic bounds every operation is exact and
    the stop is left out; over [(0.1, 0.4, 0.1)] the stop is the last point.
    An infinite length is a [ValueError], and so is one above [2 ** 63],
    while [2 ** 63] itself gives an empty grid. *)
Lemma arange_grids :
  np_arange 0 3 1 = Ok [0; 1; 2]%float /\
  np_arange 0 1 0.25 = Ok [0; 0.25; 0.5; 0.75]%float /\
  np_arange 0.5 0 0.25 = Ok [] /\
  np_arange 0.1 0.4 0.1 = Ok [0.1; 0.2; 0.30000000000000004; 0.4]%float /\
  np_arange 0 infinity 1 = Raise ValueError /\
  np_arange 0 0x1p64 1 = Raise ValueError /\
  np_arange 0 0x1p63 1 = Ok [].
Proof. repeat split; vm_compute; reflexivity. Qed.

(** The dictionaries of the concrete runs are within the model. *)
Lemma concrete_inputs_typed :
  bind_dcf_args ex_base_inputs = Ok (Some ex_valid) /\
  bind_dcf_args ex_tuple_inputs = Ok (Some ex_valid) /\
  is_Some (from_ok None (bind_dcf_args model_inputs)) /\
  is_Some (from_ok None (bind_dcf_args ex_zero_inputs)) /\
  bind_reverse_args ex_reverse_inputs = Ok (Some ex_query) /\
  is_Some (from_ok None (bind_reverse_args ex_reverse_inputs_empty)).
Proof. repeat split; vm_compute; eauto. Qed.

Lemma ex_pw_defined (i : Z) :
  1 <= i <= 2 -> float_pow_model (1 + 1)%float (- i) = Ok (ex_pw i).
Proof.
  intros Hi. assert (i = 1 \/ i = 2) as [-> | ->] by lia; reflexivity.
Defined.

Lemma C1_project_reference_witness :
  exists p : projection,
    project ex_valid = Ok p /\
    p_revenues p = [1536; 1920]%float /\ p_fcf p = [320; 432]%float.
Proof.
  destruct (C1_project_reference ex_valid) as (p & Hp & _ & Hrev & H);
    [done|done|done|].
  exists p. split; [exact Hp|]. split; [by rewrite Hrev|].
  destruct H as (_ & _ & _ & _ & _ & -> & _). reflexivity.
Defined.

Lemma C2_value_equations_witness :
  exists r : dcf_result,
    calculate_dcf float_pow_model ex_valid = Ok r /\
    enterprise_value r = 592%float /\ terminal_value r = 1296%float.
Proof.
  destruct (C2_value_equations float_pow_model ex_valid ex_pw)
    as (p & v & _ & _ & Hr & _ & Htv & _ & Hpv & Hptv & Hev & _);
    [done|done|done|exact ex_pw_defined|].
  exists (dcf_return p v). split; [exact Hr|].
  cbn [dcf_return enterprise_value terminal_value].
  rewrite Hev, Hptv, Hpv, Htv. split; reflexivity.
Defined.

(** From eight years on the present values are not added in index order:
    the interleaved partial sums keep the three units that index order
    loses to rounding. *)
Lemma sum_order_at_eight_years :
  exists r : dcf_result,
    calculate_dcf float_pow_model ex_eight_years = Ok r /\
    PV_of_FCF (summary r)
    = [9007199254740992; 1; 1; 1; 0; 0; 0; 0]%float /\
    enterprise_value r = 9007199254740994%float /\
    foldl PrimFloat.add 0%float (PV_of_FCF (summary r))
    = 9007199254740992%float.
Proof. eexists. repeat split; vm_compute; reflexivity. Qed.

(** A discount rate of -100% is above a terminal growth rate of -200%, yet
    the first discount factor is [0.0 ** -1] and the call raises. *)
Lemma C2_counterexample :
  1 <= years ex_zero_base /\ revenue_growth_rates ex_zero_base <> [] /\
  ebit_margins ex_zero_base <> [] /\
  (terminal_growth_rate ex_zero_base <? discount_rate ex_zero_base)%float
  = true /\
  calculate_dcf float_pow_model ex_zero_base = Raise ZeroDivisionError.
Proof. repeat split; try done. Qed.

Lemma C3_no_divergence_guard_witness :
  exists r : dcf_result,
    calculate_dcf float_pow_model ex_equal_rates = Ok r /\
    is_finite (terminal_value r) = false.
Proof.
  destruct (C3_no_divergence_guard float_pow_model ex_equal_rates ex_pw)
    as (r & Hr & _ & Hinf); [done|done|done| |].
  - intros i Hi. apply ex_pw_defined. cbn in Hi. lia.
  - exists r. split; [exact Hr|]. apply Hinf. reflexivity.
Defined.

(** Equal rates: the call returns, with an infinite terminal value. *)
Lemma C3_counterexample :
  (discount_rate ex_equal_rates <=? terminal_growth_rate ex_equal_rates)%float
  = true /\
  exists r : dcf_result,
    calculate_dcf float_pow_model ex_equal_rates = Ok r /\
    terminal_value r = infinity.
Proof. split; [reflexivity|]. eexists. split; reflexivity. Qed.

Lemma C4_first_minimum_witness :
  reverse_dcf float_pow_model ex_query = Ok (Some 0%float).
Proof.
  destruct (C4_first_minimum float_pow_model ex_query
              [0; 0.25; 0.5; 0.75]%float ex_query_results)
    as (_ & k & g & rk & Hg & Hrk & Hrev & Hmin & _).
  - reflexivity.
  - repeat constructor.
  - apply Exists_cons_hd. reflexivity.
  - rewrite Hrev. do 2 f_equal.
    destruct k as [|[|[|[|k]]]]; try discriminate Hg;
      injection Hg as <-; injection Hrk as <-; try reflexivity.
    + specialize (Hmin 0%nat _ eq_refl). discriminate Hmin.
    + specialize (Hmin 0%nat _ eq_refl). discriminate Hmin.
    + specialize (Hmin 0%nat _ eq_refl). discriminate Hmin.
Defined.

(** A well-formed query whose candidates all overflow: the grid has two
    points and the search returns [None].  And a grid that is not half-open:
    over [(0.1, 0.4, 0.1)] the quotient rounds to just above 3, the grid has
    four points, the last one is [max_growth] and the search returns it. *)
Lemma C4_counterexample :
  growth_grid ex_query_closed
  = Ok [0.1; 0.2; 0.30000000000000004; 0.4]%float /\
  reverse_dcf float_pow_model ex_query_closed = Ok (Some 0.4%float) /\
  growth_grid ex_query_overflow = Ok [1; 2]%float /\
  (r_terminal_growth_rate ex_query_overflow
   <? r_discount_rate ex_query_overflow)%float = true /\
  is_finite (r_initial_revenue ex_query_overflow) = true /\
  is_ok (comprehension
           (fun g => inputs ← candidate_inputs ex_query_overflow g;
                     calculate_dcf float_pow_model inputs)
           [1; 2]%float) = true /\
  reverse_dcf float_pow_model ex_query_overflow = Ok None.
Proof. repeat split; vm_compute; reflexivity. Qed.

Lemma C5_empty_grid_returns_None_witness :
  reverse_dcf float_pow_model ex_query_empty = Ok None.
Proof.
  apply (C5_empty_grid_returns_None float_pow_model ex_query_empty).
  reflexivity.
Defined.

(** [min_growth >= max_growth]: no exception, the result is [None]. *)
Lemma C5_counterexample :
  (r_terminal_growth_rate ex_query_empty
   <? r_discount_rate ex_query_empty)%float = true /\
  growth_grid ex_query_empty = Ok [] /\
  reverse_dcf float_pow_model ex_query_empty = Ok None.
Proof. repeat split; vm_compute; reflexivity. Qed.

Lemma C6_invalid_shape_raises_witness :
  calculate_dcf float_pow_model ex_no_years = Raise IndexError.
Proof.
  apply (C6_invalid_shape_raises float_pow_model ex_no_years).
  left. cbn. lia.
Defined.

(** A NaN tax rate is not rejected: the call returns a NaN valuation. *)
Lemma C6_counterexample :
  is_nan (tax_rate ex_nan_tax) = true /\
  exists r : dcf_result,
    calculate_dcf float_pow_model ex_nan_tax = Ok r /\
    is_nan (enterprise_value r) = true /\ is_nan (terminal_value r) = true.
Proof. split; [reflexivity|]. eexists. repeat split; reflexivity. Qed.

Lemma C7_zero_perturbation_witness :
  exists row : sens_row,
    sensitivity_row float_pow_model untyped_dcf_model ex_base_inputs 592
      "initial_revenue" (VInt 1024) (VFloat 0) = Ok row /\
    is_zero (value_change row) = true.
Proof.
  destruct (C7_zero_perturbation float_pow_model untyped_dcf_model
              ex_base_inputs
              (from_ok no_result
                 (call_calculate_dcf float_pow_model untyped_dcf_model
                    ex_base_inputs))
              "initial_revenue" (VInt 1024) (VFloat 0))
    as (row & Hrow & _ & Hz & _); try (vm_compute; reflexivity).
  - right. split; [reflexivity|]. split; [discriminate|].
    eexists. vm_compute. reflexivity.
  - exists row. split; [exact Hrow|exact Hz].
Defined.

(** Sweeping [years] by 0% multiplies the int by a float; the forecast length
    is then no int and the call raises.  Sweeping a tuple of margins by 0%
    multiplies the tuple by a float, which raises as well. *)
Lemma C7_counterexample :
  (exists r : dcf_result,
      call_calculate_dcf float_pow_model untyped_dcf_model ex_base_inputs
      = Ok r /\
      is_finite (enterprise_value r) = true /\
      is_zero (enterprise_value r) = false) /\
  ex_base_inputs !! "years" = Some (VInt 2) /\
  sensitivity_row float_pow_model untyped_dcf_model ex_base_inputs 592
    "years" (VInt 2) (VFloat 0) = Raise TypeError /\
  sensitivity_analysis float_pow_model untyped_dcf_model ex_base_inputs
    ["years"] {["years" := [VFloat 0]]} = Raise TypeError /\
  (exists r : dcf_result,
      call_calculate_dcf float_pow_model untyped_dcf_model ex_tuple_inputs
      = Ok r /\
      is_finite (enterprise_value r) = true /\
      is_zero (enterprise_value r) = false) /\
  ex_tuple_inputs !! "ebit_margins" = Some (VTuple [0.5]%float) /\
  sensitivity_analysis float_pow_model untyped_dcf_model ex_tuple_inputs
    ["ebit_margins"] {["ebit_margins" := [VFloat 0]]} = Raise TypeError.
Proof.
  split; [eexists; repeat split; vm_compute; reflexivity|].
  do 3 (split; [vm_compute; reflexivity|]).
  split; [eexists; repeat split; vm_compute; reflexivity|].
  split; vm_compute; reflexivity.
Qed.

(** A series given as a tuple is accepted by [calculate_dcf], but the sweep
    multiplies it as a whole: with a float perturbation the product raises,
    where the spec has every element scaled. *)
Lemma C8_counterexample :
  is_ok (call_calculate_dcf float_pow_model untyped_dcf_model ex_tuple_inputs)
  = true /\
  ex_tuple_inputs !! "ebit_margins" = Some (VTuple [0.5]%float) /\
  spec_scaled (VTuple [0.5]%float) (VFloat 0.5) = Ok (VTuple [0.75]%float) /\
  modified_value (VTuple [0.5]%float) (VFloat 0.5) = Raise TypeError /\
  sensitivity_analysis float_pow_model untyped_dcf_model ex_tuple_inputs
    ["ebit_margins"] {["ebit_margins" := [VFloat 0.5]]} = Raise TypeError.
Proof. repeat split; vm_compute; reflexivity. Qed.

Lemma C10_candidate_denominator_witness :
  exists a : dcf_args,
    candidate_inputs ex_query 4 = Ok a /\
    revenue_growth_rates a = [4; 4]%float /\
    is_zero (discount_rate a - terminal_growth_rate a) = false.
Proof.
  destruct (C10_candidate_denominator float_pow_model ex_query 2 4)
    as (a & Ha & Hg & Hd & Ht & Hz & _); [reflexivity|reflexivity|].
  exists a. split; [exact Ha|]. split; [exact Hg|].
  rewrite Hd, Ht. exact Hz.
Defined.

(** With a discount rate of -100% every candidate evaluation raises a
    [ZeroDivisionError], from the discount factor [0.0 ** -1]. *)
Lemma C10_counterexample :
  (r_terminal_growth_rate ex_query_zero_base
   <? r_discount_rate ex_query_zero_base)%float = true /\
  growth_grid ex_query_zero_base = Ok [0; 0.25; 0.5; 0.75]%float /\
  Forall (fun g =>
            (inputs ← candidate_inputs ex_query_zero_base g;
             calculate_dcf float_pow_model inputs) = Raise ZeroDivisionError)
    [0; 0.25; 0.5; 0.75]%float /\
  reverse_dcf float_pow_model ex_query_zero_base = Raise ZeroDivisionError.
Proof.
  split; [reflexivity|]. split; [reflexivity|].
  split; [repeat constructor|reflexivity].
Qed.

(** * Further properties *)

(** ** The forward valuation *)

(** * Further properties of the forward model *)

Lemma is_ok_true {A} (r : result A) : is_ok r = true <-> exists a, r = Ok a.
Proof. destruct r; split; [by eexists|done|done|by intros [? ?]]. Qed.

Lemma is_ok_false {A} (r : result A) :
  is_ok r = false <-> exists e, r = Raise e.
Proof. destruct r; split; [done|by intros [? ?]|by eexists|done]. Qed.

Lemma comprehension_Forall2 {A B} (f : A -> result B) (l : list A)
      (ys : list B) :
  comprehension f l = Ok ys <-> Forall2 (fun x y => f x = Ok y) l ys.
Proof.
  revert ys. induction l as [|x l IH]; intros ys; cbn [comprehension].
  - split; [intros [= <-]; constructor|by intros ->%Forall2_nil_inv_l].
  - split.
    + intros H. apply bind_Ok_inv in H as (y & Hy & H).
      apply bind_Ok_inv in H as (ys' & Hys & [= <-]).
      constructor; [exact Hy|by apply IH].
    + intros (y & ys' & Hy & Hys & ->)%Forall2_cons_inv_l.
      apply IH in Hys. by rewrite Hy, bind_Ok, Hys, bind_Ok.
Qed.

Lemma comprehension_is_ok {A B} (f : A -> result B) (l : list A) :
  is_ok (comprehension f l) = true <-> Forall (fun x => is_ok (f x) = true) l.
Proof.
  induction l as [|x l IH]; cbn [comprehension]; [by split|].
  rewrite Forall_cons, <- IH.
  destruct (f x) as [y|e]; [|by split; [|intros []]].
  rewrite bind_Ok.
  destruct (comprehension f l) as [ys|e]; by split; [|intros []].
Qed.

Lemma py_getitem_last_nonempty {A} (l : list A) :
  l <> [] -> is_ok (py_getitem l (-1)) = true.
Proof.
  destruct l as [|x l _] using rev_ind; [done|]. intros _.
  by rewrite py_getitem_last.
Qed.

Lemma elem_of_py_range_2 (lo hi i : Z) : lo <= i < hi -> i ∈ py_range lo hi.
Proof.
  intros Hi. unfold py_range. apply list_elem_of_In, in_map_iff.
  exists (Z.to_nat (i - lo)). split; [lia|]. apply in_seq. lia.
Qed.

Section Forward_returns.

Variable float_pow : float -> Z -> result float.
Variable a : dcf_args.

(** With a well-shaped input the projection is out of the way and the
    valuation phase decides. *)
Lemma value_is_ok (fcf : list float) :
  1 <= years a -> length fcf = Z.to_nat (years a) ->
  is_ok (value float_pow a fcf) = true <->
  forall i : Z, 1 <= i <= years a ->
    is_ok (float_pow (1 + discount_rate a)%float (- i)) = true.
Proof.
  intros Hy Hlen. unfold value.
  assert (Hne : fcf <> []) by (intros ->; simpl in Hlen; lia).
  apply py_getitem_last_nonempty, is_ok_true in Hne as [x ->].
  rewrite bind_Ok.
  destruct (comprehension _ (py_range 1 (years a + 1))) as [dfs|e] eqn:Hdfs.
  - rewrite bind_Ok.
    assert (Hall : is_ok (comprehension
                     (fun i => float_pow (1 + discount_rate a)%float (- i))
                     (py_range 1 (years a + 1))) = true) by by rewrite Hdfs.
    apply comprehension_is_ok in Hall. rewrite Forall_forall in Hall.
    pose proof Hdfs as HF. apply comprehension_Forall2 in HF.
    apply Forall2_length in HF.
    assert (Hdne : dfs <> []).
    { intros ->. unfold py_range in HF. rewrite length_map, length_seq in HF.
      simpl in HF. lia. }
    apply py_getitem_last_nonempty, is_ok_true in Hdne as [y ->].
    rewrite bind_Ok. split; [|done]. intros _ i Hi.
    apply Hall, elem_of_py_range_2. lia.
  - rewrite bind_Raise. split; [done|]. intros Hall.
    assert (Hok : is_ok (comprehension
                    (fun i => float_pow (1 + discount_rate a)%float (- i))
                    (py_range 1 (years a + 1))) = true).
    { apply comprehension_is_ok, Forall_forall. intros i Hi.
      apply elem_of_py_range in Hi. apply Hall. lia. }
    by rewrite Hdfs in Hok.
Qed.

End Forward_returns.

(** X1: [calculate_dcf] returns exactly when there is at least one forecast
    year, the growth and margin series are non-empty and the power
    [(1 + discount_rate) ** -i] is defined for every [i = 1..years]. *)
Theorem calculate_dcf_returns_iff (float_pow : float -> Z -> result float)
        (a : dcf_args) :
  is_ok (calculate_dcf float_pow a) = true <->
  1 <= years a /\ revenue_growth_rates a <> [] /\ ebit_margins a <> [] /\
  forall i : Z, 1 <= i <= years a ->
    is_ok (float_pow (1 + discount_rate a)%float (- i)) = true.
Proof.
  unfold calculate_dcf.
  destruct (Z.ltb_spec (years a) 0) as [Hneg|Hnn].
  { rewrite project_negative_years by done. split; [done|lia]. }
  destruct (decide (years a = 0)) as [H0|H0].
  { rewrite project_zero_years by done. split; [done|lia]. }
  destruct (decide (revenue_growth_rates a = [])) as [Hg|Hg].
  { rewrite project_empty_growth by (done || lia). split; [done|tauto]. }
  destruct (decide (ebit_margins a = [])) as [Hm|Hm].
  { rewrite project_empty_margins by (done || lia). split; [done|tauto]. }
  assert (Hy : 1 <= years a) by lia.
  rewrite (project_series a Hy Hg Hm), bind_Ok.
  change (p_fcf (ref_projection a))
    with (tabulate (ref_fcf a) (Z.to_nat (years a))).
  pose proof (value_is_ok float_pow a
                (tabulate (ref_fcf a) (Z.to_nat (years a)))
                Hy (length_tabulate _ _)) as Hv.
  destruct (value float_pow a _) as [v|e]; rewrite ?bind_Ok, ?bind_Raise;
    cbn [is_ok] in *; tauto.
Qed.

Lemma project_raises (a : dcf_args) (e : exn) :
  project a = Raise e ->
  years a < 0 /\ e = ValueError \/
  0 <= years a /\
  (years a = 0 \/ revenue_growth_rates a = [] \/ ebit_margins a = []) /\
  e = IndexError.
Proof.
  intros He.
  destruct (Z.ltb_spec (years a) 0) as [Hneg|Hnn].
  { rewrite project_negative_years in He by done. injection He as <-.
    by left. }
  right. split; [done|].
  destruct (decide (years a = 0)) as [H0|H0].
  { rewrite project_zero_years in He by done. injection He as <-. tauto. }
  destruct (decide (revenue_growth_rates a = [])) as [Hg|Hg].
  { rewrite project_empty_growth in He by (done || lia).
    injection He as <-. tauto. }
  destruct (decide (ebit_margins a = [])) as [Hm|Hm].
  { rewrite project_empty_margins in He by (done || lia).
    injection He as <-. tauto. }
  by rewrite (project_series a ltac:(lia) Hg Hm) in He.
Qed.

Lemma value_raises (float_pow : float -> Z -> result float) (a : dcf_args)
      (fcf : list float) (e : exn) :
  1 <= years a -> length fcf = Z.to_nat (years a) ->
  value float_pow a fcf = Raise e ->
  exists i : Z, 1 <= i <= years a /\
    float_pow (1 + discount_rate a)%float (- i) = Raise e.
Proof.
  intros Hy Hlen. unfold value.
  assert (Hne : fcf <> []) by (intros ->; simpl in Hlen; lia).
  apply py_getitem_last_nonempty, is_ok_true in Hne as [x ->].
  rewrite bind_Ok.
  destruct (comprehension _ (py_range 1 (years a + 1))) as [dfs|e'] eqn:Hdfs.
  - rewrite bind_Ok. pose proof Hdfs as HF.
    apply comprehension_Forall2, Forall2_length in HF.
    assert (Hdne : dfs <> []).
    { intros ->. unfold py_range in HF. rewrite length_map, length_seq in HF.
      simpl in HF. lia. }
    apply py_getitem_last_nonempty, is_ok_true in Hdne as [y ->].
    by rewrite bind_Ok.
  - rewrite bind_Raise. intros [= ->].
    apply comprehension_raises in Hdfs as (i & Hi & Hpow).
    apply elem_of_py_range in Hi. exists i. split; [lia|exact Hpow].
Qed.

(** X2: an exception of [calculate_dcf] is a [ValueError] for a negative
    number of years, an [IndexError] for zero years or an empty growth or
    margin series, and otherwise the exception of the power behind a
    discount factor; the module adds no exception of its own. *)
Theorem calculate_dcf_exceptions (float_pow : float -> Z -> result float)
        (a : dcf_args) (e : exn) :
  calculate_dcf float_pow a = Raise e ->
  years a < 0 /\ e = ValueError \/
  0 <= years a /\
  (years a = 0 \/ revenue_growth_rates a = [] \/ ebit_margins a = []) /\
  e = IndexError \/
  1 <= years a /\ revenue_growth_rates a <> [] /\ ebit_margins a <> [] /\
  exists i : Z, 1 <= i <= years a /\
    float_pow (1 + discount_rate a)%float (- i) = Raise e.
Proof.
  unfold calculate_dcf. destruct (project a) as [p|e'] eqn:Hp.
  - rewrite bind_Ok. intros He. right. right.
    destruct (Z.ltb_spec (years a) 1) as [Hlt|Hy].
    { destruct (Z.ltb_spec (years a) 0).
      - by rewrite project_negative_years in Hp.
      - by rewrite project_zero_years in Hp by lia. }
    destruct (decide (revenue_growth_rates a = [])) as [Hg|Hg].
    { by rewrite project_empty_growth in Hp by (done || lia). }
    destruct (decide (ebit_margins a = [])) as [Hm|Hm].
    { by rewrite project_empty_margins in Hp by (done || lia). }
    do 3 (split; [done|]).
    rewrite (project_series a Hy Hg Hm) in Hp. injection Hp as <-.
    destruct (value float_pow a _) as [v|e''] eqn:Hv; [done|].
    rewrite bind_Raise in He. injection He as ->.
    eapply value_raises; [exact Hy| |exact Hv]. apply length_tabulate.
  - rewrite bind_Raise. intros [= <-].
    destruct (project_raises a e' Hp) as [?|?]; tauto.
Qed.

(** ** Series longer or shorter than the forecast *)

Lemma tabulate_ext {A} (f g : nat -> A) (n : nat) :
  (forall i, (i < n)%nat -> f i = g i) -> tabulate f n = tabulate g n.
Proof.
  intros H. induction n as [|n IH]; [reflexivity|].
  rewrite !tabulate_S, IH by (intros; apply H; lia).
  by rewrite H by lia.
Qed.

Section Series_agree.

Variable a : dcf_args.
Variables g m : list float.
Local Abbreviation n := (Z.to_nat (years a)).
Local Abbreviation a' := (with_series a g m).

Hypothesis Hgrowth : forall i, (i < n)%nat -> growth_at a' i = growth_at a i.
Hypothesis Hmargin : forall i, (i < n)%nat -> margin_at a' i = margin_at a i.

Lemma ref_revenue_agree (i : nat) :
  (i < n)%nat -> ref_revenue a' i = ref_revenue a i.
Proof.
  induction i as [|i IH]; intros Hi; cbn [ref_revenue].
  - by rewrite Hgrowth.
  - by rewrite IH, Hgrowth by lia.
Qed.

Lemma ref_nwc_level_agree (i : nat) :
  (i <= n)%nat -> ref_nwc_level a' i = ref_nwc_level a i.
Proof.
  destruct i as [|i]; intros Hi; cbn [ref_nwc_level]; [reflexivity|].
  by rewrite ref_revenue_agree by lia.
Qed.

Lemma ref_projection_agree : ref_projection a' = ref_projection a.
Proof.
  unfold ref_projection. change (Z.to_nat (years a')) with n.
  f_equal; apply tabulate_ext; intros i Hi;
    unfold ref_fcf, ref_nopat, ref_nwc_change, ref_capex, ref_ebit;
    rewrite ?ref_nwc_level_agree, ?ref_revenue_agree, ?Hmargin by lia;
    reflexivity.
Qed.

Lemma calculate_dcf_agree (float_pow : float -> Z -> result float) :
  revenue_growth_rates a <> [] -> ebit_margins a <> [] ->
  g <> [] -> m <> [] ->
  calculate_dcf float_pow a' = calculate_dcf float_pow a.
Proof.
  intros Hg Hm Hg' Hm'. unfold calculate_dcf.
  destruct (Z.ltb_spec (years a) 0) as [Hneg|Hnn].
  { by rewrite !project_negative_years. }
  destruct (decide (years a = 0)) as [H0|H0].
  { by rewrite !project_zero_years. }
  assert (Hy : 1 <= years a) by lia.
  rewrite (project_series a Hy Hg Hm).
  rewrite (project_series a' Hy Hg' Hm'), ref_projection_agree.
  reflexivity.
Qed.

End Series_agree.

Lemma clamped_take (l : list float) (n i : nat) :
  (i < n <= length l)%nat ->
  nth (clamp (take n l) i) (take n l) 0%float = nth (clamp l i) l 0%float.
Proof.
  intros Hi. unfold clamp. rewrite length_take_le by lia.
  rewrite !Nat.min_l by lia. by rewrite !nth_lookup, lookup_take_lt by lia.
Qed.

Lemma clamped_pad (l : list float) (k i : nat) :
  l <> [] ->
  let padded := l ++ replicate k (default 0%float (last l)) in
  nth (clamp padded i) padded 0%float = nth (clamp l i) l 0%float.
Proof.
  intros Hl padded. unfold clamp, padded.
  assert (0 < length l)%nat by (destruct l; [done|simpl; lia]).
  rewrite length_app, length_replicate, !nth_lookup.
  destruct (decide (i < length l)%nat) as [Hi|Hi].
  - rewrite !Nat.min_l by lia. by rewrite lookup_app_l by lia.
  - rewrite (Nat.min_r i (length l - 1)) by lia.
    rewrite last_lookup.
    replace (pred (length l)) with (length l - 1)%nat by lia.
    destruct (decide (k = 0)%nat) as [->|Hk].
    + rewrite Nat.add_0_r, Nat.min_r by lia. by rewrite lookup_app_l by lia.
    + rewrite lookup_app_r by lia. rewrite lookup_replicate_2 by lia.
      reflexivity.
Qed.

(** X3: entries of the growth and margin series beyond the forecast years
    are never read: cutting both series down to their first [years] entries
    changes neither the result nor the exception of [calculate_dcf]. *)
Theorem calculate_dcf_ignores_later_entries
        (float_pow : float -> Z -> result float) (a : dcf_args) :
  years a <= py_len (revenue_growth_rates a) ->
  years a <= py_len (ebit_margins a) ->
  let n := Z.to_nat (years a) in
  calculate_dcf float_pow
    (with_series a (take n (revenue_growth_rates a)) (take n (ebit_margins a)))
  = calculate_dcf float_pow a.
Proof.
  intros Hg Hm n. unfold py_len in Hg, Hm.
  destruct (Z.ltb_spec (years a) 0) as [Hneg|Hnn].
  { unfold calculate_dcf. by rewrite !project_negative_years. }
  destruct (decide (years a = 0)) as [H0|H0].
  { unfold calculate_dcf. by rewrite !project_zero_years. }
  assert (Hne : forall l : list float,
            years a <= Z.of_nat (length l) -> l <> [] /\ take n l <> []).
  { intros l Hl. assert (n = S (n - 1)) as -> by (unfold n; lia).
    destruct l; [simpl in Hl; lia|done]. }
  apply calculate_dcf_agree; try (by apply Hne).
  - intros i Hi. apply clamped_take. unfold n in *. lia.
  - intros i Hi. apply clamped_take. unfold n in *. lia.
Qed.

(** X4: a series shorter than the forecast stands for the series continued
    with its last entry: appending any number of copies of the last growth
    rate and of the last margin changes neither the result nor the exception
    of [calculate_dcf]. *)
Theorem calculate_dcf_padding (float_pow : float -> Z -> result float)
        (a : dcf_args) (k j : nat) :
  revenue_growth_rates a <> [] -> ebit_margins a <> [] ->
  calculate_dcf float_pow
    (with_series a
       (revenue_growth_rates a
        ++ replicate k (default 0%float (last (revenue_growth_rates a))))
       (ebit_margins a
        ++ replicate j (default 0%float (last (ebit_margins a)))))
  = calculate_dcf float_pow a.
Proof.
  intros Hg Hm. apply calculate_dcf_agree; try done.
  - intros i _. by apply clamped_pad.
  - intros i _. by apply clamped_pad.
  - by destruct (revenue_growth_rates a).
  - by destruct (ebit_margins a).
Qed.

(** * Further properties of the sweeps *)

Lemma bind_assoc {A B C} (m : result A) (f : A -> result B)
      (g : B -> result C) :
  ((m ≫= f) ≫= g) = (m ≫= fun x => f x ≫= g).
Proof. by destruct m. Qed.

Lemma for_each_ext {A S} (f g : A -> S -> result S) (xs : list A) (s : S) :
  (forall x s', f x s' = g x s') -> for_each xs f s = for_each xs g s.
Proof.
  intros H. revert s. induction xs as [|x xs IH]; intros s; [reflexivity|].
  cbn [for_each]. rewrite H. destruct (g x s); [apply IH|reflexivity].
Qed.

Section Table_loop.

Context {R : Type}.
Variable table : string -> result (list R).

Local Abbreviation body :=
  (fun (var : string) (results : gmap string (list R)) =>
     rows ← table var; Ok (<[var := rows]> results)).

Lemma table_loop_is_ok (vars : list string) (init : gmap string (list R)) :
  is_ok (for_each vars body init) = true <->
  Forall (fun var => is_ok (table var) = true) vars.
Proof.
  revert init. induction vars as [|var vars IH]; intros init;
    [by split|]. cbn [for_each]. rewrite Forall_cons.
  destruct (table var) as [rows|e]; rewrite ?bind_Ok, ?bind_Raise;
    cbn [is_ok]; [|by split; [|intros []]].
  rewrite IH. by split; [|intros []].
Qed.

Lemma table_loop_result (vars : list string) (init res : gmap string (list R)) :
  for_each vars body init = Ok res ->
  dom res = (dom init ∪ list_to_set vars) /\
  forall var rows, res !! var = Some rows ->
    (var ∈ vars /\ table var = Ok rows) \/
    ((var ∉ vars) /\ init !! var = Some rows).
Proof.
  revert init. induction vars as [|var vars IH]; intros init.
  - intros [= <-].
    split; [cbn [list_to_set]; by rewrite (right_id_L ∅ (∪))|].
    intros var rows H. right. split; [apply not_elem_of_nil|exact H].
  - cbn [for_each].
    destruct (table var) as [rows|e] eqn:Hrows; [|done].
    rewrite !bind_Ok. intros Hres. destruct (IH _ Hres) as [Hdom Hlook].
    split.
    { rewrite Hdom, dom_insert_L. cbn [list_to_set].
      rewrite (comm_L (∪) {[var]} (dom init)). by rewrite (assoc_L (∪)). }
    intros var' rows' H. destruct (Hlook var' rows' H) as [[Hin Ht]|[Hnin Hi]].
    + left. split; [by apply list_elem_of_further|exact Ht].
    + destruct (decide (var' = var)) as [->|Hne].
      * rewrite lookup_insert_eq in Hi. injection Hi as <-.
        left. split; [apply list_elem_of_here|exact Hrows].
      * rewrite lookup_insert_ne in Hi by done. right.
        split; [by apply not_elem_of_cons|exact Hi].
Qed.

End Table_loop.

Section Sweep_shape.

Variable float_pow : float -> Z -> result float.
Variable untyped_dcf : gmap string pyval -> result dcf_result.
Variable base_inputs : gmap string pyval.
Variable ranges : gmap string (list pyval).

Lemma sensitivity_analysis_loop (variables : list string) :
  sensitivity_analysis float_pow untyped_dcf base_inputs variables ranges
  = (base ← call_calculate_dcf float_pow untyped_dcf base_inputs;
     for_each variables
       (fun var results =>
          rows ← sensitivity_table float_pow untyped_dcf base_inputs
                   (enterprise_value base) ranges var;
          Ok (<[var := rows]> results)) ∅).
Proof.
  unfold sensitivity_analysis.
  destruct (call_calculate_dcf float_pow untyped_dcf base_inputs) as [base|e];
    [|reflexivity].
  rewrite !bind_Ok. apply for_each_ext. intros var results.
  unfold sensitivity_table.
  destruct (dict_getitem base_inputs var) as [v|e]; [|reflexivity].
  destruct (dict_getitem ranges var) as [rng|e]; [|reflexivity].
  reflexivity.
Qed.

Lemma sensitivity_row_input (base_value : float) (var : string)
      (v pct : pyval) (row : sens_row) :
  sensitivity_row float_pow untyped_dcf base_inputs base_value var v pct
    = Ok row ->
  change_in_input row = pct.
Proof.
  unfold sensitivity_row. intros H.
  apply bind_Ok_inv in H as (v' & _ & H).
  apply bind_Ok_inv in H as (r & _ & H).
  apply bind_Ok_inv in H as (u & _ & H). by injection H as <-.
Qed.

Lemma sensitivity_table_inputs (base_value : float) (var : string)
      (rows : list sens_row) :
  sensitivity_table float_pow untyped_dcf base_inputs base_value ranges var
    = Ok rows ->
  exists v rng, base_inputs !! var = Some v /\ ranges !! var = Some rng /\
    Forall2 (fun pct row =>
               sensitivity_row float_pow untyped_dcf base_inputs base_value var
                 v pct
               = Ok row) rng rows /\
    map change_in_input rows = rng.
Proof.
  unfold sensitivity_table, dict_getitem. intros H.
  destruct (base_inputs !! var) as [v|]; [|done].
  destruct (ranges !! var) as [rng|]; [|done].
  rewrite !bind_Ok in H. apply comprehension_Forall2 in H.
  exists v, rng. do 3 (split; [done|]).
  induction H as [|pct row rng rows Hrow _ IH]; [reflexivity|].
  cbn [map]. by rewrite IH, (sensitivity_row_input _ _ _ _ _ Hrow).
Qed.

End Sweep_shape.

(** X5: when [sensitivity_analysis] returns, its result has exactly the
    swept variables as keys, and the table of each variable has one row per
    perturbation of its range, in the order of the range: the inputs recorded
    in the rows are the range itself (an empty range gives an empty
    table). *)
Theorem sensitivity_analysis_shape (float_pow : float -> Z -> result float)
        (untyped_dcf : gmap string pyval -> result dcf_result)
        (base_inputs : gmap string pyval) (variables : list string)
        (ranges : gmap string (list pyval))
        (results : gmap string (list sens_row)) :
  sensitivity_analysis float_pow untyped_dcf base_inputs variables ranges
    = Ok results ->
  dom results = list_to_set variables /\
  forall var rows, results !! var = Some rows ->
    ranges !! var = Some (map change_in_input rows).
Proof.
  rewrite sensitivity_analysis_loop. intros H.
  apply bind_Ok_inv in H as (base & _ & H).
  apply table_loop_result in H as [Hdom Hlook].
  split; [by rewrite Hdom, dom_empty_L, (left_id_L ∅ (∪))|].
  intros var rows Hrows.
  destruct (Hlook var rows Hrows) as [[_ Ht]|[_ Hi]]; [|done].
  apply sensitivity_table_inputs in Ht as (v & rng & _ & -> & _ & ->).
  reflexivity.
Qed.

(** X6: [sensitivity_analysis] returns exactly when the base case evaluates,
    every swept variable is a key of both the base inputs and the ranges,
    and every row of every table evaluates; a single unknown variable or
    failing perturbation leaves no partial result. *)
Theorem sensitivity_analysis_returns_iff
        (float_pow : float -> Z -> result float)
        (untyped_dcf : gmap string pyval -> result dcf_result)
        (base_inputs : gmap string pyval) (variables : list string)
        (ranges : gmap string (list pyval)) :
  is_ok (sensitivity_analysis float_pow untyped_dcf base_inputs variables
    ranges) = true
  <->
  exists base : dcf_result,
    call_calculate_dcf float_pow untyped_dcf base_inputs = Ok base /\
    Forall (fun var =>
              exists v rng,
                base_inputs !! var = Some v /\ ranges !! var = Some rng /\
                Forall (fun pct =>
                          is_ok (sensitivity_row float_pow untyped_dcf
                            base_inputs
                                   (enterprise_value base) var v pct) = true)
                       rng) variables.
Proof.
  rewrite sensitivity_analysis_loop.
  destruct (call_calculate_dcf float_pow untyped_dcf base_inputs) as [base|e].
  2:{ split; [done|]. by intros (base & ? & _). }
  rewrite bind_Ok, table_loop_is_ok. split.
  - intros H. exists base. split; [done|].
    eapply Forall_impl; [exact H|]. intros var Hvar. cbn beta in Hvar.
    unfold sensitivity_table, dict_getitem in Hvar.
    destruct (base_inputs !! var) as [v|]; [|done].
    destruct (ranges !! var) as [rng|]; [|done].
    rewrite !bind_Ok in Hvar. apply comprehension_is_ok in Hvar.
    by exists v, rng.
  - intros (base' & [= <-] & H). eapply Forall_impl; [exact H|].
    intros var (v & rng & Hv & Hr & Hrows). cbn beta.
    unfold sensitivity_table, dict_getitem. rewrite Hv, Hr, !bind_Ok.
    by apply comprehension_is_ok.
Qed.

(** * Further properties of the reverse search *)

Section Reverse_search.

Variable float_pow : float -> Z -> result float.
Variable q : reverse_args.

Lemma scan_step_unfold (g : float) (st : option float * float) :
  scan_step float_pow q g st
  = (difference ← candidate_difference float_pow q g;
     if (difference <? st.2)%float then Ok (Some g, difference) else Ok st).
Proof. reflexivity. Qed.

(** The scan runs through exactly when every candidate evaluates, whatever
    the state it started from. *)
Lemma scan_is_ok (grid : list float) (st : option float * float) :
  is_ok (for_each grid (scan_step float_pow q) st) = true <->
  Forall (fun g => is_ok (candidate_difference float_pow q g) = true) grid.
Proof.
  revert st. induction grid as [|g grid IH]; intros st; [by split|].
  cbn [for_each]. rewrite Forall_cons, scan_step_unfold.
  destruct (candidate_difference float_pow q g) as [d|e];
    rewrite ?bind_Ok, ?bind_Raise; cbn [is_ok]; [|by split; [|intros []]].
  destruct (d <? st.2)%float; rewrite bind_Ok, IH; by split; [|intros []].
Qed.

Lemma scan_differences (grid : list float) (st st' : option float * float) :
  for_each grid (scan_step float_pow q) st = Ok st' ->
  exists ds,
    Forall2 (fun g d => candidate_difference float_pow q g = Ok d) grid ds.
Proof.
  intros H. assert (Hok : is_ok (for_each grid (scan_step float_pow q) st)
                          = true) by (by rewrite H).
  apply scan_is_ok in Hok. clear H.
  induction Hok as [|g grid Hg _ [ds IH]]; [by exists []|].
  apply is_ok_true in Hg as [d Hd]. exists (d :: ds). by constructor.
Qed.

Lemma reverse_dcf_scan (o : option float) :
  reverse_dcf float_pow q = Ok o ->
  exists grid ds st,
    growth_grid q = Ok grid /\
    Forall2 (fun g d => candidate_difference float_pow q g = Ok d) grid ds /\
    scanned grid ds st /\ st.1 = o.
Proof.
  unfold reverse_dcf. intros H.
  apply bind_Ok_inv in H as (grid & Hgrid & H).
  apply bind_Ok_inv in H as (st & Hst & [= <-]).
  destruct (scan_differences _ _ _ Hst) as [ds Hds].
  destruct (scan_invariant float_pow q grid ds Hds) as (st' & Hst' & Hinv).
  rewrite Hst in Hst'. injection Hst' as <-. by exists grid, ds, st.
Qed.

End Reverse_search.

(** X7: [reverse_dcf] returns exactly when the grid can be built and every
    candidate of it evaluates: a candidate that fails aborts the search,
    also when an earlier candidate had already been kept. *)
Theorem reverse_dcf_returns_iff (float_pow : float -> Z -> result float)
        (q : reverse_args) :
  is_ok (reverse_dcf float_pow q) = true <->
  exists grid : list float,
    growth_grid q = Ok grid /\
    Forall (fun g => is_ok (candidate_difference float_pow q g) = true) grid.
Proof.
  unfold reverse_dcf. destruct (growth_grid q) as [grid|e].
  2:{ split; [done|]. by intros (grid & ? & _). }
  rewrite bind_Ok. split.
  - intros H. exists grid. split; [done|].
    apply scan_is_ok with (None, infinity).
    destruct (for_each _ _ _); [done|by rewrite bind_Raise in H].
  - intros (grid' & [= <-] & H).
    apply (scan_is_ok float_pow q grid (None, infinity)) in H.
    apply is_ok_true in H as [st ->]. by rewrite bind_Ok.
Qed.

(** X8: a growth rate returned by [reverse_dcf] is a point of the grid whose
    evaluation returned with an absolute difference below infinity; the
    search never answers with a candidate whose difference is infinite or
    not a number. *)
Theorem reverse_dcf_answer_scanned (float_pow : float -> Z -> result float)
        (q : reverse_args) (g : float) :
  reverse_dcf float_pow q = Ok (Some g) ->
  exists (grid : list float) (d : float),
    growth_grid q = Ok grid /\ g ∈ grid /\
    candidate_difference float_pow q g = Ok d /\
    (d <? infinity)%float = true.
Proof.
  intros H.
  apply reverse_dcf_scan in H as (grid & ds & st & Hgrid & Hds & Hinv & Hst).
  destruct Hinv as [[-> _]|(k & g' & dk & Hk & Hdk & -> & Hlt & _)];
    [discriminate Hst|]. injection Hst as ->.
  exists grid, dk. split; [exact Hgrid|].
  split; [by eapply list_elem_of_lookup_2|]. split; [|exact Hlt].
  exact (Forall2_lookup_lr _ _ _ _ _ _ Hds Hk Hdk).
Qed.

(** X9: when every candidate evaluates, [reverse_dcf] answers [None] exactly
    when no candidate's difference is below infinity, that is when every
    difference is infinite or not a number (as it is on an empty grid). *)
Theorem reverse_dcf_None_iff (float_pow : float -> Z -> result float)
        (q : reverse_args) (grid ds : list float) :
  growth_grid q = Ok grid ->
  Forall2 (fun g d => candidate_difference float_pow q g = Ok d) grid ds ->
  reverse_dcf float_pow q = Ok None <->
  Forall (fun d => (d <? infinity)%float = false) ds.
Proof.
  intros Hgrid Hds. unfold reverse_dcf. rewrite Hgrid, bind_Ok.
  destruct (scan_invariant float_pow q grid ds Hds) as (st & -> & Hinv).
  rewrite bind_Ok.
  destruct Hinv as [[-> Hall]|(k & g & dk & _ & Hdk & -> & Hlt & _)].
  - split; [intros _|done]. apply Forall_lookup. intros j dj Hj.
    by apply (Hall j).
  - split; [done|]. intros Hall.
    rewrite Forall_lookup in Hall. by rewrite (Hall k dk Hdk) in Hlt.
Qed.

(** X10: the forecast horizon of [reverse_dcf] is only looked at inside the
    scan. On a non-empty grid a horizon that is not an int raises a
    [TypeError] at the repetition of the growth rate, a negative horizon a
    [ValueError] and a horizon of zero an [IndexError], both from the first
    candidate's evaluation. *)
Theorem reverse_dcf_horizon_raises (float_pow : float -> Z -> result float)
        (q : reverse_args) (g : float) (grid : list float) :
  growth_grid q = Ok (g :: grid) ->
  match r_years q with
  | VInt k => k < 1
  | _ => True
  end ->
  reverse_dcf float_pow q
  = Raise match r_years q with
          | VInt k => if k <? 0 then ValueError else IndexError
          | _ => TypeError
          end.
Proof.
  intros Hgrid Hy. unfold reverse_dcf. rewrite Hgrid, bind_Ok.
  cbn [for_each]. rewrite scan_step_unfold.
  unfold candidate_difference, candidate_inputs.
  destruct (r_years q) as [x|k|l|l]; try reflexivity.
  cbn [py_repeat1 int_arg]. rewrite !bind_Ok.
  set (a := DcfArgs _ _ _ _ _ _ _ _ _).
  assert (Ha : calculate_dcf float_pow a
               = Raise (if k <? 0 then ValueError else IndexError)).
  { unfold calculate_dcf. destruct (Z.ltb_spec k 0) as [Hneg|Hnn].
    - by rewrite project_negative_years.
    - assert (k = 0) as -> by lia. by rewrite project_zero_years. }
  by rewrite Ha.
Qed.

(** X20: the growth array [[growth] * years] built for a candidate is more
    than [calculate_dcf] needs: because the growth index is clamped to the
    last entry, the one-entry series [[growth]] gives the same result and
    the same exception. *)
Theorem candidate_flat_series (float_pow : float -> Z -> result float)
        (q : reverse_args) (g : float) (a : dcf_args) :
  candidate_inputs q g = Ok a ->
  calculate_dcf float_pow (with_series a [g] (ebit_margins a))
  = calculate_dcf float_pow a.
Proof.
  unfold candidate_inputs.
  destruct (r_years q) as [x|k|l|l]; try discriminate.
  cbn [py_repeat1 int_arg]. rewrite !bind_Ok. intros [= <-].
  set (a := DcfArgs _ _ _ _ _ _ _ _ _).
  destruct (Z.ltb_spec k 0) as [Hneg|Hnn].
  { unfold calculate_dcf. by rewrite !project_negative_years. }
  destruct (decide (k = 0)) as [H0|H0].
  { unfold calculate_dcf. by rewrite !project_zero_years. }
  assert (Hrep : revenue_growth_rates a <> []).
  { cbn. destruct (Z.to_nat k) eqn:Hk; [lia|done]. }
  destruct (decide (ebit_margins a = [])) as [Hm|Hm].
  { unfold calculate_dcf.
    rewrite (project_empty_margins a),
      (project_empty_margins (with_series a _ _));
      cbn; try done; lia. }
  apply calculate_dcf_agree; try done.
  intros i _. unfold growth_at, clamp. cbn [with_series revenue_growth_rates a].
  rewrite Nat.min_0_r. cbn [nth].
  rewrite nth_lookup, lookup_replicate_2; [done|].
  rewrite length_replicate. lia.
Qed.

(** * Degenerate base values *)

(** A quotient by zero is an infinity or not a number. *)
Lemma div_zero_not_finite (x y : float) :
  is_zero y = true -> is_finite (x / y) = false.
Proof.
  unfold is_finite.
  rewrite is_zero_spec, is_nan_spec, is_infinity_spec, div_spec.
  destruct (Prim2SF y) as [s|s| |s m e]; try discriminate. intros _.
  destruct (Prim2SF x) as [s'|s'| |s' m' e']; reflexivity.
Qed.

(** A finite value has a zero difference to itself. *)
Lemma sub_self_zero (x : float) :
  is_finite x = true -> is_zero (x - x) = true.
Proof.
  unfold is_finite.
  rewrite is_nan_spec, is_infinity_spec, is_zero_spec, sub_spec.
  destruct (Prim2SF x) as [s|s| |s m e]; try discriminate; intros _.
  - by destruct s.
  - unfold SF64sub, SFsub. rewrite Z.sub_diag. by destruct s.
Qed.

Lemma sensitivity_row_value_change (float_pow : float -> Z -> result float)
      (untyped_dcf : gmap string pyval -> result dcf_result)
      (base_inputs : gmap string pyval) (base_value : float) (var : string)
      (v pct : pyval) (row : sens_row) :
  sensitivity_row float_pow untyped_dcf base_inputs base_value var v pct
    = Ok row ->
  value_change row
  = ((row_enterprise_value row - base_value) / base_value)%float.
Proof.
  unfold sensitivity_row. intros H.
  apply bind_Ok_inv in H as (v' & _ & H).
  apply bind_Ok_inv in H as (r & _ & H).
  apply bind_Ok_inv in H as (u & _ & H). by injection H as <-.
Qed.

(** The base value enters a row only through the relative change, which
    is a numpy division: it has no part in whether the row raises. *)
Lemma sensitivity_row_is_ok (float_pow : float -> Z -> result float)
      (untyped_dcf : gmap string pyval -> result dcf_result)
      (base_inputs : gmap string pyval) (base_value base_value' : float)
      (var : string) (v pct : pyval) :
  is_ok (sensitivity_row float_pow untyped_dcf base_inputs base_value var v pct)
  = is_ok (sensitivity_row float_pow untyped_dcf base_inputs base_value' var v
    pct).
Proof.
  unfold sensitivity_row.
  destruct (modified_value v pct) as [v'|e]; [|reflexivity].
  rewrite !bind_Ok.
  destruct (call_calculate_dcf _ _) as [r|e]; [|reflexivity].
  rewrite !bind_Ok. by destruct (py_format_percent pct).
Qed.

(** X11: the relative change of a row is a numpy division and never raises:
    whether a row evaluates does not depend on the base enterprise value.
    When that value is zero, the value change of every row of every table
    that [sensitivity_analysis] returns is an infinity or not a number. *)
Theorem sensitivity_analysis_zero_base
        (float_pow : float -> Z -> result float)
        (untyped_dcf : gmap string pyval -> result dcf_result)
        (base_inputs : gmap string pyval) (variables : list string)
        (ranges : gmap string (list pyval)) (base : dcf_result)
        (results : gmap string (list sens_row)) :
  call_calculate_dcf float_pow untyped_dcf base_inputs = Ok base ->
  is_zero (enterprise_value base) = true ->
  sensitivity_analysis float_pow untyped_dcf base_inputs variables ranges
    = Ok results ->
  (forall (var : string) (v pct : pyval) (base_value : float),
     is_ok (sensitivity_row float_pow untyped_dcf base_inputs (enterprise_value
       base)
              var v pct)
     = is_ok (sensitivity_row float_pow untyped_dcf base_inputs base_value var v
       pct)) /\
  forall var rows row,
    results !! var = Some rows -> row ∈ rows ->
    is_finite (value_change row) = false.
Proof.
  intros Hbase Hz H.
  split; [intros; apply sensitivity_row_is_ok|].
  intros var rows row Hrows Hrow.
  rewrite sensitivity_analysis_loop, Hbase, bind_Ok in H.
  apply table_loop_result in H as [_ Hlook].
  destruct (Hlook var rows Hrows) as [[_ Ht]|[_ Hi]]; [|done].
  apply sensitivity_table_inputs in Ht as (v & rng & _ & _ & HF & _).
  apply list_elem_of_lookup in Hrow as [i Hi].
  destruct (Forall2_lookup_r _ _ _ _ _ HF Hi) as (pct & _ & Hr).
  rewrite (sensitivity_row_value_change _ _ _ _ _ _ _ _ Hr).
  by apply div_zero_not_finite.
Qed.

(** * The reverse sweep *)

Section Reverse_sweep.

Variable float_pow : float -> Z -> result float.
Variable untyped_reverse_dcf : gmap string pyval -> result (option float).
Variable base_inputs : gmap string pyval.
Variable ranges : gmap string (list pyval).

Lemma reverse_dcf_sensitivity_loop (variables : list string) :
  reverse_dcf_sensitivity float_pow untyped_reverse_dcf base_inputs variables
    ranges
  = (base_growth ← call_reverse_dcf float_pow untyped_reverse_dcf base_inputs;
     for_each variables
       (fun var results =>
          rows ← reverse_sensitivity_table float_pow untyped_reverse_dcf
            base_inputs base_growth
                   ranges var;
          Ok (<[var := rows]> results)) ∅).
Proof.
  unfold reverse_dcf_sensitivity.
  destruct (call_reverse_dcf float_pow untyped_reverse_dcf base_inputs) as
    [base|e];
    [|reflexivity].
  rewrite !bind_Ok. apply for_each_ext. intros var results.
  unfold reverse_sensitivity_table.
  destruct (dict_getitem base_inputs var) as [v|e]; [|reflexivity].
  destruct (dict_getitem ranges var) as [rng|e]; [|reflexivity].
  reflexivity.
Qed.

(** What a row of the reverse sweep records. *)
Lemma reverse_sensitivity_row_Ok (base_growth : option float) (var : string)
      (v pct : pyval) (row : rev_row) :
  reverse_sensitivity_row float_pow untyped_reverse_dcf base_inputs base_growth
    var v pct = Ok row
  ->
  exists (w v' : pyval) (b : float),
    py_add_one pct = Ok w /\ py_mul v w = Ok v' /\
    call_reverse_dcf float_pow untyped_reverse_dcf (modified_inputs base_inputs
      var v')
    = Ok (Some (implied_growth row)) /\
    base_growth = Some b /\
    rev_change_in_input row = pct /\
    growth_delta row = (implied_growth row - b)%float.
Proof.
  unfold reverse_sensitivity_row. intros H.
  apply bind_Ok_inv in H as (w & Hw & H).
  apply bind_Ok_inv in H as (v' & Hv' & H).
  apply bind_Ok_inv in H as (implied & Himp & H).
  apply bind_Ok_inv in H as (u & _ & H).
  apply bind_Ok_inv in H as (g & Hg & H).
  apply bind_Ok_inv in H as (b & Hb & H). injection H as <-.
  destruct implied as [g'|]; [|discriminate]. injection Hg as ->.
  destruct base_growth as [b'|]; [|discriminate]. injection Hb as ->.
  by exists w, v', b.
Qed.

Lemma reverse_sensitivity_table_Ok (base_growth : option float) (var : string)
      (rows : list rev_row) :
  reverse_sensitivity_table float_pow untyped_reverse_dcf base_inputs
    base_growth ranges var
  = Ok rows ->
  exists v rng, base_inputs !! var = Some v /\ ranges !! var = Some rng /\
    Forall2 (fun pct row =>
               reverse_sensitivity_row float_pow untyped_reverse_dcf base_inputs
                 base_growth var
                 v pct = Ok row) rng rows /\
    map rev_change_in_input rows = rng.
Proof.
  unfold reverse_sensitivity_table, dict_getitem. intros H.
  destruct (base_inputs !! var) as [v|]; [|done].
  destruct (ranges !! var) as [rng|]; [|done].
  rewrite !bind_Ok in H. apply comprehension_Forall2 in H.
  exists v, rng. do 3 (split; [done|]).
  induction H as [|pct row rng rows Hrow _ IH]; [reflexivity|].
  cbn [map]. rewrite IH.
  by destruct (reverse_sensitivity_row_Ok _ _ _ _ _ Hrow)
    as (_ & _ & _ & _ & _ & _ & _ & -> & _).
Qed.

Lemma reverse_dcf_sensitivity_Ok (variables : list string)
      (results : gmap string (list rev_row)) :
  reverse_dcf_sensitivity float_pow untyped_reverse_dcf base_inputs variables
    ranges = Ok results
  ->
  exists base_growth,
    call_reverse_dcf float_pow untyped_reverse_dcf base_inputs = Ok base_growth
      /\
    dom results = list_to_set variables /\
    forall var rows, results !! var = Some rows ->
      exists v rng, base_inputs !! var = Some v /\ ranges !! var = Some rng /\
        Forall2 (fun pct row =>
                   reverse_sensitivity_row float_pow untyped_reverse_dcf
                     base_inputs base_growth
                     var v pct = Ok row) rng rows /\
        map rev_change_in_input rows = rng.
Proof.
  rewrite reverse_dcf_sensitivity_loop. intros H.
  apply bind_Ok_inv in H as (base_growth & Hbase & H).
  apply table_loop_result in H as [Hdom Hlook]. exists base_growth.
  split; [exact Hbase|].
  split; [by rewrite Hdom, dom_empty_L, (left_id_L ∅ (∪))|].
  intros var rows Hrows.
  destruct (Hlook var rows Hrows) as [[_ Ht]|[_ Hi]]; [|done].
  by apply reverse_sensitivity_table_Ok.
Qed.

End Reverse_sweep.

(** X12: what [reverse_dcf_sensitivity] returns. The result has exactly the
    swept variables as keys; the table of a variable has one row per
    perturbation of its range, in order; and every row records a growth rate
    that [reverse_dcf] found on the base dictionary with the entry scaled as
    a whole by [1 + pct_change], next to its difference to the growth rate
    found on the base dictionary itself. *)
Theorem reverse_dcf_sensitivity_rows
        (float_pow : float -> Z -> result float)
        (untyped_reverse_dcf : gmap string pyval -> result (option float))
        (base_inputs : gmap string pyval) (variables : list string)
        (ranges : gmap string (list pyval))
        (results : gmap string (list rev_row)) :
  reverse_dcf_sensitivity float_pow untyped_reverse_dcf base_inputs variables
    ranges = Ok results
  ->
  dom results = list_to_set variables /\
  forall var rows, results !! var = Some rows ->
    exists v, base_inputs !! var = Some v /\
      ranges !! var = Some (map rev_change_in_input rows) /\
      forall row, row ∈ rows ->
        exists (w v' : pyval) (b : float),
          py_add_one (rev_change_in_input row) = Ok w /\
          py_mul v w = Ok v' /\
          call_reverse_dcf float_pow untyped_reverse_dcf (<[var := v']>
            base_inputs)
          = Ok (Some (implied_growth row)) /\
          call_reverse_dcf float_pow untyped_reverse_dcf base_inputs = Ok (Some
            b) /\
          growth_delta row = (implied_growth row - b)%float.
Proof.
  intros H.
  apply reverse_dcf_sensitivity_Ok in H as (bg & Hbase & Hdom & Htab).
  split; [exact Hdom|]. intros var rows Hrows.
  destruct (Htab var rows Hrows) as (v & rng & Hv & Hr & HF & Hmap).
  exists v. split; [exact Hv|]. split; [by rewrite Hmap|].
  intros row Hrow. apply list_elem_of_lookup in Hrow as [i Hi].
  destruct (Forall2_lookup_r _ _ _ _ _ HF Hi) as (pct & _ & Hrow).
  apply reverse_sensitivity_row_Ok
    in Hrow as (w & v' & b & Hw & Hv' & Himp & -> & <- & Hd).
  by exists w, v', b.
Qed.

(** X13: when [reverse_dcf] finds no growth rate for the base dictionary, the
    reverse sweep never produces a row: formatting the difference to [None]
    raises, so the sweep can only return tables without rows, for ranges
    that are empty. *)
Theorem reverse_dcf_sensitivity_no_base
        (float_pow : float -> Z -> result float)
        (untyped_reverse_dcf : gmap string pyval -> result (option float))
        (base_inputs : gmap string pyval) (variables : list string)
        (ranges : gmap string (list pyval))
        (results : gmap string (list rev_row)) :
  call_reverse_dcf float_pow untyped_reverse_dcf base_inputs = Ok None ->
  reverse_dcf_sensitivity float_pow untyped_reverse_dcf base_inputs variables
    ranges = Ok results
  ->
  forall var, var ∈ variables ->
    results !! var = Some [] /\ ranges !! var = Some [].
Proof.
  intros Hnone H var Hvar.
  apply reverse_dcf_sensitivity_Ok in H as (bg & Hbase & Hdom & Htab).
  rewrite Hnone in Hbase. injection Hbase as <-.
  assert (Hin : var ∈ dom results) by (by rewrite Hdom, elem_of_list_to_set).
  apply elem_of_dom in Hin as [rows Hrows].
  destruct (Htab var rows Hrows) as (v & rng & _ & Hr & HF & _).
  destruct HF as [|pct row rng rows Hrow _]; [done|].
  by apply reverse_sensitivity_row_Ok
    in Hrow as (? & ? & ? & _ & _ & _ & ? & _).
Qed.

(** X14: a perturbation by the int [0] in the reverse sweep leaves every kind
    of entry as it is (a number is multiplied by one, a sequence repeated
    once), so the row repeats the base growth rate, with a difference of
    zero when that rate is finite. *)
Theorem reverse_sweep_zero_perturbation
        (float_pow : float -> Z -> result float)
        (untyped_reverse_dcf : gmap string pyval -> result (option float))
        (base_inputs : gmap string pyval) (var : string) (v : pyval)
        (g : float) :
  call_reverse_dcf float_pow untyped_reverse_dcf base_inputs = Ok (Some g) ->
  base_inputs !! var = Some v ->
  reverse_sensitivity_row float_pow untyped_reverse_dcf base_inputs (Some g) var
    v (VInt 0)
  = Ok (RevRow (VInt 0) g (g - g)) /\
  reverse_dcf_sensitivity float_pow untyped_reverse_dcf base_inputs [var] {[var
    := [VInt 0]]}
  = Ok {[var := [RevRow (VInt 0) g (g - g)]]} /\
  (is_finite g = true -> is_zero (g - g) = true).
Proof.
  intros Hbase Hv.
  assert (Hrow : reverse_sensitivity_row float_pow untyped_reverse_dcf
    base_inputs (Some g) var v
                   (VInt 0) = Ok (RevRow (VInt 0) g (g - g))).
  { unfold reverse_sensitivity_row, modified_inputs. cbn [py_add_one].
    change (1 + 0) with 1. rewrite bind_Ok, py_mul_one, bind_Ok.
    rewrite (insert_id _ _ _ Hv), Hbase. reflexivity. }
  split; [exact Hrow|]. split; [|apply sub_self_zero].
  unfold reverse_dcf_sensitivity. rewrite Hbase, bind_Ok. cbn [for_each].
  unfold dict_getitem. rewrite Hv, lookup_singleton_eq, !bind_Ok.
  cbn [comprehension]. rewrite Hrow. reflexivity.
Qed.

(** * The grid of the reverse search *)

(** X15: the ways [reverse_dcf] can fail before its scan: an
    [iteration_range] that does not have three elements is a [ValueError] of
    the unpacking, a zero step a [ZeroDivisionError], and otherwise the
    exception is the [ValueError] of [np.arange], raised when the quotient
    [(max_growth - min_growth) / step] is not a number, is infinite, or has
    a ceiling outside [-2 ** 63, 2 ** 63]. *)
Theorem growth_grid_exceptions (q : reverse_args) (e : exn) :
  growth_grid q = Raise e ->
  (length (iteration_range q) <> 3%nat /\ e = ValueError) \/
  exists mn mx st : float,
    iteration_range q = [mn; mx; st] /\
    (((st =? 0)%float = true /\ e = ZeroDivisionError) \/
     ((st =? 0)%float = false /\ e = ValueError /\
      match float_ceil ((mx - mn) / st) with
      | None => True
      | Some c => c < - 2 ^ 63 \/ 2 ^ 63 < c
      end)).
Proof.
  unfold growth_grid, unpack3.
  destruct (iteration_range q) as [|mn [|mx [|st [|]]]];
    try (rewrite bind_Raise; intros [= <-]; left; by split).
  rewrite bind_Ok. intros H. right. exists mn, mx, st. split; [done|].
  unfold np_arange, arange_length in H.
  destruct (st =? 0)%float; [rewrite bind_Raise in H; left; by injection H|].
  right. split; [done|]. unfold float_ceil_intp in H.
  destruct (float_ceil ((mx - mn) / st)) as [c|].
  - destruct (_ || _) eqn:Hc.
    + rewrite !bind_Raise in H. split; [by injection H|].
      apply orb_true_iff in Hc as [Hc|Hc]; apply Z.ltb_lt in Hc; lia.
    + exfalso. destruct (c =? 2 ^ 63); rewrite !bind_Ok in H;
        destruct (Prim2SF ((mx - mn) / st)) as [s|s| |s m ex]; try done;
        by destruct (negb _).
  - rewrite !bind_Raise in H. split; [by injection H|done].
Qed.

(** * The M&A valuation model *)

Lemma eqb_finite_sub_zero (x y : float) :
  (x =? y)%float = true -> is_finite x = true -> is_zero (x - y) = true.
Proof.
  unfold is_finite.
  rewrite FloatAxioms.eqb_spec, is_nan_spec, is_infinity_spec, is_zero_spec,
    sub_spec.
  unfold SFeqb, SF64sub, SFsub.
  destruct (Prim2SF x) as [sx|sx| |sx mx ex], (Prim2SF y) as [sy|sy| |sy my ey];
    try destruct sx; try destruct sy; simpl; try discriminate; try done.
  all: destruct (Z.compare_spec ex ey); try discriminate; subst;
    change (PosDef.Pos.compare_cont Eq mx my) with (Pos.compare mx my);
    destruct (Pos.compare_spec mx my); try discriminate; subst;
    intros _ _; rewrite Z.sub_diag; reflexivity.
Qed.

Lemma py_truediv_is_ok (x y : float) :
  is_ok (py_truediv x y) = true <-> is_zero y = false.
Proof. unfold py_truediv. by destruct (is_zero y). Qed.

Lemma py_truediv_nonzero (x y : float) :
  is_zero y = false -> py_truediv x y = Ok (x / y)%float.
Proof. unfold py_truediv. by intros ->. Qed.

Lemma py_truediv_zero (x y : float) :
  is_zero y = true -> py_truediv x y = Raise ZeroDivisionError.
Proof. unfold py_truediv. by intros ->. Qed.

Lemma comprehension_map {A B C} (f : B -> result C) (h : A -> B)
      (l : list A) :
  comprehension f (map h l) = comprehension (fun x => f (h x)) l.
Proof.
  induction l as [|x l IH]; [reflexivity|]. cbn [map comprehension].
  by rewrite IH.
Qed.

Lemma py_enumerate_tabulate {A} (c : nat -> A) (n : nat) :
  py_enumerate (tabulate c n) = map (fun i => (Z.of_nat i, c i)) (seq 0 n).
Proof.
  unfold py_enumerate. rewrite length_tabulate. unfold tabulate.
  generalize 0%nat. induction n as [|n IH]; intros s; [reflexivity|].
  cbn [seq map zip zip_with]. f_equal. apply IH.
Qed.

Lemma dict_getitem_Some {V} (d : gmap string V) (k : string) (v : V) :
  d !! k = Some v -> dict_getitem d k = Ok v.
Proof. unfold dict_getitem. by intros ->. Qed.

Lemma dict_getitem_None {V} (d : gmap string V) (k : string) :
  d !! k = None -> dict_getitem d k = Raise KeyError.
Proof. unfold dict_getitem. by intros ->. Qed.

Section MA_loop.

Variable growth_rate : float.

Lemma grow_fcf_unfold (st : pyval * list float) :
  grow_fcf growth_rate st
  = (x ← as_float st.1;
     Ok (VFloat (x * (1 + growth_rate))%float,
         st.2 ++ [(x * (1 + growth_rate))%float])).
Proof. reflexivity. Qed.

Lemma grow_from (x : float) (xs : list Z) :
  forall j : nat,
    for_each xs (fun _ => grow_fcf growth_rate)
      (VFloat (compound x growth_rate j),
       tabulate (compound x growth_rate) (S j))
    = Ok (VFloat (compound x growth_rate (j + length xs)),
          tabulate (compound x growth_rate) (S (j + length xs))).
Proof.
  induction xs as [|k xs IH]; intros j.
  { cbn [for_each length]. by rewrite Nat.add_0_r. }
  cbn [for_each length]. rewrite grow_fcf_unfold. cbn [as_float fst snd].
  rewrite !bind_Ok.
  change (compound x growth_rate j * (1 + growth_rate))%float
    with (compound x growth_rate (S j)).
  rewrite <- (tabulate_S (compound x growth_rate) (S j)), (IH (S j)).
  by rewrite Nat.add_succ_r.
Qed.

(** Lines 23-26: the projection loop. *)
Lemma projection_loop (v : pyval) (n : Z) :
  for_each (py_range 0 n) (fun _ => grow_fcf growth_rate) (v, [])
  = if n <=? 0 then Ok (v, [])
    else x ← as_float v;
         Ok (VFloat (compound x growth_rate (Z.to_nat n - 1)),
             tabulate (compound x growth_rate) (Z.to_nat n)).
Proof.
  unfold py_range. rewrite Z.sub_0_r.
  destruct (Z.leb_spec n 0) as [Hn|Hn].
  { by replace (Z.to_nat n) with 0%nat by lia. }
  destruct (Z.to_nat n) as [|k] eqn:Hk; [lia|].
  cbn [seq map for_each]. rewrite grow_fcf_unfold. cbn [fst snd].
  destruct (as_float v) as [x|e]; [|reflexivity]. rewrite !bind_Ok.
  change ([] ++ [(x * (1 + growth_rate))%float])
    with (tabulate (compound x growth_rate) 1).
  change (x * (1 + growth_rate))%float with (compound x growth_rate 0).
  rewrite grow_from, length_map, length_seq. cbn [Nat.add].
  by replace (S k - 1)%nat with k by lia.
Qed.

End MA_loop.

Section MA_valuation.

Variable float_pow : float -> Z -> result float.
Variable py_sum : list float -> float.
Variable self : ma_model.
Variables wacc growth_rate : float.
Variable n : Z.

(** [dcf_valuation] on a target whose cash flow converts to the float [x],
    with at least one forecast year: what is left after the projection. *)
Lemma dcf_valuation_projected (v : pyval) (x : float) :
  target self !! "fcf" = Some v -> as_float v = Ok x -> 1 <= n ->
  let c := compound x growth_rate in
  dcf_valuation float_pow py_sum self wacc growth_rate n
  = (terminal_value ←
       py_truediv (c (Z.to_nat n - 1)%nat * (1 + growth_rate))%float
         (wacc - growth_rate)%float;
     terms ← comprehension
               (fun i : nat =>
                  p ← float_pow (1 + wacc)%float (Z.of_nat i + 1);
                  py_truediv (c i) p)
               (seq 0 (Z.to_nat n));
     p ← float_pow (1 + wacc)%float n;
     pv_terminal ← py_truediv terminal_value p;
     net_debt ← dict_getitem (target self) "net_debt";
     net_debt ← as_float net_debt;
     Ok (MADcf (py_sum terms + pv_terminal)
           (py_sum terms + pv_terminal - net_debt))%float).
Proof.
  intros Hv Hx Hn c. unfold dcf_valuation.
  rewrite (dict_getitem_Some _ _ _ Hv), bind_Ok, projection_loop.
  destruct (Z.leb_spec n 0) as [?|_]; [lia|]. rewrite Hx, !bind_Ok.
  cbn [snd]. fold c.
  destruct (Z.to_nat n) as [|k] eqn:Hk; [lia|].
  rewrite tabulate_S at 1. rewrite py_getitem_last, bind_Ok.
  replace (S k - 1)%nat with k by lia.
  rewrite py_enumerate_tabulate, comprehension_map. reflexivity.
Qed.

End MA_valuation.

(** X16: [dcf_valuation] returns exactly when the target has a cash flow and
    a net debt that are numbers within the range of a float, there is at
    least one forecast year, the difference [wacc - growth_rate] is not
    zero, and every power [(1 + wacc) ** i] for [i = 1..forecast_years] is
    defined and not zero. *)
Theorem dcf_valuation_returns_iff (float_pow : float -> Z -> result float)
        (py_sum : list float -> float) (self : ma_model)
        (wacc growth_rate : float) (forecast_years : Z) :
  is_ok (dcf_valuation float_pow py_sum self wacc growth_rate forecast_years)
  = true <->
  (exists v, target self !! "fcf" = Some v /\ is_ok (as_float v) = true) /\
  1 <= forecast_years /\
  is_zero (wacc - growth_rate) = false /\
  (forall i : Z, 1 <= i <= forecast_years ->
     exists p, float_pow (1 + wacc)%float i = Ok p /\ is_zero p = false) /\
  (exists v, target self !! "net_debt" = Some v /\ is_ok (as_float v) = true).
Proof.
  destruct (target self !! "fcf") as [v|] eqn:Hv.
  2:{ unfold dcf_valuation. rewrite (dict_getitem_None _ _ Hv).
      split; [done|]. by intros [(v & ? & _) _]. }
  destruct (Z.leb_spec forecast_years 0) as [Hn|Hn].
  { unfold dcf_valuation.
    rewrite (dict_getitem_Some _ _ _ Hv), bind_Ok, projection_loop.
    destruct (Z.leb_spec forecast_years 0) as [_|?]; [|lia].
    rewrite bind_Ok. cbn [snd]. rewrite py_getitem_empty.
    split; [done|]. intros (_ & ? & _). lia. }
  destruct (as_float v) as [x|e] eqn:Hx.
  2:{ unfold dcf_valuation.
      rewrite (dict_getitem_Some _ _ _ Hv), bind_Ok, projection_loop.
      destruct (Z.leb_spec forecast_years 0) as [?|_]; [lia|].
      rewrite Hx. split; [done|]. intros [(v' & [= <-] & H) _].
      by rewrite Hx in H. }
  rewrite (dcf_valuation_projected _ _ _ _ _ _ v x Hv Hx) by lia.
  cbn zeta. set (c := compound x growth_rate).
  set (N := Z.to_nat forecast_years).
  assert (Hterms :
    is_ok (comprehension
             (fun i : nat =>
                p ← float_pow (1 + wacc)%float (Z.of_nat i + 1);
                py_truediv (c i) p) (seq 0 N)) = true <->
    forall i : Z, 1 <= i <= forecast_years ->
      exists p, float_pow (1 + wacc)%float i = Ok p /\ is_zero p = false).
  { rewrite comprehension_is_ok, Forall_forall. split.
    - intros H i Hi. specialize (H (Z.to_nat (i - 1))).
      replace (Z.of_nat (Z.to_nat (i - 1)) + 1) with i in H by lia.
      assert (Hin : Z.to_nat (i - 1) ∈ seq 0 N) by (apply elem_of_seq; lia).
      specialize (H Hin).
      destruct (float_pow _ i) as [p|e]; [|done].
      exists p. split; [done|]. rewrite bind_Ok in H.
      by apply py_truediv_is_ok with (c (Z.to_nat (i - 1))).
    - intros H i Hi. apply elem_of_seq in Hi.
      destruct (H (Z.of_nat i + 1)) as (p & -> & Hp); [lia|].
      rewrite bind_Ok. by apply py_truediv_is_ok. }
  split.
  - intros H. split; [by exists v; rewrite Hx|]. split; [lia|].
    destruct (is_zero (wacc - growth_rate)) eqn:Hz.
    { by rewrite (py_truediv_zero _ _ Hz) in H. }
    split; [done|].
    rewrite (py_truediv_nonzero _ _ Hz), bind_Ok in H.
    destruct (comprehension _ _) as [terms|e] eqn:Hc; [|done].
    assert (Hp : forall i : Z, 1 <= i <= forecast_years ->
              exists p, float_pow (1 + wacc)%float i = Ok p
                        /\ is_zero p = false) by (by apply Hterms).
    split; [exact Hp|]. rewrite bind_Ok in H.
    destruct (Hp forecast_years) as (p & Hpn & Hpz); [lia|].
    rewrite Hpn, bind_Ok, (py_truediv_nonzero _ _ Hpz), bind_Ok in H.
    unfold dict_getitem in H.
    destruct (target self !! "net_debt") as [d|]; [|done].
    exists d. split; [done|]. rewrite bind_Ok in H.
    by destruct (as_float d).
  - intros (_ & _ & Hz & Hp & d & Hd & Hdf).
    rewrite (py_truediv_nonzero _ _ Hz), bind_Ok.
    apply Hterms in Hp as Hc. apply is_ok_true in Hc as [terms ->].
    rewrite bind_Ok. destruct (Hp forecast_years) as (p & -> & Hpz); [lia|].
    rewrite bind_Ok, (py_truediv_nonzero _ _ Hpz), bind_Ok.
    unfold dict_getitem. rewrite Hd, bind_Ok.
    apply is_ok_true in Hdf as [nd ->]. by rewrite bind_Ok.
Qed.

(** X17: the value [dcf_valuation] returns. With [x] the float of the
    target's cash flow, the cash flow of year [i + 1] is [x] multiplied
    [i + 1] times by [1 + growth_rate]; the enterprise value is the [sum] of
    the cash flows divided by [(1 + wacc) ** (i + 1)] plus the Gordon
    terminal value of the last cash flow, divided by
    [(1 + wacc) ** forecast_years]; the equity value is the enterprise value
    less the net debt. *)
Theorem dcf_valuation_value (float_pow : float -> Z -> result float)
        (py_sum : list float -> float) (self : ma_model)
        (wacc growth_rate : float) (forecast_years : Z)
        (v d : pyval) (x nd : float) (pw : Z -> float) :
  target self !! "fcf" = Some v -> as_float v = Ok x ->
  target self !! "net_debt" = Some d -> as_float d = Ok nd ->
  1 <= forecast_years ->
  is_zero (wacc - growth_rate) = false ->
  (forall i : Z, 1 <= i <= forecast_years ->
     float_pow (1 + wacc)%float i = Ok (pw i) /\ is_zero (pw i) = false) ->
  let n := Z.to_nat forecast_years in
  let c := compound x growth_rate in
  let terminal_value :=
    (c (n - 1)%nat * (1 + growth_rate) / (wacc - growth_rate))%float in
  let enterprise_value :=
    (py_sum (tabulate (fun i => c i / pw (Z.of_nat i + 1)%Z) n)
     + terminal_value / pw forecast_years)%float in
  dcf_valuation float_pow py_sum self wacc growth_rate forecast_years
  = Ok (MADcf enterprise_value (enterprise_value - nd)%float).
Proof.
  intros Hv Hx Hd Hnd Hn Hz Hp n c tv ev.
  rewrite (dcf_valuation_projected _ _ _ _ _ _ v x Hv Hx) by lia.
  cbn zeta. fold c n. rewrite (py_truediv_nonzero _ _ Hz), bind_Ok.
  pose proof (comprehension_map_seq
                (fun i : nat =>
                   p ← float_pow (1 + wacc)%float (Z.of_nat i + 1);
                   py_truediv (c i) p)
                (fun i => i)
                (fun i => (c i / pw (Z.of_nat i + 1)%Z)%float) n 0) as Hc.
  rewrite map_id in Hc. rewrite Hc.
  2:{ intros i Hi. destruct (Hp (Z.of_nat i + 1)) as [-> Hpz]; [lia|].
      by rewrite bind_Ok, (py_truediv_nonzero _ _ Hpz). }
  rewrite bind_Ok. destruct (Hp forecast_years) as [-> Hpz]; [lia|].
  rewrite bind_Ok, (py_truediv_nonzero _ _ Hpz), bind_Ok.
  unfold dict_getitem. rewrite Hd, bind_Ok, Hnd, bind_Ok. reflexivity.
Qed.

(** X18: unlike [calculate_dcf], whose numpy division returns an infinity or
    a NaN, [dcf_valuation] raises a [ZeroDivisionError] when the discount
    rate equals the growth rate (and is finite), whatever the other
    inputs, once the projection is through. *)
Theorem dcf_valuation_equal_rates (float_pow : float -> Z -> result float)
        (py_sum : list float -> float) (self : ma_model)
        (wacc growth_rate : float) (forecast_years : Z) (v : pyval) :
  target self !! "fcf" = Some v -> is_ok (as_float v) = true ->
  1 <= forecast_years ->
  (wacc =? growth_rate)%float = true -> is_finite wacc = true ->
  dcf_valuation float_pow py_sum self wacc growth_rate forecast_years
  = Raise ZeroDivisionError.
Proof.
  intros Hv Hx Hn Heq Hf. apply is_ok_true in Hx as [x Hx].
  rewrite (dcf_valuation_projected _ _ _ _ _ _ v x Hv Hx) by lia.
  cbn zeta.
  by rewrite (py_truediv_zero _ _ (eqb_finite_sub_zero _ _ Heq Hf)).
Qed.

(** X19: with a zero discount rate [synergy_value] returns exactly when the
    model was built without synergies ([None] or an empty dictionary), and
    then returns the int [0]; with any synergies the perpetuity division
    makes it raise. *)
Theorem synergy_value_zero_wacc (target_financials : gmap string pyval)
        (comparable_companies : list (gmap string pyval))
        (s : option (gmap string pyval)) (tax_rate wacc : float) :
  is_zero wacc = true ->
  let self := MAValuationModel target_financials comparable_companies s in
  (is_ok (synergy_value self tax_rate wacc) = true <->
   (s = None \/ s = Some ∅)) /\
  (is_ok (synergy_value self tax_rate wacc) = true ->
   synergy_value self tax_rate wacc = Ok (VInt 0)).
Proof.
  intros Hz self. unfold synergy_value, self, MAValuationModel. cbn [synergies].
  destruct (bool_decide_reflect (default ∅ s = ∅)) as [He|Hne].
  - split; [|done]. split; [intros _|done].
    destruct s as [m|]; [right; by f_equal|by left].
  - assert (Hraise : forall (T : Type) (k : float -> result T) (x : float),
              is_ok (p ← py_truediv x wacc; k p) = false).
    { intros T k x. by rewrite (py_truediv_zero _ _ Hz). }
    cbn zeta.
    destruct (py_add _ _) as [sum|e]; [|split; [split; [done|]|done]].
    + rewrite bind_Ok. destruct (as_float sum) as [x|e].
      * rewrite bind_Ok, Hraise. split; [split; [done|]|done].
        by intros [->| ->].
      * split; [split; [done|]|done]. by intros [->| ->].
    + by intros [->| ->].
Qed.

(** ** Concrete runs of the further properties *)

Lemma calculate_dcf_exceptions_witness :
  exists i : Z,
    1 <= i <= years ex_zero_base /\
    float_pow_model (1 + discount_rate ex_zero_base)%float (- i)
    = Raise ZeroDivisionError.
Proof.
  destruct (calculate_dcf_exceptions float_pow_model ex_zero_base
              ZeroDivisionError)
    as [[_ He]|[(_ & _ & He)|(_ & _ & _ & Hi)]];
    [reflexivity|discriminate He|discriminate He|exact Hi].
Defined.

Lemma calculate_dcf_ignores_later_entries_witness :
  calculate_dcf float_pow_model
    (with_series ex_long_series [0.5; 0.25]%float [0.5; 0.25]%float)
  = calculate_dcf float_pow_model ex_long_series.
Proof.
  apply (calculate_dcf_ignores_later_entries float_pow_model ex_long_series);
    vm_compute; discriminate.
Defined.

Lemma calculate_dcf_padding_witness :
  calculate_dcf float_pow_model
    (with_series ex_valid [0.5; 0.25; 0.25]%float [0.5; 0.5; 0.5]%float)
  = calculate_dcf float_pow_model ex_valid.
Proof.
  apply (calculate_dcf_padding float_pow_model ex_valid 1 2); discriminate.
Defined.

Lemma sensitivity_analysis_shape_witness :
  exists results : gmap string (list sens_row),
    sensitivity_analysis float_pow_model untyped_dcf_model ex_base_inputs
      ["tax_rate"]
      {["tax_rate" := [VFloat 0; VFloat 0.5]]} = Ok results /\
    dom results = list_to_set ["tax_rate"].
Proof.
  eexists. split; [vm_compute; reflexivity|].
  eapply (sensitivity_analysis_shape float_pow_model untyped_dcf_model
    ex_base_inputs
            ["tax_rate"] {["tax_rate" := [VFloat 0; VFloat 0.5]]}).
  vm_compute; reflexivity.
Defined.

Lemma reverse_dcf_answer_scanned_witness :
  exists (grid : list float) (d : float),
    growth_grid ex_query = Ok grid /\ 0%float ∈ grid /\
    candidate_difference float_pow_model ex_query 0 = Ok d /\
    (d <? infinity)%float = true.
Proof.
  apply (reverse_dcf_answer_scanned float_pow_model ex_query 0). reflexivity.
Defined.

Lemma reverse_dcf_None_iff_witness :
  reverse_dcf float_pow_model ex_query_overflow = Ok None.
Proof.
  apply (reverse_dcf_None_iff float_pow_model ex_query_overflow [1; 2]%float
           ex_overflow_differences).
  - reflexivity.
  - repeat constructor.
  - repeat constructor.
Defined.

Lemma reverse_dcf_horizon_raises_witness :
  reverse_dcf float_pow_model ex_query_no_years = Raise IndexError.
Proof.
  apply (reverse_dcf_horizon_raises float_pow_model ex_query_no_years 0
           [0.25; 0.5; 0.75]%float); [reflexivity|cbn; lia].
Defined.

Lemma sensitivity_analysis_zero_base_witness :
  exists row : sens_row,
    sensitivity_row float_pow_model untyped_dcf_model ex_zero_inputs 0
      "tax_rate"
      (VFloat 0.25) (VFloat 0.5) = Ok row /\
    is_finite (value_change row) = false.
Proof.
  set (row := from_ok (SensRow (VInt 0) 0 0)
                (sensitivity_row float_pow_model untyped_dcf_model
                  ex_zero_inputs 0 "tax_rate"
                   (VFloat 0.25) (VFloat 0.5))).
  exists row. split; [vm_compute; reflexivity|].
  eapply (sensitivity_analysis_zero_base float_pow_model untyped_dcf_model
    ex_zero_inputs
            ["tax_rate"] {["tax_rate" := [VFloat 0.5]]}
            (from_ok no_result
               (call_calculate_dcf float_pow_model untyped_dcf_model
                 ex_zero_inputs))
            {["tax_rate" := [row]]}) with "tax_rate" [row].
  - vm_compute; reflexivity.
  - vm_compute; reflexivity.
  - vm_compute; reflexivity.
  - vm_compute; reflexivity.
  - apply list_elem_of_here.
Defined.

Lemma reverse_dcf_sensitivity_rows_witness :
  exists results : gmap string (list rev_row),
    reverse_dcf_sensitivity float_pow_model untyped_reverse_dcf_model
      ex_reverse_inputs
      ["discount_rate"] {["discount_rate" := [VFloat 0.5]]} = Ok results /\
    dom results = list_to_set ["discount_rate"].
Proof.
  eexists. split; [vm_compute; reflexivity|].
  eapply (reverse_dcf_sensitivity_rows float_pow_model untyped_reverse_dcf_model
    ex_reverse_inputs
            ["discount_rate"] {["discount_rate" := [VFloat 0.5]]}).
  vm_compute; reflexivity.
Defined.

Lemma reverse_dcf_sensitivity_no_base_witness :
  reverse_dcf_sensitivity float_pow_model untyped_reverse_dcf_model
    ex_reverse_inputs_empty
    ["tax_rate"] {["tax_rate" := []]} = Ok {["tax_rate" := []]} /\
  ({["tax_rate" := []]} : gmap string (list rev_row)) !! "tax_rate" = Some [].
Proof.
  split; [vm_compute; reflexivity|].
  apply (reverse_dcf_sensitivity_no_base float_pow_model
    untyped_reverse_dcf_model
           ex_reverse_inputs_empty ["tax_rate"] {["tax_rate" := []]}
           {["tax_rate" := []]}).
  - vm_compute; reflexivity.
  - vm_compute; reflexivity.
  - apply list_elem_of_here.
Defined.

Lemma reverse_sweep_zero_perturbation_witness :
  reverse_sensitivity_row float_pow_model untyped_reverse_dcf_model
    ex_reverse_inputs (Some 0%float)
    "ebit_margins" (VList [0.5]%float) (VInt 0)
  = Ok (RevRow (VInt 0) 0 (0 - 0)).
Proof.
  apply (reverse_sweep_zero_perturbation float_pow_model
    untyped_reverse_dcf_model ex_reverse_inputs
           "ebit_margins" (VList [0.5]%float) 0); vm_compute; reflexivity.
Defined.

Lemma growth_grid_exceptions_witness :
  growth_grid ex_query_zero_step = Raise ZeroDivisionError /\
  (length (iteration_range ex_query_zero_step) = 3)%nat.
Proof.
  assert (H : growth_grid ex_query_zero_step = Raise ZeroDivisionError)
    by reflexivity.
  split; [exact H|].
  destruct (growth_grid_exceptions ex_query_zero_step ZeroDivisionError H)
    as [[_ He]|(mn & mx & st & -> & _)]; [discriminate He|reflexivity].
Defined.

Lemma dcf_valuation_value_witness :
  dcf_valuation float_pow_model py_sum_model
    (MAValuationModel ex_target [] None) 1 0.5 2
  = Ok (MADcf 192 184).
Proof.
  apply (dcf_valuation_value float_pow_model py_sum_model
           (MAValuationModel ex_target [] None) 1 0.5 2
           (VInt 64) (VFloat 8) 64 8
           (fun i => from_ok 0%float (float_pow_model 2 i))).
  - reflexivity.
  - reflexivity.
  - reflexivity.
  - reflexivity.
  - lia.
  - reflexivity.
  - intros i Hi.
    assert (i = 1 \/ i = 2) as [-> | ->] by lia; split; reflexivity.
Defined.

Lemma dcf_valuation_equal_rates_witness :
  dcf_valuation float_pow_model py_sum_model
    (MAValuationModel ex_target [] None) 0.5 0.5 2
  = Raise ZeroDivisionError.
Proof.
  apply (dcf_valuation_equal_rates float_pow_model py_sum_model
           (MAValuationModel ex_target [] None) 0.5 0.5 2 (VInt 64));
    first [reflexivity | lia].
Defined.

Lemma synergy_value_zero_wacc_witness :
  is_ok (synergy_value (MAValuationModel target_data [] (Some synergies_data))
           0.25 0) = false /\
  synergy_value (MAValuationModel target_data [] None) 0.25 0 = Ok (VInt 0).
Proof.
  split; [reflexivity|].
  apply (synergy_value_zero_wacc target_data [] None 0.25 0); reflexivity.
Defined.

Lemma candidate_flat_series_witness :
  calculate_dcf float_pow_model
    (DcfArgs [0.25]%float [0.5]%float 0.25 0.125 0.125 1 0.5 1024 2)
  = calculate_dcf float_pow_model
      (DcfArgs [0.25; 0.25]%float [0.5]%float 0.25 0.125 0.125 1 0.5 1024 2).
Proof.
  apply (candidate_flat_series float_pow_model ex_query 0.25
           (DcfArgs [0.25; 0.25]%float [0.5]%float 0.25 0.125 0.125 1 0.5
              1024 2)).
  reflexivity.
Defined.
